(** * McRconToolPlus: the RCON packet codec and the protocol client

    A shallow embedding of [rcon_protocol.py] and [rcon_client.py].

    - [Py]: the pieces of the Python platform the two modules call
      ([struct.pack]/[struct.unpack] with format ['<i'], the UTF-8 codec,
      [bytes.find], slicing).
    - [RconProtocol]: [RconPacket.to_bytes], [RconPacket.from_bytes] and the
      packet constructors.
    - [RconClient]: the client, as a state-and-exception monad over the
      client object and a scripted network.
    - [Spec]: the vocabulary of the statements (where a payload ends, what
      a disconnected client is, traces, postconditions, scenarios).
    - [PyFacts], [CodecFacts], [ClientFacts]: the proofs.  The statements
      that settle the properties C1 to C10 of the specification carry the
      property's number in their comment.
    - [ContextManager], [Config], [Commands]: the client as a context
      manager, the methods of [Config] of [config.py], and [commands.py],
      the commands and their processor, as a monad over the client's.
    - [SpecMore], [ConfigSpec], [CommandsSpec]: more vocabulary.
    - [CodecMore], [ClientMore], [ContextFacts], [ConfigFacts],
      [CommandsFacts]: further properties of the code, numbered X1, X2,
      and so on in their comment. *)

From Stdlib Require Import ZArith List Bool Lia Floats.
From Stdlib Require String Ascii.
Import ListNotations.
Open Scope Z_scope.

(* ================================================================== *)
(** * The Python platform *)
(* ================================================================== *)

Module Py.

(** A [bytes] object is a sequence of integers in [0, 256); a [str] is a
    sequence of code points in [0, 0x110000). *)
Definition bytes := list Z.
Definition str := list Z.

Definition is_byte (b : Z) : Prop := 0 <= b < 256.
Definition is_bytes (bs : bytes) : Prop := Forall is_byte bs.

Definition len {A} (l : list A) : Z := Z.of_nat (length l).

(** [data[lo:hi]] for [0 <= lo]; a negative [hi] does not occur in the
    modelled code. *)
Definition slice {A} (data : list A) (lo hi : Z) : list A :=
  firstn (Z.to_nat (hi - lo)) (skipn (Z.to_nat lo) data).

(** ** [struct], format ['<i'] *)

Definition INT32_MIN : Z := -2147483648.
Definition INT32_MAX : Z := 2147483647.

Definition in_int32 (n : Z) : bool := (INT32_MIN <=? n) && (n <=? INT32_MAX).

(** [struct.pack('<i', n)]: four bytes, little-endian two's complement;
    [None] is [struct.error] (argument out of range). *)
Definition struct_pack_i (n : Z) : option bytes :=
  if in_int32 n then
    let u := n mod 4294967296 in
    Some [u mod 256; (u / 256) mod 256; (u / 65536) mod 256; (u / 16777216) mod 256]
  else None.

(** [struct.unpack('<i', b)[0]]; [None] is [struct.error] (the buffer is
    not four bytes long). *)
Definition struct_unpack_i (b : bytes) : option Z :=
  match b with
  | [b0; b1; b2; b3] =>
      let u := b0 + 256 * b1 + 65536 * b2 + 16777216 * b3 in
      Some (if u <? 2147483648 then u else u - 4294967296)
  | _ => None
  end.

(** ** UTF-8 *)

Definition REPLACEMENT : Z := 0xFFFD.

Definition is_surrogate (c : Z) : bool := (0xD800 <=? c) && (c <? 0xE000).

(** The code points [str.encode('utf-8')] accepts. *)
Definition is_scalar (c : Z) : bool :=
  (0 <=? c) && (c <? 0x110000) && negb (is_surrogate c).

(** One code point of [str.encode('utf-8')]; [None] is
    [UnicodeEncodeError] (a surrogate). *)
Definition utf8_encode_char (c : Z) : option bytes :=
  if negb (is_scalar c) then None
  else if c <? 0x80 then Some [c]
  else if c <? 0x800 then Some [0xC0 + c / 64; 0x80 + c mod 64]
  else if c <? 0x10000 then
    Some [0xE0 + c / 4096; 0x80 + (c / 64) mod 64; 0x80 + c mod 64]
  else
    Some [0xF0 + c / 262144; 0x80 + (c / 4096) mod 64;
          0x80 + (c / 64) mod 64; 0x80 + c mod 64].

Fixpoint utf8_encode (s : str) : option bytes :=
  match s with
  | [] => Some []
  | c :: s' =>
      match utf8_encode_char c, utf8_encode s' with
      | Some cb, Some bs => Some (cb ++ bs)
      | _, _ => None
      end
  end.

Definition is_cont (b : Z) : bool := (0x80 <=? b) && (b <? 0xC0).

(** [bytes.decode('utf-8', errors='replace')], after CPython's decoder:
    an invalid start byte, a lead byte followed by a byte that cannot
    continue it, or a sequence cut short by the end of the data is reported
    as one error, each error yields one U+FFFD, and decoding resumes right
    after the bytes of the error. *)
Fixpoint utf8_decode_replace (bs : bytes) : str :=
  match bs with
  | [] => []
  | b0 :: t0 =>
      if b0 <? 0x80 then b0 :: utf8_decode_replace t0
      else if b0 <? 0xC2 then REPLACEMENT :: utf8_decode_replace t0
      else if b0 <? 0xE0 then
        match t0 with
        | [] => [REPLACEMENT]
        | b1 :: t1 =>
            if is_cont b1
            then ((b0 - 0xC0) * 64 + (b1 - 0x80)) :: utf8_decode_replace t1
            else REPLACEMENT :: utf8_decode_replace t0
        end
      else if b0 <? 0xF0 then
        match t0 with
        | [] => [REPLACEMENT]
        | b1 :: t1 =>
            if negb (is_cont b1)
               || ((b0 =? 0xE0) && (b1 <? 0xA0))
               || ((b0 =? 0xED) && (0xA0 <=? b1))
            then REPLACEMENT :: utf8_decode_replace t0
            else
              match t1 with
              | [] => [REPLACEMENT]
              | b2 :: t2 =>
                  if is_cont b2
                  then ((b0 - 0xE0) * 4096 + (b1 - 0x80) * 64 + (b2 - 0x80))
                         :: utf8_decode_replace t2
                  else REPLACEMENT :: utf8_decode_replace t1
              end
        end
      else if b0 <? 0xF5 then
        match t0 with
        | [] => [REPLACEMENT]
        | b1 :: t1 =>
            if negb (is_cont b1)
               || ((b0 =? 0xF0) && (b1 <? 0x90))
               || ((b0 =? 0xF4) && (0x90 <=? b1))
            then REPLACEMENT :: utf8_decode_replace t0
            else
              match t1 with
              | [] => [REPLACEMENT]
              | b2 :: t2 =>
                  if negb (is_cont b2)
                  then REPLACEMENT :: utf8_decode_replace t1
                  else
                    match t2 with
                    | [] => [REPLACEMENT]
                    | b3 :: t3 =>
                        if is_cont b3
                        then ((b0 - 0xF0) * 262144 + (b1 - 0x80) * 4096
                              + (b2 - 0x80) * 64 + (b3 - 0x80))
                               :: utf8_decode_replace t3
                        else REPLACEMENT :: utf8_decode_replace t2
                    end
              end
        end
      else REPLACEMENT :: utf8_decode_replace t0
  end.

(** [int.from_bytes(bs, byteorder='little', signed=True)] *)
Fixpoint from_little (bs : bytes) : Z :=
  match bs with
  | [] => 0
  | b :: t => b + 256 * from_little t
  end.

Definition int_from_bytes_little_signed (bs : bytes) : Z :=
  let u := from_little bs in
  let m := 2 ^ (8 * len bs) in
  if m <=? 2 * u then u - m else u.

(** A literal of the source as a [str]. *)
Definition literal (s : String.string) : str :=
  map (fun a => Z.of_N (Ascii.N_of_ascii a)) (String.list_ascii_of_string s).

(** [range(n)] *)
Definition range (n : Z) : list Z := map Z.of_nat (seq 0 (Z.to_nat n)).

(** ** [bytes.find] *)

Fixpoint startswith (l sub : bytes) {struct sub} : bool :=
  match sub, l with
  | [], _ => true
  | _ :: _, [] => false
  | x :: sub', y :: l' => (x =? y) && startswith l' sub'
  end.

(** Lowest index [i >= pos] at which [sub] occurs, [l] being the data from
    index [pos] on; [-1] when there is none. *)
Fixpoint find_from (l sub : bytes) (pos : Z) : Z :=
  match l with
  | [] => -1
  | _ :: l' => if startswith l sub then pos else find_from l' sub (pos + 1)
  end.

(** [data.find(sub, start)] for a non-empty [sub] and [0 <= start]. *)
Definition find (data sub : bytes) (start : Z) : Z :=
  find_from (skipn (Z.to_nat start) data) sub start.

End Py.

(* ================================================================== *)
(** * Exceptions *)
(* ================================================================== *)

(** The text of each [raise] site, without the values formatted into it
    (those are carried by the constructor where a statement needs
    them). *)
Inductive parse_msg :=
  | LengthInsufficient                      (* "数据包长度不足" *)
  | LengthMismatch (declared actual : Z)    (* "数据包长度不匹配: 声明=.., 实际=.." *)
  | ParseFailed                             (* "数据包解析失败: .." *)
  | InvalidLength (declared : Z).           (* "无效的数据包长度: .." *)

Inductive type_msg :=
  | InvalidType (v : Z)                     (* "无效的数据包类型: .." *)
  | UnknownType (v : Z).                    (* "未知的数据包类型: .." *)

Inductive auth_msg :=
  | WrongPassword                           (* "RCON 密码错误" *)
  | ResponseIdMismatch.                     (* "认证响应 ID 不匹配" *)

Inductive conn_msg :=
  | CannotConnect                           (* "无法连接到 host:port: .." *)
  | NotConnectedCannotAuth                  (* "未连接到服务器，无法进行认证" *)
  | NotConnected                            (* "未连接到服务器" *)
  | ResetByServer                           (* "连接被服务器重置" *)
  | NetworkError                            (* "网络错误: .." *)
  | CannotReadLength                        (* "无法读取数据包长度" *)
  | PingFailed.                             (* "Ping 失败: .." *)

#[local] Set Warnings "-register-all".

(** Exception objects.  [ConnectionError] is the class [rcon_client.py]
    declares (a subclass of [RconError], shadowing the builtin of that name);
    its second argument is the exception formatted into the message, if
    any. *)
Inductive exn : Type :=
  (* RconError and its subclasses *)
  | PacketParseError (msg : parse_msg)
  | InvalidPacketTypeError (msg : type_msg)
  | AuthenticationError (msg : auth_msg)
  | ConnectionError (msg : conn_msg) (cause : option exn)
  | DisconnectedError
  (* raised by the platform *)
  | struct_error
  | UnicodeEncodeError
  | asyncio_TimeoutError
  | IncompleteReadError
  | ConnectionResetError
  | ConnectionRefusedError
  | socket_timeout
  | OSError
  | OtherException.

Inductive result (A : Type) : Type :=
  | Ok (a : A)
  | Raise (e : exn).
Arguments Ok {A} a.
Arguments Raise {A} e.

Definition is_Ok {A} (r : result A) : bool :=
  match r with Ok _ => true | Raise _ => false end.

(** [struct.error] where the platform function has no value. *)
Definition or_struct_error {A} (o : option A) : result A :=
  match o with Some a => Ok a | None => Raise struct_error end.

Definition rbind {A B} (r : result A) (k : A -> result B) : result B :=
  match r with Ok a => k a | Raise e => Raise e end.

Declare Scope result_scope.
Delimit Scope result_scope with result.
Notation "'let?' x ':=' r 'in' k" := (rbind r (fun x => k))
  (at level 10, x name, r at level 100, k at level 200) : result_scope.

(* ================================================================== *)
(** * rcon_protocol.py *)
(* ================================================================== *)

Module RconProtocol.
Import Py.
Local Open Scope result_scope.

Inductive RconPacketType := RESPONSE_VALUE | COMMAND_VALUE | AUTH_VALUE.

(** [int(t)] *)
Definition int (t : RconPacketType) : Z :=
  match t with RESPONSE_VALUE => 0 | COMMAND_VALUE => 2 | AUTH_VALUE => 3 end.

(** [RconPacketType(v)]; [None] is [ValueError]. *)
Definition RconPacketType_of (v : Z) : option RconPacketType :=
  if v =? 0 then Some RESPONSE_VALUE
  else if v =? 2 then Some COMMAND_VALUE
  else if v =? 3 then Some AUTH_VALUE
  else None.

(** What the attribute [packet_type] may hold: a member of the enum, or a
    value that is not an instance of it (the plain integer [v], as in
    [RconPacket(1, 999, "test")]). *)
Inductive type_field :=
  | Member (t : RconPacketType)
  | Plain (v : Z).

Record RconPacket := mkRconPacket {
  packet_id : Z;
  packet_type : type_field;
  payload : str
}.

Definition to_bytes (self : RconPacket) : result bytes :=
  match packet_type self with
  | Plain v => Raise (InvalidPacketTypeError (InvalidType v))
  | Member t =>
      match utf8_encode (payload self) with
      | None => Raise UnicodeEncodeError
      | Some payload_bytes =>
          let total_length := 4 + 4 + len payload_bytes + 2 in
          let? b_len := or_struct_error (struct_pack_i total_length) in
          let? b_id := or_struct_error (struct_pack_i (packet_id self)) in
          let? b_type := or_struct_error (struct_pack_i (int t)) in
          Ok (b_len ++ b_id ++ b_type ++ payload_bytes ++ [0; 0])
      end
  end.

(** The [try] block of [from_bytes], whose [struct.error]s the method turns
    into [PacketParseError]. *)
Definition unpack_or_parse_error (b : bytes) : result Z :=
  match struct_unpack_i b with
  | Some n => Ok n
  | None => Raise (PacketParseError ParseFailed)
  end.

Definition from_bytes (data : bytes) : result RconPacket :=
  if len data <? 12 then Raise (PacketParseError LengthInsufficient)
  else
    let? packet_length := unpack_or_parse_error (slice data 0 4) in
    let expected_length := len data in
    if negb (packet_length =? expected_length - 4)
    then Raise (PacketParseError (LengthMismatch packet_length (expected_length - 4)))
    else
      let? packet_id := unpack_or_parse_error (slice data 4 8) in
      let? type_value := unpack_or_parse_error (slice data 8 12) in
      match RconPacketType_of type_value with
      | None => Raise (InvalidPacketTypeError (UnknownType type_value))
      | Some packet_type =>
          let payload_end := find data [0; 0] 12 in
          let payload_end :=
            if payload_end =? -1 then
              let payload_end := find data [0] 12 in
              if payload_end =? -1 then len data else payload_end
            else payload_end in
          let payload :=
            if 12 <? payload_end
            then utf8_decode_replace (slice data 12 payload_end)
            else [] in
          Ok (mkRconPacket packet_id (Member packet_type) payload)
      end.

(** [AuthPacket(packet_id, password)], [CommandPacket(packet_id, command)]
    and [ResponsePacket(packet_id, response)]: the subclasses only fix the
    type passed to [RconPacket.__init__]. *)
Definition AuthPacket (packet_id : Z) (password : str) : RconPacket :=
  mkRconPacket packet_id (Member AUTH_VALUE) password.

Definition CommandPacket (packet_id : Z) (command : str) : RconPacket :=
  mkRconPacket packet_id (Member COMMAND_VALUE) command.

Definition ResponsePacket (packet_id : Z) (response : str) : RconPacket :=
  mkRconPacket packet_id (Member RESPONSE_VALUE) response.

Definition create_auth_packet (packet_id : Z) (password : str) : RconPacket :=
  AuthPacket packet_id password.

Definition create_command_packet (packet_id : Z) (command : str) : RconPacket :=
  CommandPacket packet_id command.

Definition parse_packet (data : bytes) : result RconPacket :=
  from_bytes data.

End RconProtocol.


(* ================================================================== *)
(** * rcon_client.py *)
(* ================================================================== *)

Module RconClient.
Import Py RconProtocol.

(** ** The network and the interpreter, as the client sees them

    Every [await] of the client is answered by a script indexed by the
    number of awaits performed so far.  [unified_timeout] tells whether
    [asyncio.TimeoutError] and [socket.timeout] are the builtin
    [TimeoutError], a subclass of [OSError] (Python 3.11 and later), or
    [asyncio.TimeoutError] is a class of its own outside [OSError]. *)

Inductive open_outcome := Opened | OpenRaises (e : exn).
Inductive io_outcome := Done | IoRaises (e : exn).
Inductive read_outcome := Data (bs : bytes) | ReadRaises (e : exn).

Record environment := mkEnvironment {
  open_connection : nat -> open_outcome;  (* under [asyncio.wait_for] *)
  drain : nat -> io_outcome;
  readexactly : nat -> read_outcome;      (* under [asyncio.wait_for] *)
  wait_closed : nat -> io_outcome;
  peer_closes : nat -> bool;  (* the transport is closing after this await *)
  time_time : nat -> float;
  unified_timeout : bool
}.

(** [isinstance(e, OSError)], [isinstance(e, ConnectionResetError)] and
    [isinstance(e, asyncio.TimeoutError)]. *)
Definition is_OSError (E : environment) (e : exn) : bool :=
  match e with
  | ConnectionResetError | ConnectionRefusedError | socket_timeout | OSError => true
  | asyncio_TimeoutError => unified_timeout E
  | _ => false
  end.

Definition is_ConnectionResetError (e : exn) : bool :=
  match e with ConnectionResetError => true | _ => false end.

Definition is_asyncio_TimeoutError (E : environment) (e : exn) : bool :=
  match e with
  | asyncio_TimeoutError => true
  | socket_timeout => unified_timeout E
  | _ => false
  end.

(** ** What the client does to the outside *)

Inductive log_level := DEBUG | INFO | WARNING | ERROR.

Inductive log_msg :=
  | AlreadyAuthenticated
  | Connecting
  | TcpEstablished
  | ConnectRetry (attempt : Z) (e : exn)
  | ConnectGaveUp (e : exn)
  | SendingAuth
  | AuthWrongPassword
  | AuthIdMismatch (expected received : Z)
  | AuthSucceeded
  | AuthTimeout
  | AuthError (e : exn)
  | Executing (command : str)
  | ResponseIdMismatch_warning (expected received : Z)
  | CommandDone (response_length : Z)
  | CommandTimeout (command : str)
  | CommandError (command : str) (e : exn)
  | PacketSent (size : Z)
  | ResponseReceived (packet : RconPacket)
  | ConnectionReset_error
  | NetworkError_error (e : exn)
  | PingSucceeded (latency : float)
  | PingError (e : exn)
  | Disconnected_info
  | WriterCloseError (e : exn).

Inductive event :=
  | EvOpen                      (* [asyncio.open_connection(host, port)] *)
  | EvSleep (delay : float)     (* [asyncio.sleep(delay)] *)
  | EvWrite (data : bytes)      (* [writer.write(data)] *)
  | EvDrain                     (* [writer.drain()] *)
  | EvRead (n : Z)              (* [reader.readexactly(n)] *)
  | EvClose                     (* [writer.close()] *)
  | EvLog (level : log_level) (msg : log_msg).

(** ** The client object *)

Record StreamWriter := mkStreamWriter { is_closing : bool }.
Inductive StreamReader := mkStreamReader.

Record client := mkClient {
  host : String.string;
  port : Z;
  password : str;
  timeout : float;
  retry_attempts : Z;
  retry_delay : float;
  _reader : option StreamReader;
  _writer : option StreamWriter;
  _packet_id : Z;
  _authenticated : bool
}.

Definition __init__ (host : String.string) (port : Z) (password : str)
    (timeout : float) (retry_attempts : Z) (retry_delay : float) : client :=
  {| host := host; port := port; password := password; timeout := timeout;
     retry_attempts := retry_attempts; retry_delay := retry_delay;
     _reader := None; _writer := None; _packet_id := 0;
     _authenticated := false |}.

Definition is_connected (c : client) : bool :=
  match _reader c, _writer c with
  | Some _, Some w => negb (is_closing w)
  | _, _ => false
  end.

Definition is_authenticated (c : client) : bool :=
  _authenticated c && is_connected c.

Definition set_reader (r : option StreamReader) (c : client) : client :=
  mkClient (host c) (port c) (password c) (timeout c) (retry_attempts c)
    (retry_delay c) r (_writer c) (_packet_id c) (_authenticated c).

Definition set_writer (w : option StreamWriter) (c : client) : client :=
  mkClient (host c) (port c) (password c) (timeout c) (retry_attempts c)
    (retry_delay c) (_reader c) w (_packet_id c) (_authenticated c).

Definition set_packet_id (n : Z) (c : client) : client :=
  mkClient (host c) (port c) (password c) (timeout c) (retry_attempts c)
    (retry_delay c) (_reader c) (_writer c) n (_authenticated c).

Definition set_authenticated (b : bool) (c : client) : client :=
  mkClient (host c) (port c) (password c) (timeout c) (retry_attempts c)
    (retry_delay c) (_reader c) (_writer c) (_packet_id c) b.

(** ** The monad: one client, the script, a clock and the trace *)

Record world := mkWorld {
  env : environment;
  self : client;
  now : nat;            (* awaits performed so far *)
  trace : list event    (* oldest first *)
}.

Definition M (A : Type) : Type := world -> result A * world.

Definition ret {A} (a : A) : M A := fun w => (Ok a, w).

Definition raise {A} (e : exn) : M A := fun w => (Raise e, w).

Definition bind {A B} (m : M A) (k : A -> M B) : M B :=
  fun w => match m w with
           | (Ok a, w') => k a w'
           | (Raise e, w') => (Raise e, w')
           end.

(** [try: m  except Exception as e: h e] *)
Definition try_except {A} (m : M A) (h : exn -> M A) : M A :=
  fun w => match m w with
           | (Ok a, w') => (Ok a, w')
           | (Raise e, w') => h e w'
           end.

Definition lift {A} (r : result A) : M A := fun w => (r, w).

Definition get_self : M client := fun w => (Ok (self w), w).

Definition get_env : M environment := fun w => (Ok (env w), w).

Definition update (f : client -> client) : M unit :=
  fun w => (Ok tt, mkWorld (env w) (f (self w)) (now w) (trace w)).

Definition emit (ev : event) : M unit :=
  fun w => (Ok tt, mkWorld (env w) (self w) (now w) (trace w ++ [ev])).

Definition log (level : log_level) (msg : log_msg) : M unit :=
  emit (EvLog level msg).

(** While the coroutine is suspended the peer may close the transport the
    client holds. *)
Definition suspended (closes : bool) (c : client) : client :=
  match _writer c with
  | Some w => set_writer (Some (mkStreamWriter (is_closing w || closes))) c
  | None => c
  end.

(** One [await]: the script's answer for this point in time. *)
Definition await {A} (answer : environment -> nat -> A) : M A :=
  fun w =>
    (Ok (answer (env w) (now w)),
     mkWorld (env w) (suspended (peer_closes (env w) (now w)) (self w))
             (S (now w)) (trace w)).

Declare Scope client_scope.
Delimit Scope client_scope with client.
Notation "x <- m ;; k" := (bind m (fun x => k))
  (at level 61, m at next level, right associativity) : client_scope.
Notation "m ;; k" := (bind m (fun _ => k))
  (at level 61, right associativity) : client_scope.
Local Open Scope client_scope.

Definition when (b : bool) (m : M unit) : M unit := if b then m else ret tt.

(** ** The streams *)

(** [await asyncio.wait_for(asyncio.open_connection(host, port), timeout)]
    and the assignment of its result to [self._reader, self._writer].  The
    writer handed over is closing already when the peer dropped the
    connection while it was being set up. *)
Definition open_streams : M unit :=
  emit EvOpen ;;
  r <- await (fun E t => (open_connection E t, peer_closes E t)) ;;
  match r with
  | (Opened, closing) =>
      update (fun c => set_writer (Some (mkStreamWriter closing))
                         (set_reader (Some mkStreamReader) c))
  | (OpenRaises e, _) => raise e
  end.

Definition asyncio_sleep (delay : float) : M unit :=
  emit (EvSleep delay) ;; await (fun _ _ => tt).

Definition writer_write (data : bytes) : M unit := emit (EvWrite data).

Definition writer_drain : M unit :=
  emit EvDrain ;;
  r <- await drain ;;
  match r with Done => ret tt | IoRaises e => raise e end.

(** [await reader.readexactly(n)]: exactly [n] bytes, or
    [IncompleteReadError] when the stream ends before; no await when
    [n = 0]. *)
Definition reader_readexactly (n : Z) : M bytes :=
  emit (EvRead n) ;;
  if n =? 0 then ret []
  else
    r <- await readexactly ;;
    match r with
    | Data bs => if len bs =? n then ret bs else raise IncompleteReadError
    | ReadRaises e => raise e
    end.

Definition writer_close : M unit :=
  emit EvClose ;;
  update (fun c => match _writer c with
                   | Some _ => set_writer (Some (mkStreamWriter true)) c
                   | None => c
                   end).

Definition writer_wait_closed : M unit :=
  r <- await wait_closed ;;
  match r with Done => ret tt | IoRaises e => raise e end.

(** ** The methods of [RconClient] *)

Definition _get_next_packet_id : M Z :=
  update (fun c => set_packet_id (_packet_id c + 1) c) ;;
  c <- get_self ;;
  ret (_packet_id c).

Definition _close_connection : M unit :=
  update (set_authenticated false) ;;
  c <- get_self ;;
  match _writer c with
  | Some _ =>
      (* try / except Exception / finally *)
      try_except (writer_close ;; writer_wait_closed)
                 (fun e => log WARNING (WriterCloseError e)) ;;
      update (set_writer None)
  | None => ret tt
  end ;;
  c <- get_self ;;
  match _reader c with
  | Some _ => update (set_reader None)
  | None => ret tt
  end.

Definition _read_packet_data : M bytes :=
  c <- get_self ;;
  if negb (is_connected c) then raise (ConnectionError NotConnected None)
  else
    length_data <- reader_readexactly 4 ;;
    if negb (len length_data =? 4)
    then raise (ConnectionError CannotReadLength None)
    else
      let packet_length := int_from_bytes_little_signed length_data in
      if packet_length <? 0
      then raise (PacketParseError (InvalidLength packet_length))
      else
        remaining_data <- reader_readexactly packet_length ;;
        ret (length_data ++ remaining_data).

Definition _send_packet_and_wait_response (packet : RconPacket) : M RconPacket :=
  c <- get_self ;;
  if negb (is_connected c) then raise (ConnectionError NotConnected None)
  else
    (* async with self._packet_lock *)
    try_except
      (packet_data <- lift (to_bytes packet) ;;
       writer_write packet_data ;;
       writer_drain ;;
       log DEBUG (PacketSent (len packet_data)) ;;
       response_data <- _read_packet_data ;;
       response_packet <- lift (parse_packet response_data) ;;
       log DEBUG (ResponseReceived response_packet) ;;
       ret (ResponsePacket (packet_id response_packet) (payload response_packet)))
      (fun e =>
         E <- get_env ;;
         if is_ConnectionResetError e then
           log ERROR ConnectionReset_error ;;
           _close_connection ;;
           raise (ConnectionError ResetByServer None)
         else if is_OSError E e then
           log ERROR (NetworkError_error e) ;;
           _close_connection ;;
           raise (ConnectionError NetworkError (Some e))
         else raise e).

Definition _authenticate : M unit :=
  c <- get_self ;;
  if negb (is_connected c)
  then raise (ConnectionError NotConnectedCannotAuth None)
  else
    packet_id <- _get_next_packet_id ;;
    let auth_packet := create_auth_packet packet_id (password c) in
    log DEBUG SendingAuth ;;
    try_except
      (response_packet <- _send_packet_and_wait_response auth_packet ;;
       if RconProtocol.packet_id response_packet =? -1 then
         log ERROR AuthWrongPassword ;;
         raise (AuthenticationError WrongPassword)
       else if negb (RconProtocol.packet_id response_packet =? packet_id) then
         log ERROR (AuthIdMismatch packet_id (RconProtocol.packet_id response_packet)) ;;
         raise (AuthenticationError ResponseIdMismatch)
       else
         update (set_authenticated true) ;;
         log INFO AuthSucceeded)
      (fun e =>
         E <- get_env ;;
         if is_asyncio_TimeoutError E e then
           log ERROR AuthTimeout ;; _close_connection ;; raise e
         else
           log ERROR (AuthError e) ;; _close_connection ;; raise e).

(** The [for attempt in range(self.retry_attempts + 1)] loop of [connect],
    over the attempts still to make; it returns [last_exception]. *)
Fixpoint connect_attempts (attempts : list Z) (last_exception : option exn)
    : M (option exn) :=
  match attempts with
  | [] => ret last_exception
  | attempt :: rest =>
      E <- get_env ;;
      r <- try_except (open_streams ;; log DEBUG TcpEstablished ;; ret None)
                      (fun e => if is_OSError E e then ret (Some e) else raise e) ;;
      match r with
      | None => ret last_exception                       (* break *)
      | Some e =>
          let last_exception := Some e in
          c <- get_self ;;
          if attempt <? retry_attempts c then
            log WARNING (ConnectRetry attempt e) ;;
            asyncio_sleep (retry_delay c) ;;
            connect_attempts rest last_exception
          else
            log ERROR (ConnectGaveUp e) ;;
            ret last_exception                           (* break *)
      end
  end.

Definition connect : M unit :=
  (* async with self._connection_lock *)
  c <- get_self ;;
  if is_connected c && is_authenticated c then log DEBUG AlreadyAuthenticated
  else
    _close_connection ;;
    log INFO Connecting ;;
    c <- get_self ;;
    last_exception <- connect_attempts (range (retry_attempts c + 1)) None ;;
    c <- get_self ;;
    if negb (is_connected c)
    then raise (ConnectionError CannotConnect last_exception)
    else _authenticate.

Definition execute_command (command : str) : M str :=
  c <- get_self ;;
  when (negb (is_authenticated c)) connect ;;
  packet_id <- _get_next_packet_id ;;
  let command_packet := create_command_packet packet_id command in
  log DEBUG (Executing command) ;;
  try_except
    (response_packet <- _send_packet_and_wait_response command_packet ;;
     when (negb (RconProtocol.packet_id response_packet =? packet_id))
          (log WARNING (ResponseIdMismatch_warning
                          packet_id (RconProtocol.packet_id response_packet))) ;;
     log DEBUG (CommandDone (len (payload response_packet))) ;;
     ret (payload response_packet))
    (fun e =>
       E <- get_env ;;
       if is_asyncio_TimeoutError E e then
         log ERROR (CommandTimeout command) ;; _close_connection ;; raise e
       else
         log ERROR (CommandError command e) ;; _close_connection ;; raise e).

Module Literals.
Import String.
Definition time_query_daytime : string := "time query daytime"%string.
End Literals.

Definition get_time : M float :=
  fun w => (Ok (time_time (env w) (now w)), w).

Definition ping : M float :=
  c <- get_self ;;
  when (negb (is_authenticated c)) connect ;;
  start_time <- get_time ;;
  try_except
    (execute_command (literal Literals.time_query_daytime) ;;
     end_time <- get_time ;;
     let latency := ((end_time - start_time) * 1000)%float in
     log DEBUG (PingSucceeded latency) ;;
     ret latency)
    (fun e =>
       log ERROR (PingError e) ;;
       raise (ConnectionError PingFailed (Some e))).

Definition disconnect : M unit :=
  (* async with self._connection_lock *)
  _close_connection ;;
  log INFO Disconnected_info.

End RconClient.

(* ================================================================== *)
(** * Vocabulary of the statements *)
(* ================================================================== *)

Module Spec.
Import Py RconProtocol RconClient.

(** ** Codec *)

(** The byte at offset [i] of a buffer, if any. *)
Definition byte_at (data : bytes) (i : Z) : option Z :=
  if i <? 0 then None else nth_error data (Z.to_nat i).

(** The little-endian signed 32-bit integer held by the four bytes at
    offset [off]. *)
Definition int32_at (data : bytes) (off : nat) : Z :=
  let b i := nth (off + i) data 0 in
  let u := b 0%nat + 256 * b 1%nat + 65536 * b 2%nat + 16777216 * b 3%nat in
  if u <? 2147483648 then u else u - 4294967296.

Definition zero_at (data : bytes) (i : Z) : Prop := byte_at data i = Some 0.

Definition double_zero_at (data : bytes) (i : Z) : Prop :=
  zero_at data i /\ zero_at data (i + 1).

(** [i] is the first offset at or after [start] where [P] holds; no offset
    at or after [start] has [P]. *)
Definition first_from (P : Z -> Prop) (start i : Z) : Prop :=
  start <= i /\ P i /\ forall j, start <= j < i -> ~ P j.

Definition none_from (P : Z -> Prop) (start : Z) : Prop :=
  forall j, start <= j -> ~ P j.

(** Where the payload ends: at the first double zero at or after offset 12;
    failing that at the first zero; failing that at the end of the
    buffer. *)
Inductive payload_end (data : bytes) : Z -> Prop :=
  | end_at_double_zero i :
      first_from (double_zero_at data) 12 i -> payload_end data i
  | end_at_single_zero i :
      none_from (double_zero_at data) 12 ->
      first_from (zero_at data) 12 i -> payload_end data i
  | end_at_end_of_data :
      none_from (zero_at data) 12 -> payload_end data (len data).

(** A payload that holds the packet terminator: two consecutive NULs, or a
    NUL as its last character. *)
Fixpoint embeds_terminator (s : list Z) : bool :=
  match s with
  | [] => false
  | c :: s' =>
      ((c =? 0) && match s' with [] => true | d :: _ => d =? 0 end)
      || embeds_terminator s'
  end.

(** A packet [to_bytes] accepts: a member of the enum as its type, an id
    in the signed 32-bit range, a payload that encodes to UTF-8 and, with
    the ten bytes of id, type and terminator, has a length in that
    range. *)
Definition encodable (p : RconPacket) : Prop :=
  (exists t, packet_type p = Member t)
  /\ in_int32 (packet_id p) = true
  /\ exists payload_bytes,
       utf8_encode (payload p) = Some payload_bytes
       /\ 4 + 4 + len payload_bytes + 2 <= INT32_MAX.

Definition is_PacketParseError (e : exn) : bool :=
  match e with PacketParseError _ => true | _ => false end.

(** ** Client *)

Definition Disconnected (c : client) : Prop :=
  _writer c = None /\ _reader c = None /\ _authenticated c = false.

(** The buffers handed to [writer.write], oldest first. *)
Fixpoint writes (tr : list event) : list bytes :=
  match tr with
  | [] => []
  | EvWrite data :: tr' => data :: writes tr'
  | _ :: tr' => writes tr'
  end.

(** The connection attempts and the pauses of a trace. *)
Fixpoint attempts_of (tr : list event) : list event :=
  match tr with
  | [] => []
  | EvOpen :: tr' => EvOpen :: attempts_of tr'
  | EvSleep d :: tr' => EvSleep d :: attempts_of tr'
  | _ :: tr' => attempts_of tr'
  end.

(** [k] attempts with a pause of [delay] between consecutive ones. *)
Fixpoint attempts_with_pauses (delay : float) (k : nat) : list event :=
  match k with
  | O => []
  | S O => [EvOpen]
  | S k' => EvOpen :: EvSleep delay :: attempts_with_pauses delay k'
  end.

(** What a caller can do with a client, and a caller that makes calls one
    after the other, going on after a call that raised. *)
Inductive call :=
  | Connect
  | Disconnect
  | ExecuteCommand (command : str)
  | Ping.

Definition perform (c : call) (w : world) : world :=
  match c with
  | Connect => snd (connect w)
  | Disconnect => snd (disconnect w)
  | ExecuteCommand command => snd (execute_command command w)
  | Ping => snd (ping w)
  end.

Definition session (calls : list call) (w : world) : world :=
  fold_left (fun w c => perform c w) calls w.

(** A packet on the wire is an Auth or a Command packet with a positive
    id. *)
Definition request_with_positive_id (data : bytes) : Prop :=
  exists p, to_bytes p = Ok data
            /\ (packet_type p = Member AUTH_VALUE
                \/ packet_type p = Member COMMAND_VALUE)
            /\ 1 <= packet_id p
            /\ int32_at data 4 = packet_id p.

(** The constructor arguments of a client, which no method assigns. *)
Definition config (c : client) :=
  (host c, port c, password c, timeout c, retry_attempts c, retry_delay c).

(** The calls of [writer.close()] of a trace, and the transports opened:
    [connect] logs the line [TcpEstablished] after each [open_connection]
    that returned. *)
Fixpoint closes (tr : list event) : nat :=
  match tr with
  | [] => 0
  | EvClose :: tr' => S (closes tr')
  | _ :: tr' => closes tr'
  end.

Fixpoint established (tr : list event) : nat :=
  match tr with
  | [] => 0
  | EvLog DEBUG TcpEstablished :: tr' => S (established tr')
  | _ :: tr' => established tr'
  end.

(** The transports a client holds: one when it has a writer. *)
Definition held (c : client) : nat :=
  match _writer c with Some _ => 1%nat | None => 0%nat end.

(** Between [w] and [w'] every transport the client held or opened was
    closed with [writer.close()], or is the one it holds in [w']. *)
Definition releases (w w' : world) : Prop :=
  (closes (trace w') + held (self w') + established (trace w)
   = closes (trace w) + held (self w) + established (trace w'))%nat.

(** Nothing was opened, closed or dropped between [w] and [w']. *)
Definition quiet (w w' : world) : Prop :=
  closes (trace w') = closes (trace w)
  /\ established (trace w') = established (trace w)
  /\ held (self w') = held (self w).

(** A client left with the transport it opened and found closing: it is
    not authenticated and keeps the reader and the closing writer. *)
Definition holds_closing_transport (c : client) : Prop :=
  _authenticated c = false /\ _reader c = Some mkStreamReader
  /\ _writer c = Some (mkStreamWriter true).

(** Some attempt to open the transport returns one that is closing. *)
Definition hands_over_closing (E : environment) : Prop :=
  exists t, open_connection E t = Opened /\ peer_closes E t = true.

(** The client after [_close_connection]. *)
Definition closed (c : client) : client :=
  set_reader None (set_writer None (set_authenticated false c)).

(** What no method changes but through [_get_next_packet_id]. *)
Definition same_client_but_id (w w' : world) : Prop :=
  env w' = env w /\ config (self w') = config (self w)
  /\ attempts_of (trace w') = attempts_of (trace w).

(** The number of connection attempts of a trace. *)
Definition opens (tr : list event) : nat :=
  length (filter (fun ev => match ev with EvOpen => true | _ => false end) tr).

(** The world in which a request is exchanged: its id allocated, the
    debug line [msg] logged. *)
Definition ready_to_send (w : world) (msg : log_msg) : world :=
  mkWorld (env w) (set_packet_id (_packet_id (self w) + 1) (self w)) (now w)
          (trace w ++ [EvLog DEBUG msg]).

(** ** Scenarios *)

(** A peer that accepts connections and answers the reads as [reads]
    says. *)
Definition server (reads : nat -> read_outcome) : environment :=
  mkEnvironment (fun _ => Opened) (fun _ => Done) reads (fun _ => Done)
                (fun _ => false) (fun _ => 0%float) true.

(** A peer that refuses every connection. *)
Definition refusing_peer : environment :=
  mkEnvironment (fun _ => OpenRaises ConnectionRefusedError) (fun _ => Done)
                (fun _ => ReadRaises ConnectionResetError) (fun _ => Done)
                (fun _ => false) (fun _ => 0%float) true.

(** The ten bytes after the length field of a response with an empty
    payload: id [k] (one byte, or 255 four times for -1), kind 2. *)
Definition empty_reply (k : Z) : bytes :=
  if k =? -1 then [255; 255; 255; 255; 2; 0; 0; 0; 0; 0]
  else [k; 0; 0; 0; 2; 0; 0; 0; 0; 0].

(** A client with password "pw", two retries and no pause, just
    constructed. *)
Definition fresh_client : client :=
  __init__ String.EmptyString 25575 [112; 119] 10 2 0.

Definition start (E : environment) : world := mkWorld E fresh_client 0 [].

(** A peer that accepts the authentication of two connections in a row:
    the first connection reads at awaits 2 and 3, the second at awaits 7
    and 8. *)
Definition accepts_twice : environment :=
  server (fun t => match t with
                   | 2%nat | 7%nat => Data [10; 0; 0; 0]
                   | 3%nat => Data (empty_reply 1)
                   | 8%nat => Data (empty_reply 2)
                   | _ => ReadRaises asyncio_TimeoutError
                   end).

(** A peer that answers the authentication with the id -1. *)
Definition rejects_password : environment :=
  server (fun t => match t with
                   | 2%nat => Data [10; 0; 0; 0]
                   | 3%nat => Data (empty_reply (-1))
                   | _ => ReadRaises asyncio_TimeoutError
                   end).

(** A peer that never answers. *)
Definition silent_peer : environment :=
  server (fun _ => ReadRaises asyncio_TimeoutError).

(** An authenticated client that has allocated the id 1, and a peer that
    answers its next request with the id 99 and the payload "ok". *)
Definition authenticated_client : client :=
  mkClient String.EmptyString 25575 [112; 119] 10 2 0
           (Some mkStreamReader) (Some (mkStreamWriter false)) 1 true.

Definition answers_with_other_id : environment :=
  server (fun t => match t with
                   | 1%nat => Data [12; 0; 0; 0]
                   | 2%nat => Data [99; 0; 0; 0; 0; 0; 0; 0; 111; 107; 0; 0]
                   | _ => ReadRaises asyncio_TimeoutError
                   end).

(** A connected client that has not authenticated yet. *)
Definition connected_client : client :=
  mkClient String.EmptyString 25575 [112; 119] 10 2 0
           (Some mkStreamReader) (Some (mkStreamWriter false)) 0 false.

(** A command whose payload is 2147483638 times the letter a. *)
Definition oversized_command : RconPacket :=
  CommandPacket 1 (repeat 97 (Z.to_nat 2147483638)).


(** A peer that lets every connection attempt time out, seen from an
    interpreter older than Python 3.11, where [asyncio.TimeoutError] is not
    an [OSError]. *)
Definition unreachable_peer_before_3_11 : environment :=
  mkEnvironment (fun _ => OpenRaises asyncio_TimeoutError) (fun _ => Done)
                (fun _ => ReadRaises asyncio_TimeoutError) (fun _ => Done)
                (fun _ => false) (fun _ => 0%float) false.

(** A caller that connects, disconnects and connects again. *)
Definition reconnect : M unit :=
  bind connect (fun _ => bind disconnect (fun _ => connect)).

(** ** Postconditions *)

(** The payload [from_bytes] extracts from what follows the header. *)
Definition payload_after_header (rest : bytes) : str :=
  let d := find_from rest [0; 0] 12 in
  let e := if d =? -1
           then let s := find_from rest [0] 12 in
                if s =? -1 then 12 + len rest else s
           else d in
  if 12 <? e then utf8_decode_replace (firstn (Z.to_nat (e - 12)) rest) else [].

Definition starts_with_nul_or_empty (l : list Z) : bool :=
  match l with [] => true | d :: _ => d =? 0 end.

Definition list_command : RconPacket := CommandPacket 42 [108; 105; 115; 116].

(** What the exchange of packets leaves alone. *)
Definition same_client (w w' : world) : Prop :=
  env w' = env w /\ config (self w') = config (self w)
  /\ _packet_id (self w') = _packet_id (self w)
  /\ attempts_of (trace w') = attempts_of (trace w).

(** The first [j] attempts to open the transport, counted from await [t],
    fail with an error the loop handles; each is followed by a pause, one
    more await. *)
Definition handled_failures (E : environment) (t j : nat) : Prop :=
  forall k, (k < j)%nat ->
    exists e, open_connection E (t + 2 * k) = OpenRaises e /\ is_OSError E e = true.

(** Every attempt to open the transport fails with an error the loop
    handles. *)
Definition all_attempts_fail (E : environment) : Prop :=
  forall t, exists e, open_connection E t = OpenRaises e /\ is_OSError E e = true.

Definition connect_attempts_post (m : nat) (w : world)
    (r : result (option exn)) (w' : world) : Prop :=
  env w' = env w /\ config (self w') = config (self w)
  /\ _packet_id (self w') = _packet_id (self w)
  /\ _authenticated (self w') = _authenticated (self w)
  /\ writes (trace w') = writes (trace w)
  /\ closes (trace w') = closes (trace w)
  /\ ((_writer (self w') = None /\ _reader (self w') = _reader (self w)
       /\ established (trace w') = established (trace w))
      \/ (is_Ok r = true /\ _reader (self w') = Some mkStreamReader
          /\ established (trace w') = S (established (trace w))
          /\ exists closing,
               _writer (self w') = Some (mkStreamWriter closing)
               /\ (closing = true -> hands_over_closing (env w))))
  /\ exists k,
       (k <= m)%nat /\ ((0 < m)%nat -> (0 < k)%nat)
       /\ attempts_of (trace w')
          = attempts_of (trace w) ++ attempts_with_pauses (retry_delay (self w)) k
       /\ (all_attempts_fail (env w) -> (0 < m)%nat ->
           k = m /\ _writer (self w') = None /\ (now w < now w')%nat
           /\ exists e, r = Ok (Some e)
                        /\ open_connection (env w) (now w' - 1) = OpenRaises e).

Definition connect_post (w : world) (r : result unit) (w' : world) : Prop :=
  let c := self w in
  env w' = env w /\ config (self w') = config c
  /\ match r with
     | Ok _ => True
     | Raise e =>
         Disconnected (self w')
         \/ (holds_closing_transport (self w') /\ hands_over_closing (env w)
             /\ exists last, e = ConnectionError CannotConnect last)
     end
  /\ releases w w'
  /\ (is_authenticated c = true ->
      r = Ok tt /\ self w' = c /\ writes (trace w') = writes (trace w)
      /\ attempts_of (trace w') = attempts_of (trace w))
  /\ ((_packet_id (self w') = _packet_id c
       /\ writes (trace w') = writes (trace w) /\ is_Ok r = false)
      \/ is_authenticated c = true
      \/ (_packet_id (self w') = _packet_id c + 1
          /\ match to_bytes (create_auth_packet (_packet_id c + 1) (password c)) with
             | Ok data =>
                 (writes (trace w') = writes (trace w) /\ is_Ok r = false)
                 \/ writes (trace w') = writes (trace w) ++ [data]
             | Raise _ => writes (trace w') = writes (trace w) /\ is_Ok r = false
             end))
  /\ exists k,
       (k <= Z.to_nat (retry_attempts c + 1))%nat
       /\ attempts_of (trace w')
          = attempts_of (trace w) ++ attempts_with_pauses (retry_delay c) k
       /\ (is_authenticated c = false -> all_attempts_fail (env w) ->
           0 <= retry_attempts c ->
           k = Z.to_nat (retry_attempts c + 1)
           /\ exists e, r = Raise (ConnectionError CannotConnect (Some e))
                        /\ open_connection (env w) (now w' - 1) = OpenRaises e).

(** [data] is an Auth or Command packet whose id lies in [(lo, hi]]. *)
Definition request_in (lo hi : Z) (data : bytes) : Prop :=
  exists p, to_bytes p = Ok data
            /\ (packet_type p = Member AUTH_VALUE
                \/ packet_type p = Member COMMAND_VALUE)
            /\ lo < packet_id p <= hi
            /\ int32_at data 4 = packet_id p.

(** Between [w] and [w'] the counter did not decrease, and what was
    written are requests with ids allocated in between. *)
Definition sends_fresh_ids (w w' : world) : Prop :=
  _packet_id (self w) <= _packet_id (self w')
  /\ exists added,
       writes (trace w') = writes (trace w) ++ added
       /\ Forall (request_in (_packet_id (self w)) (_packet_id (self w'))) added.

Definition call_post {A} (w : world) (r : result A) (w' : world) : Prop :=
  env w' = env w /\ config (self w') = config (self w)
  /\ sends_fresh_ids w w'
  /\ (is_Ok r = false ->
      Disconnected (self w')
      \/ (holds_closing_transport (self w') /\ hands_over_closing (env w)))
  /\ releases w w'.

(** ** Weakest preconditions *)

Definition wp {A} (m : M A) (Q : result A -> world -> Prop) (w : world) : Prop :=
  Q (fst (m w)) (snd (m w)).

End Spec.

(* ================================================================== *)
(** * More vocabulary for the client *)
(* ================================================================== *)

Module SpecMore.
Import Py RconProtocol RconClient Spec.

(** The peer takes what is written before await [t] and answers with the
    frame [header ++ body], the transport staying open while the request
    is flushed. *)
Definition answers (E : environment) (t : nat) (header body : bytes) : Prop :=
  drain E t = Done /\ peer_closes E t = false
  /\ readexactly E (S t) = Data header /\ len header = 4
  /\ int_from_bytes_little_signed header = len body
  /\ readexactly E (S (S t)) = Data body.

(** The events of a successful exchange. *)
Definition exchange_events (out body : bytes) (q : RconPacket) : list event :=
  [EvWrite out; EvDrain; EvLog DEBUG (PacketSent (len out));
   EvRead 4; EvRead (len body); EvLog DEBUG (ResponseReceived q)].

(** No transport error escapes: what is raised is not an [OSError]. *)
Definition contained {A} (w : world) (r : result A) (w' : world) : Prop :=
  env w' = env w
  /\ match r with
     | Ok _ => True
     | Raise e => is_OSError (env w) e = false
     end.

(** The first [j] attempts to open the transport, counted from await [t],
    fail with an error the loop handles (each is followed by a pause, one
    more await), and the next one succeeds. *)
Definition opens_after (E : environment) (t j : nat) : Prop :=
  handled_failures E t j /\ open_connection E (t + 2 * j) = Opened.

(** The client once a transport is handed over, closing or not. *)
Definition opened (closing : bool) (c : client) : client :=
  set_writer (Some (mkStreamWriter closing)) (set_reader (Some mkStreamReader) c).

(** ** More scenarios *)

(** A peer that refuses the first two connections, accepts the third and
    answers its Auth packet with the id 1: the attempts are made at awaits
    0, 2 and 4, the response is read at awaits 6 and 7. *)
Definition accepts_third_attempt : environment :=
  mkEnvironment
    (fun t => if (t <? 4)%nat then OpenRaises ConnectionRefusedError else Opened)
    (fun _ => Done)
    (fun t => match t with
              | 6%nat => Data [10; 0; 0; 0]
              | 7%nat => Data (empty_reply 1)
              | _ => ReadRaises asyncio_TimeoutError
              end)
    (fun _ => Done) (fun _ => false) (fun _ => 0%float) true.

(** A client constructed with a negative number of retries. *)
Definition client_without_attempts : client :=
  __init__ String.EmptyString 25575 [112; 119] 10 (-1) 0.

End SpecMore.

(* ================================================================== *)
(** * The client as a context manager *)
(* ================================================================== *)

Module ContextManager.
Import Py RconProtocol RconClient.
Local Open Scope client_scope.

(** [__aenter__] connects and returns the client itself; [__aexit__]
    disconnects and returns [None], so it suppresses no exception. *)
Definition __aenter__ : M unit := connect.

Definition __aexit__ : M unit := disconnect.

(** [async with client: block], as the language defines it: the block runs
    once [__aenter__] has returned, and [__aexit__] runs when the block is
    left, normally or by an exception, which is raised again afterwards
    since [__aexit__] returned a false value. *)
Definition async_with {A} (block : M A) : M A :=
  __aenter__ ;;
  fun w => match block w with
           | (Ok a, w1) => (__aexit__ ;; ret a) w1
           | (Raise e, w1) => (__aexit__ ;; raise e) w1
           end.

End ContextManager.

(* ================================================================== *)
(** * config.py *)
(* ================================================================== *)

Module Config.
Import Py.

(** ** [dict] with [str] keys, in insertion order *)

Fixpoint str_eqb (a b : str) : bool :=
  match a, b with
  | [], [] => true
  | x :: a', y :: b' => (x =? y) && str_eqb a' b'
  | _, _ => false
  end.

Definition dict (V : Type) : Type := list (str * V).

(** [d.get(k)] *)
Fixpoint dict_get {V} (d : dict V) (k : str) : option V :=
  match d with
  | [] => None
  | (k', v) :: rest => if str_eqb k' k then Some v else dict_get rest k
  end.

(** [k in d] *)
Definition dict_contains {V} (d : dict V) (k : str) : bool :=
  match dict_get d k with Some _ => true | None => false end.

(** [d[k] = v]: a key that is present keeps its place, a new key goes
    last. *)
Fixpoint dict_set {V} (d : dict V) (k : str) (v : V) : dict V :=
  match d with
  | [] => [(k, v)]
  | (k', v') :: rest =>
      if str_eqb k' k then (k', v) :: rest else (k', v') :: dict_set rest k v
  end.

(** [del d[k]], for a key that is present. *)
Fixpoint dict_del {V} (d : dict V) (k : str) : dict V :=
  match d with
  | [] => []
  | (k', v') :: rest =>
      if str_eqb k' k then rest else (k', v') :: dict_del rest k
  end.

(** [list(d.keys())] *)
Definition dict_keys {V} (d : dict V) : list str := map fst d.

(** ** The models *)

Record ServerConfig := mkServerConfig {
  host : str;
  port : Z;
  password : str;
  timeout : float;
  retry_attempts : Z;
  retry_delay : float;
  description : option str
}.

Record UIConfig := mkUIConfig {
  theme : str;
  animations : bool;
  history_size : Z;
  auto_complete : bool;
  show_timestamps : bool;
  color_output : bool
}.

Record LoggingConfig := mkLoggingConfig {
  level : str;
  file : option str;
  max_file_size : str;
  backup_count : Z;
  console_output : bool
}.

Record Config := mkConfig {
  servers : dict ServerConfig;
  ui : UIConfig;
  logging : LoggingConfig;
  default_server : option str
}.

(** The lines the methods of [Config] log. *)
Inductive config_log :=
  | ServerAdded (name : str)       (* "已添加服务器配置: .." *)
  | ServerRemoved (name : str).    (* "已删除服务器配置: .." *)

(** The truth value of an [Optional[str]]: [None] and the empty string are
    false. *)
Definition truthy (s : option str) : bool :=
  match s with
  | Some (_ :: _) => true
  | _ => false
  end.

(** ** The methods of [Config]

    A method that changes the object returns the object it leaves and the
    lines it logged. *)

Definition get_server_config (self : Config) (name : str) : option ServerConfig :=
  dict_get (servers self) name.

Definition add_server (self : Config) (name : str) (config : ServerConfig)
    : Config * list config_log :=
  (mkConfig (dict_set (servers self) name config) (ui self) (logging self)
            (default_server self),
   [ServerAdded name]).

Definition remove_server (self : Config) (name : str)
    : bool * Config * list config_log :=
  if dict_contains (servers self) name then
    let servers' := dict_del (servers self) name in
    let default' :=
      match default_server self with
      | Some d => if str_eqb d name then None else Some d
      | None => None
      end in
    (true, mkConfig servers' (ui self) (logging self) default',
     [ServerRemoved name])
  else (false, self, []).

Definition list_servers (self : Config) : list str := dict_keys (servers self).

Definition get_default_server_config (self : Config) : option ServerConfig :=
  if truthy (default_server self)
  then match default_server self with
       | Some d => get_server_config self d
       | None => None
       end
  else None.

End Config.

(* ================================================================== *)
(** * commands.py *)
(* ================================================================== *)

Module Commands.
Import Py RconProtocol.

(** ** The [str] methods the module calls *)

(** [c.isspace()] for one character. *)
Definition isspace (c : Z) : bool :=
  ((0x09 <=? c) && (c <=? 0x0D)) || ((0x1C <=? c) && (c <=? 0x20))
  || (c =? 0x85) || (c =? 0xA0) || (c =? 0x1680)
  || ((0x2000 <=? c) && (c <=? 0x200A))
  || (c =? 0x2028) || (c =? 0x2029) || (c =? 0x202F) || (c =? 0x205F)
  || (c =? 0x3000).

Fixpoint lstrip (s : str) : str :=
  match s with
  | [] => []
  | c :: t => if isspace c then lstrip t else s
  end.

(** [s.strip()] *)
Definition strip (s : str) : str := rev (lstrip (rev (lstrip s))).

(** [s.split()]: the maximal runs of characters that are not whitespace.
    [word] holds the characters of the run being read, last first. *)
Fixpoint split_from (word : str) (s : str) : list str :=
  match s with
  | [] => match word with [] => [] | _ => [rev word] end
  | c :: t =>
      if isspace c
      then match word with
           | [] => split_from [] t
           | _ => rev word :: split_from [] t
           end
      else split_from (c :: word) t
  end.

Definition split (s : str) : list str := split_from [] s.

(** [sep.join(parts)] *)
Fixpoint join (sep : str) (parts : list str) : str :=
  match parts with
  | [] => []
  | [p] => p
  | p :: rest => p ++ sep ++ join sep rest
  end.

Definition nonempty {A} (l : list A) : bool :=
  match l with [] => false | _ => true end.

Module Literals.
Import String.
Definition ping_name : string := "ping"%string.
Definition list_name : string := "list"%string.
Definition status_name : string := "status"%string.
Definition help_name : string := "help"%string.
Definition h_alias : string := "h"%string.
Definition question_mark_alias : string := "?"%string.
Definition space : string := " "%string.
Definition daytime_query : string := "time query daytime"%string.
End Literals.

(** ** Results *)

(** The strings the module builds, without the text around the values
    formatted into them. *)
Inductive status_line :=
  | ServerLine (host : str) (port : Z)   (* "服务器: host:port" *)
  | DescriptionLine (d : str)            (* "描述: .." *)
  | ConnectionFine (latency : float)     (* "连接状态: 正常 (延迟: ..ms)" *)
  | ConnectionBroken                     (* "连接状态: 异常" *)
  | GameTime (response : str)            (* "游戏时间: .." *)
  | Players (response : str).            (* "玩家信息: .." *)

Inductive output_text :=
  | Text (s : str)
  | PingReport (latency : float)         (* "服务器连接正常，延迟: ..ms" *)
  | StatusReport (lines : list status_line)   (* "\n".join(output_lines) *)
  | HelpText.

(** What can be raised inside the module: the exceptions of the client and
    the [IndexError] of an index out of range. *)
Inductive cexn :=
  | Rcon (e : exn)
  | IndexError.

Inductive error_text :=
  | StrOf (e : cexn)                     (* str(e) *)
  | PingTestFailed (e : cexn)            (* "服务器连接测试失败: .." *)
  | PlayerListFailed (e : cexn)          (* "获取玩家列表失败: .." *)
  | StatusFailed (e : cexn)              (* "获取服务器状态失败: .." *)
  | EmptyCommand                         (* "命令为空" *)
  | InvalidArguments (args : list str)   (* "命令参数无效: .." *)
  | ExecutionError (e : cexn).           (* "命令执行错误: .." *)

Record CommandResult := mkCommandResult {
  success : bool;
  output : output_text;
  execution_time : float;
  error : option error_text
}.

(** ** The commands

    The classes of the module that derive from [BaseCommand], with the
    [name] and the [aliases] their constructors set.  The [description],
    a text no method below reads, is left out. *)

Inductive BaseCommand :=
  | PingCommand
  | ListCommand
  | StatusCommand
  | HelpCommand
  | RawCommand (command : str).

Definition name (c : BaseCommand) : str :=
  match c with
  | PingCommand => literal Literals.ping_name
  | ListCommand => literal Literals.list_name
  | StatusCommand => literal Literals.status_name
  | HelpCommand => literal Literals.help_name
  | RawCommand command => command
  end.

Definition aliases (c : BaseCommand) : list str :=
  match c with
  | HelpCommand => [literal Literals.h_alias; literal Literals.question_mark_alias]
  | _ => []
  end.

Definition validate_args (c : BaseCommand) (args : list str) : bool := true.

(** ** The monad: the client and its network, and the lines the module
    logs *)

Inductive journal_msg :=
  | RunningRaw (full_command : str)           (* "执行原始命令: .." *)
  | RawFailed (e : cexn)                      (* "命令执行失败: .." *)
  | Registered (name : str)                   (* "已注册命令: .." *)
  | RegisteredBuiltins (count : Z)            (* "已注册 .. 个内置命令" *)
  | Unregistered (name : str)                 (* "已注销命令: .." *)
  | Running (name : str) (args : list str)    (* "执行命令: .., 参数: .." *)
  | Finished (success : bool)                 (* "命令执行完成，成功: .." *)
  | RunFailed (e : cexn).                     (* "命令执行过程中发生错误: .." *)

Record session := mkSession {
  rcon : RconClient.world;
  journal : list (RconClient.log_level * journal_msg)
}.

Inductive outcome (A : Type) : Type :=
  | Returns (a : A)
  | Raises (e : cexn).
Arguments Returns {A} a.
Arguments Raises {A} e.

Definition C (A : Type) : Type := session -> outcome A * session.

Definition creturn {A} (a : A) : C A := fun s => (Returns a, s).

Definition craise {A} (e : cexn) : C A := fun s => (Raises e, s).

Definition cbind {A B} (m : C A) (k : A -> C B) : C B :=
  fun s => match m s with
           | (Returns a, s') => k a s'
           | (Raises e, s') => (Raises e, s')
           end.

(** [try: m  except Exception as e: h e], and the bare [except:]. *)
Definition ctry {A} (m : C A) (h : cexn -> C A) : C A :=
  fun s => match m s with
           | (Returns a, s') => (Returns a, s')
           | (Raises e, s') => h e s'
           end.

Definition clog (level : RconClient.log_level) (msg : journal_msg) : C unit :=
  fun s => (Returns tt, mkSession (rcon s) (journal s ++ [(level, msg)])).

(** A method of the client, awaited. *)
Definition client_call {A} (m : RconClient.M A) : C A :=
  fun s => match m (rcon s) with
           | (Ok a, w) => (Returns a, mkSession w (journal s))
           | (Raise e, w) => (Raises (Rcon e), mkSession w (journal s))
           end.

(** [time.time()] *)
Definition time_time : C float := client_call RconClient.get_time.

Declare Scope commands_scope.
Delimit Scope commands_scope with commands.
Notation "x <- m ;; k" := (cbind m (fun x => k))
  (at level 61, m at next level, right associativity) : commands_scope.
Notation "m ;; k" := (cbind m (fun _ => k))
  (at level 61, right associativity) : commands_scope.
Local Open Scope commands_scope.

(** ** [execute] of each command *)

Definition RawCommand_execute (command : str) (args : list str)
    (config : option Config.ServerConfig) : C CommandResult :=
  start_time <- time_time ;;
  ctry
    (let full_command :=
       if nonempty args
       then command ++ literal Literals.space ++ join (literal Literals.space) args
       else command in
     clog RconClient.DEBUG (RunningRaw full_command) ;;
     output <- client_call (RconClient.execute_command full_command) ;;
     end_time <- time_time ;;
     creturn (mkCommandResult true (Text output) (end_time - start_time) None))
    (fun e =>
       end_time <- time_time ;;
       clog RconClient.ERROR (RawFailed e) ;;
       creturn (mkCommandResult false (Text []) (end_time - start_time)
                                (Some (StrOf e)))).

Definition PingCommand_execute (args : list str)
    (config : option Config.ServerConfig) : C CommandResult :=
  start_time <- time_time ;;
  ctry
    (latency <- client_call RconClient.ping ;;
     end_time <- time_time ;;
     creturn (mkCommandResult true (PingReport latency) (end_time - start_time) None))
    (fun e =>
       end_time <- time_time ;;
       creturn (mkCommandResult false (Text []) (end_time - start_time)
                                (Some (PingTestFailed e)))).

Definition ListCommand_execute (args : list str)
    (config : option Config.ServerConfig) : C CommandResult :=
  start_time <- time_time ;;
  ctry
    (output <- client_call (RconClient.execute_command (literal Literals.list_name)) ;;
     end_time <- time_time ;;
     creturn (mkCommandResult true (Text output) (end_time - start_time) None))
    (fun e =>
       end_time <- time_time ;;
       creturn (mkCommandResult false (Text []) (end_time - start_time)
                                (Some (PlayerListFailed e)))).

Definition StatusCommand_execute (args : list str)
    (config : option Config.ServerConfig) : C CommandResult :=
  start_time <- time_time ;;
  let output_lines := [] in
  ctry
    (let output_lines :=
       match config with
       | Some config =>
           let output_lines :=
             output_lines ++ [ServerLine (Config.host config) (Config.port config)] in
           if Config.truthy (Config.description config)
           then output_lines
                ++ [DescriptionLine (match Config.description config with
                                     | Some d => d
                                     | None => []
                                     end)]
           else output_lines
       | None => output_lines
       end in
     output_lines <-
       ctry (latency <- client_call RconClient.ping ;;
             creturn (output_lines ++ [ConnectionFine latency]))
            (fun _ => creturn (output_lines ++ [ConnectionBroken])) ;;
     output_lines <-
       ctry (time_response <-
               client_call (RconClient.execute_command
                              (literal Literals.daytime_query)) ;;
             creturn (output_lines ++ [GameTime (strip time_response)]))
            (fun _ => creturn output_lines) ;;
     output_lines <-
       ctry (list_response <-
               client_call (RconClient.execute_command (literal Literals.list_name)) ;;
             creturn (output_lines ++ [Players (strip list_response)]))
            (fun _ => creturn output_lines) ;;
     end_time <- time_time ;;
     creturn (mkCommandResult true (StatusReport output_lines)
                              (end_time - start_time) None))
    (fun e =>
       end_time <- time_time ;;
       creturn (mkCommandResult false (Text []) (end_time - start_time)
                                (Some (StatusFailed e)))).

Definition HelpCommand_execute (args : list str)
    (config : option Config.ServerConfig) : C CommandResult :=
  start_time <- time_time ;;
  ctry
    (end_time <- time_time ;;
     creturn (mkCommandResult true HelpText (end_time - start_time) None))
    (fun e =>
       end_time <- time_time ;;
       creturn (mkCommandResult false (Text []) (end_time - start_time)
                                (Some (StrOf e)))).

(** [command.execute(rcon_client, args, config)] *)
Definition execute (c : BaseCommand) (args : list str)
    (config : option Config.ServerConfig) : C CommandResult :=
  match c with
  | PingCommand => PingCommand_execute args config
  | ListCommand => ListCommand_execute args config
  | StatusCommand => StatusCommand_execute args config
  | HelpCommand => HelpCommand_execute args config
  | RawCommand command => RawCommand_execute command args config
  end.

(** ** [CommandProcessor] *)

Module CommandProcessor.

Record t := mk { commands : Config.dict BaseCommand }.

Definition journal_lines := list (RconClient.log_level * journal_msg).

Definition register_command (self : t) (command : BaseCommand)
    : t * journal_lines :=
  (mk (Config.dict_set (commands self) (name command) command),
   [(RconClient.DEBUG, Registered (name command))]).

(** The [for cmd in builtin_commands] loop of
    [_register_builtin_commands], with its inner loop over the aliases. *)
Fixpoint register_all (self : t) (cmds : list BaseCommand) : t * journal_lines :=
  match cmds with
  | [] => (self, [])
  | cmd :: rest =>
      let (self1, lines1) := register_command self cmd in
      let self2 :=
        fold_left (fun s alias => mk (Config.dict_set (commands s) alias cmd))
                  (aliases cmd) self1 in
      let (self3, lines3) := register_all self2 rest in
      (self3, lines1 ++ lines3)
  end.

Definition _register_builtin_commands (self : t) : t * journal_lines :=
  let builtin_commands := [PingCommand; ListCommand; StatusCommand; HelpCommand] in
  let (self', lines) := register_all self builtin_commands in
  (self', lines ++ [(RconClient.DEBUG, RegisteredBuiltins (len builtin_commands))]).

Definition __init__ : t * journal_lines := _register_builtin_commands (mk []).

Definition unregister_command (self : t) (name : str) : bool * t * journal_lines :=
  if Config.dict_contains (commands self) name
  then (true, mk (Config.dict_del (commands self) name),
        [(RconClient.DEBUG, Unregistered name)])
  else (false, self, []).

Definition get_command (self : t) (name : str) : option BaseCommand :=
  Config.dict_get (commands self) name.

(** [parse_command]; [None] stands for the [IndexError] of [parts[0]] on an
    empty list. *)
Definition parse_command (self : t) (input_line : str)
    : option (option BaseCommand * list str) :=
  if negb (nonempty input_line) || negb (nonempty (strip input_line))
  then Some (None, [])
  else
    let parts := split (strip input_line) in
    match parts with
    | [] => None
    | command_name :: _ =>
        let args := if 1 <? len parts then skipn 1 parts else [] in
        match get_command self command_name with
        | Some command => Some (Some command, args)
        | None => Some (Some (RawCommand command_name), args)
        end
    end.

Definition execute_command (self : t) (input_line : str)
    (config : option Config.ServerConfig) : C CommandResult :=
  parsed <- (match parse_command self input_line with
             | Some p => creturn p
             | None => craise IndexError
             end) ;;
  let (command, args) := parsed : option BaseCommand * list str in
  match command with
  | None =>
      creturn (mkCommandResult false (Text []) 0%float (Some EmptyCommand))
  | Some command =>
      clog RconClient.DEBUG (Running (name command) args) ;;
      ctry
        (if negb (validate_args command args)
         then creturn (mkCommandResult false (Text []) 0%float
                                       (Some (InvalidArguments args)))
         else
           result <- execute command args config ;;
           clog RconClient.DEBUG (Finished (success result)) ;;
           creturn result)
        (fun e =>
           clog RconClient.ERROR (RunFailed e) ;;
           creturn (mkCommandResult false (Text []) 0%float (Some (ExecutionError e))))
  end.

End CommandProcessor.

End Commands.

(* ================================================================== *)
(** * Vocabulary for [config.py] and [commands.py] *)
(* ================================================================== *)

Module ConfigSpec.
Import Py Config.

(** The default server, when one is set, is a configured server: what the
    validator of [default_server] checks when a [Config] is built. *)
Definition default_is_configured (c : Config) : Prop :=
  match default_server c with
  | Some d => dict_contains (servers c) d = true
  | None => True
  end.

(** A dictionary holds each key once. *)
Definition distinct_keys {V} (d : dict V) : Prop := NoDup (dict_keys d).

(** [l] without its first occurrence of [k]. *)
Fixpoint without (k : str) (l : list str) : list str :=
  match l with
  | [] => []
  | x :: t => if str_eqb x k then t else x :: without k t
  end.

Definition local_server : ServerConfig :=
  mkServerConfig [108] 25575 [112; 119] 10 3 1 None.

Definition one_server : Config :=
  mkConfig [([108], local_server)]
           (mkUIConfig [100] true 1000 true true true)
           (mkLoggingConfig [73] None [49] 5 true)
           (Some [108]).

End ConfigSpec.

Module CommandsSpec.
Import Py Commands.

(** A word of a line: not empty, and without whitespace. *)
Definition is_token (w : str) : Prop :=
  w <> [] /\ Forall (fun c => isspace c = false) w.

(** A line of whitespace only, the empty line included. *)
Definition blank (s : str) : Prop := Forall (fun c => isspace c = true) s.

(** The names under which [CommandProcessor] registers its own commands. *)
Definition builtin_names : list str :=
  map literal [Literals.ping_name; Literals.list_name; Literals.status_name;
               Literals.help_name; Literals.h_alias; Literals.question_mark_alias].

(** A processor as its constructor leaves it. *)
Definition processor : CommandProcessor.t := fst CommandProcessor.__init__.

(** The time the clock of the session shows. *)
Definition clock (s : session) : float :=
  RconClient.time_time (RconClient.env (rcon s)) (RconClient.now (rcon s)).

(** A session over a client that was never connected and a peer that
    refuses connections. *)
Definition idle_session : session :=
  mkSession (Spec.start Spec.refusing_peer) [].

End CommandsSpec.

(* ================================================================== *)
(** * Facts about the platform functions *)
(* ================================================================== *)

Module PyFacts.
Import Py.

Lemma len_app {A} (l1 l2 : list A) : len (l1 ++ l2) = len l1 + len l2.
Proof. unfold len. rewrite length_app. lia. Qed.

Lemma len_nonneg {A} (l : list A) : 0 <= len l.
Proof. unfold len. lia. Qed.

Lemma struct_pack_i_length n b : struct_pack_i n = Some b -> length b = 4%nat.
Proof.
  unfold struct_pack_i. destruct (in_int32 n); intros H; inversion H. reflexivity.
Qed.

Lemma in_int32_spec n : in_int32 n = true <-> INT32_MIN <= n <= INT32_MAX.
Proof. unfold in_int32. rewrite andb_true_iff, !Z.leb_le. tauto. Qed.

(** [struct.unpack] inverts [struct.pack]. *)
Lemma struct_unpack_pack n b :
  struct_pack_i n = Some b -> struct_unpack_i b = Some n.
Proof.
  unfold struct_pack_i.
  destruct (in_int32 n) eqn:Hr; intros H; inversion H; subst; clear H.
  apply in_int32_spec in Hr. unfold INT32_MIN, INT32_MAX in Hr.
  unfold struct_unpack_i. f_equal.
  destruct (Z.ltb_spec
    (n mod 4294967296 mod 256 + 256 * ((n mod 4294967296 / 256) mod 256)
     + 65536 * ((n mod 4294967296 / 65536) mod 256)
     + 16777216 * ((n mod 4294967296 / 16777216) mod 256)) 2147483648);
    Z.div_mod_to_equations; lia.
Qed.

(** ** UTF-8: decoding inverts encoding *)

(** Comparisons of the goal settled by linear arithmetic from the
    hypotheses. *)
Ltac cmp :=
  repeat (match goal with
  | |- context [?a <? ?b] =>
      first [ rewrite (proj2 (Z.ltb_lt a b)) by lia
            | rewrite (proj2 (Z.ltb_ge a b)) by lia ]
  | |- context [?a <=? ?b] =>
      first [ rewrite (proj2 (Z.leb_le a b)) by lia
            | rewrite (proj2 (Z.leb_gt a b)) by lia ]
  | |- context [?a =? ?b] =>
      first [ rewrite (proj2 (Z.eqb_eq a b)) by lia
            | rewrite (proj2 (Z.eqb_neq a b)) by lia ]
  end; cbn [negb orb andb]).

Lemma decode_ascii b t :
  b < 0x80 -> utf8_decode_replace (b :: t) = b :: utf8_decode_replace t.
Proof. intros. cbn [utf8_decode_replace]. cmp. reflexivity. Qed.

Lemma decode_two b0 b1 t :
  0xC2 <= b0 < 0xE0 -> 0x80 <= b1 < 0xC0 ->
  utf8_decode_replace (b0 :: b1 :: t)
  = ((b0 - 0xC0) * 64 + (b1 - 0x80)) :: utf8_decode_replace t.
Proof.
  intros. remember (b1 :: t) as t0. cbn [utf8_decode_replace]. cmp.
  subst t0. unfold is_cont. cmp. reflexivity.
Qed.

Lemma decode_three b0 b1 b2 t :
  0xE0 <= b0 < 0xF0 -> 0x80 <= b1 < 0xC0 -> 0x80 <= b2 < 0xC0 ->
  (b0 = 0xE0 -> 0xA0 <= b1) -> (b0 = 0xED -> b1 < 0xA0) ->
  utf8_decode_replace (b0 :: b1 :: b2 :: t)
  = ((b0 - 0xE0) * 4096 + (b1 - 0x80) * 64 + (b2 - 0x80))
      :: utf8_decode_replace t.
Proof.
  intros. remember (b2 :: t) as t1. remember (b1 :: t1) as t0.
  destruct (Z.eq_dec b0 0xE0); destruct (Z.eq_dec b0 0xED);
  try (exfalso; lia);
  cbn [utf8_decode_replace]; cmp; subst t0; unfold is_cont; cmp;
  subst t1; cmp; reflexivity.
Qed.

Lemma decode_four b0 b1 b2 b3 t :
  0xF0 <= b0 < 0xF5 -> 0x80 <= b1 < 0xC0 -> 0x80 <= b2 < 0xC0 ->
  0x80 <= b3 < 0xC0 ->
  (b0 = 0xF0 -> 0x90 <= b1) -> (b0 = 0xF4 -> b1 < 0x90) ->
  utf8_decode_replace (b0 :: b1 :: b2 :: b3 :: t)
  = ((b0 - 0xF0) * 262144 + (b1 - 0x80) * 4096 + (b2 - 0x80) * 64 + (b3 - 0x80))
      :: utf8_decode_replace t.
Proof.
  intros. remember (b3 :: t) as t2. remember (b2 :: t2) as t1.
  remember (b1 :: t1) as t0.
  destruct (Z.eq_dec b0 0xF0); destruct (Z.eq_dec b0 0xF4);
  try (exfalso; lia);
  cbn [utf8_decode_replace]; cmp; subst t0; unfold is_cont; cmp;
  subst t1; cmp; subst t2; cmp; reflexivity.
Qed.

Lemma is_scalar_spec c :
  is_scalar c = true <-> 0 <= c < 0x110000 /\ ~ (0xD800 <= c < 0xE000).
Proof.
  unfold is_scalar, is_surrogate.
  rewrite !andb_true_iff, negb_true_iff, andb_false_iff, !Z.leb_le, Z.ltb_lt,
    Z.leb_gt, Z.ltb_ge. lia.
Qed.

(** [Some x = Some y] without normalising [x]. *)
Ltac some_inj :=
  let E := fresh in
  intros E;
  match type of E with
  | Some ?x = Some ?y => assert (y = x) by congruence; subst y; clear E
  end.

Lemma utf8_decode_encode_char c cb t :
  utf8_encode_char c = Some cb ->
  utf8_decode_replace (cb ++ t) = c :: utf8_decode_replace t.
Proof.
  unfold utf8_encode_char.
  destruct (is_scalar c) eqn:Hs; cbn [negb]; [|discriminate].
  apply is_scalar_spec in Hs.
  destruct (Z.ltb_spec c 0x80).
  { some_inj. cbn [app]. now apply decode_ascii. }
  destruct (Z.ltb_spec c 0x800).
  { some_inj. cbn [app].
    rewrite decode_two by (Z.div_mod_to_equations; lia).
    f_equal. Z.div_mod_to_equations; lia. }
  destruct (Z.ltb_spec c 0x10000).
  { some_inj. cbn [app].
    rewrite decode_three by (Z.div_mod_to_equations; lia).
    f_equal. Z.div_mod_to_equations; lia. }
  some_inj. cbn [app].
  rewrite decode_four by (Z.div_mod_to_equations; lia).
  f_equal. Z.div_mod_to_equations; lia.
Qed.

Theorem utf8_decode_encode s bs :
  utf8_encode s = Some bs -> utf8_decode_replace bs = s.
Proof.
  revert bs. induction s as [|c s IH]; intros bs; cbn [utf8_encode].
  - intros H; inversion H. reflexivity.
  - destruct (utf8_encode_char c) as [cb|] eqn:Hc; [|discriminate].
    destruct (utf8_encode s) as [bs'|]; [|discriminate].
    intros H; inversion H; subst; clear H.
    rewrite (utf8_decode_encode_char _ _ _ Hc). f_equal. now apply IH.
Qed.

(** ** UTF-8: what decodes without a replacement was well formed *)

Lemma is_cont_spec b : is_cont b = true <-> 0x80 <= b < 0xC0.
Proof. unfold is_cont. rewrite andb_true_iff, Z.leb_le, Z.ltb_lt. tauto. Qed.

Lemma is_scalar_true c :
  0 <= c < 0x110000 -> ~ (0xD800 <= c < 0xE000) -> is_scalar c = true.
Proof. intros. apply is_scalar_spec. auto. Qed.

Lemma encode_char_ascii b : 0 <= b < 0x80 -> utf8_encode_char b = Some [b].
Proof.
  intros. unfold utf8_encode_char. rewrite is_scalar_true by lia.
  cbn [negb]. cmp. reflexivity.
Qed.

Lemma encode_char_two b0 b1 :
  0xC2 <= b0 < 0xE0 -> 0x80 <= b1 < 0xC0 ->
  utf8_encode_char ((b0 - 0xC0) * 64 + (b1 - 0x80)) = Some [b0; b1].
Proof.
  intros. unfold utf8_encode_char. rewrite is_scalar_true by lia.
  cbn [negb]. cmp. do 2 f_equal; [|f_equal]; Z.div_mod_to_equations; lia.
Qed.

Lemma encode_char_three b0 b1 b2 :
  0xE0 <= b0 < 0xF0 -> 0x80 <= b1 < 0xC0 -> 0x80 <= b2 < 0xC0 ->
  (b0 = 0xE0 -> 0xA0 <= b1) -> (b0 = 0xED -> b1 < 0xA0) ->
  utf8_encode_char ((b0 - 0xE0) * 4096 + (b1 - 0x80) * 64 + (b2 - 0x80))
  = Some [b0; b1; b2].
Proof.
  intros. unfold utf8_encode_char.
  destruct (Z.eq_dec b0 0xE0); destruct (Z.eq_dec b0 0xED); try (exfalso; lia);
    (rewrite is_scalar_true by lia); cbn [negb]; cmp;
    (do 2 f_equal; [|f_equal; [|f_equal]]); Z.div_mod_to_equations; lia.
Qed.

Lemma encode_char_four b0 b1 b2 b3 :
  0xF0 <= b0 < 0xF5 -> 0x80 <= b1 < 0xC0 -> 0x80 <= b2 < 0xC0 ->
  0x80 <= b3 < 0xC0 ->
  (b0 = 0xF0 -> 0x90 <= b1) -> (b0 = 0xF4 -> b1 < 0x90) ->
  utf8_encode_char ((b0 - 0xF0) * 262144 + (b1 - 0x80) * 4096
                    + (b2 - 0x80) * 64 + (b3 - 0x80))
  = Some [b0; b1; b2; b3].
Proof.
  intros. unfold utf8_encode_char.
  destruct (Z.eq_dec b0 0xF0); destruct (Z.eq_dec b0 0xF4); try (exfalso; lia);
    (rewrite is_scalar_true by lia); cbn [negb]; cmp;
    (do 2 f_equal; [|f_equal; [|f_equal; [|f_equal]]]);
    Z.div_mod_to_equations; lia.
Qed.

Lemma utf8_encode_cons c cb s bs :
  utf8_encode_char c = Some cb -> utf8_encode s = Some bs ->
  utf8_encode (c :: s) = Some (cb ++ bs).
Proof. intros Hc Hs. cbn [utf8_encode]. now rewrite Hc, Hs. Qed.

Lemma lead_guard_false b0 b1 lo hi bound :
  negb (is_cont b1) || ((b0 =? lo) && (b1 <? bound))
    || ((b0 =? hi) && (bound <=? b1)) = false ->
  0x80 <= b1 < 0xC0 /\ (b0 = lo -> bound <= b1) /\ (b0 = hi -> b1 < bound).
Proof.
  rewrite !orb_false_iff, negb_false_iff, is_cont_spec.
  intros [[Hc Hlo] Hhi]. split; [assumption|]. split; intros ->.
  - rewrite Z.eqb_refl in Hlo. cbn [andb] in Hlo. now apply Z.ltb_ge.
  - rewrite Z.eqb_refl in Hhi. cbn [andb] in Hhi. now apply Z.leb_gt.
Qed.

(** Either the bytes were the UTF-8 encoding of the decoded text, or the
    decoded text holds U+FFFD. *)
Lemma utf8_decode_valid_or_replaced bs :
  is_bytes bs ->
  utf8_encode (utf8_decode_replace bs) = Some bs
  \/ In REPLACEMENT (utf8_decode_replace bs).
Proof.
  remember (length bs) as n eqn:Hn. assert (Hle : (length bs <= n)%nat) by lia.
  clear Hn. revert bs Hle.
  induction n as [|n IH]; intros [|b0 t0] Hle Hb; cbn [length] in Hle;
    try (left; reflexivity); try lia.
  apply Forall_cons_iff in Hb. destruct Hb as [Hb0 Ht0]. unfold is_byte in Hb0.
  assert (IH0 := IH t0 ltac:(lia) Ht0).
  cbn [utf8_decode_replace].
  destruct (Z.ltb_spec b0 0x80).
  { destruct IH0 as [E|R]; [left|right; now right].
    now apply (utf8_encode_cons b0 [b0]); [apply encode_char_ascii|]. }
  destruct (Z.ltb_spec b0 0xC2); [right; now left|].
  destruct t0 as [|b1 t1];
    [repeat (match goal with |- context [Z.ltb ?a ?b] => destruct (Z.ltb a b) end);
     right; now left|].
  apply Forall_cons_iff in Ht0. destruct Ht0 as [Hb1 Ht1]. cbn [length] in Hle.
  assert (IH1 := IH t1 ltac:(lia) Ht1).
  destruct (Z.ltb_spec b0 0xE0).
  { destruct (is_cont b1) eqn:C1; [|right; now left].
    apply is_cont_spec in C1.
    destruct IH1 as [E|R]; [left|right; now right].
    now apply (utf8_encode_cons _ [b0; b1]); [apply encode_char_two|]. }
  destruct (Z.ltb_spec b0 0xF0).
  { match goal with |- context [if ?g then _ else _] => destruct g eqn:G end;
      [right; now left|].
    apply lead_guard_false in G. destruct G as (C1 & Glo & Ghi).
    destruct t1 as [|b2 t2]; [right; now left|].
    apply Forall_cons_iff in Ht1. destruct Ht1 as [Hb2 Ht2]. cbn [length] in Hle.
    destruct (is_cont b2) eqn:C2; [|right; now left].
    apply is_cont_spec in C2.
    destruct (IH t2 ltac:(lia) Ht2) as [E|R]; [left|right; now right].
    now apply (utf8_encode_cons _ [b0; b1; b2]); [apply encode_char_three|]. }
  destruct (Z.ltb_spec b0 0xF5); [|right; now left].
  match goal with |- context [if ?g then _ else _] => destruct g eqn:G end;
    [right; now left|].
  apply lead_guard_false in G. destruct G as (C1 & Glo & Ghi).
  destruct t1 as [|b2 t2]; [right; now left|].
  apply Forall_cons_iff in Ht1. destruct Ht1 as [Hb2 Ht2]. cbn [length] in Hle.
  destruct (is_cont b2) eqn:C2; cbn [negb]; [|right; now left].
  apply is_cont_spec in C2.
  destruct t2 as [|b3 t3]; [right; now left|].
  apply Forall_cons_iff in Ht2. destruct Ht2 as [Hb3 Ht3]. cbn [length] in Hle.
  destruct (is_cont b3) eqn:C3; [|right; now left].
  apply is_cont_spec in C3.
  destruct (IH t3 ltac:(lia) Ht3) as [E|R]; [left|right; now right].
  now apply (utf8_encode_cons _ [b0; b1; b2; b3]); [apply encode_char_four|].
Qed.

(** ** Slices and [find] *)

Lemma skipn_length_app {A} (pre x : list A) : skipn (length pre) (pre ++ x) = x.
Proof. induction pre; cbn; auto. Qed.

Lemma firstn_length_app {A} (a x : list A) : firstn (length a) (a ++ x) = a.
Proof. induction a; cbn; congruence. Qed.

Lemma slice_app {A} (pre a post : list A) lo hi :
  lo = len pre -> hi = lo + len a -> slice (pre ++ a ++ post) lo hi = a.
Proof.
  unfold slice, len. intros -> ->.
  replace (Z.of_nat (length pre) + Z.of_nat (length a) - Z.of_nat (length pre))
    with (Z.of_nat (length a)) by lia.
  rewrite !Nat2Z.id, skipn_length_app. apply firstn_length_app.
Qed.

Lemma find_skip pre x sub :
  find (pre ++ x) sub (len pre) = find_from x sub (len pre).
Proof. unfold find, len. now rewrite Nat2Z.id, skipn_length_app. Qed.

End PyFacts.

(* ================================================================== *)
(** * The codec *)
(* ================================================================== *)

Module CodecFacts.
Import Py RconProtocol Spec PyFacts.

(** ** Where [find] stops *)

Lemma startswith_zero l : startswith l [0] = true <-> nth_error l 0 = Some 0.
Proof.
  destruct l as [|y l]; cbn [startswith nth_error]; [split; discriminate|].
  rewrite andb_true_r, Z.eqb_eq. split; [intros <-; reflexivity|congruence].
Qed.

Lemma startswith_zero_zero l :
  startswith l [0; 0] = true <-> nth_error l 0 = Some 0 /\ nth_error l 1 = Some 0.
Proof.
  destruct l as [|y [|z l]]; cbn [startswith nth_error].
  - split; [discriminate|intros [? _]; discriminate].
  - rewrite andb_false_r. split; [discriminate|intros [_ ?]; discriminate].
  - rewrite andb_true_r, andb_true_iff, !Z.eqb_eq. split.
    + intros [<- <-]; auto.
    + intros [? ?]; split; congruence.
Qed.

Lemma find_from_spec l sub pos :
  (find_from l sub pos = -1
   /\ forall k, (k < length l)%nat -> startswith (skipn k l) sub = false)
  \/ (exists k, find_from l sub pos = pos + Z.of_nat k
                /\ (k < length l)%nat
                /\ startswith (skipn k l) sub = true
                /\ forall j, (j < k)%nat -> startswith (skipn j l) sub = false).
Proof.
  revert pos. induction l as [|x l IH]; intros pos; cbn [find_from].
  - left. split; [reflexivity|]. cbn. intros; lia.
  - destruct (startswith (x :: l) sub) eqn:Hs.
    + right. exists 0%nat. cbn [skipn length]. repeat split; try lia; auto.
    + destruct (IH (pos + 1)) as [[-> Hn]|(k & -> & Hk & Hf & Hb)].
      * left. split; [reflexivity|]. intros [|k] Hk; cbn [skipn]; auto.
        apply Hn. cbn in Hk. lia.
      * right. exists (S k). cbn [skipn length]. repeat split; try lia; auto.
        intros [|j] Hj; cbn [skipn]; auto. apply Hb. lia.
Qed.

Lemma byte_at_skipn data n k :
  nth_error (skipn n data) k = byte_at data (Z.of_nat n + Z.of_nat k).
Proof.
  unfold byte_at. rewrite nth_error_skipn.
  destruct (Z.ltb_spec (Z.of_nat n + Z.of_nat k) 0); [lia|].
  f_equal. lia.
Qed.

Lemma byte_at_of_nat data (i : nat) : byte_at data (Z.of_nat i) = nth_error data i.
Proof.
  unfold byte_at. destruct (Z.ltb_spec (Z.of_nat i) 0); [lia|].
  now rewrite Nat2Z.id.
Qed.

Lemma zero_at_skipn data n k :
  startswith (skipn k (skipn n data)) [0] = true
  <-> zero_at data (Z.of_nat n + Z.of_nat k).
Proof.
  rewrite startswith_zero, !nth_error_skipn. unfold zero_at.
  rewrite <- Nat2Z.inj_add, byte_at_of_nat.
  now replace (n + (k + 0))%nat with (n + k)%nat by lia.
Qed.

Lemma double_zero_at_skipn data n k :
  startswith (skipn k (skipn n data)) [0; 0] = true
  <-> double_zero_at data (Z.of_nat n + Z.of_nat k).
Proof.
  rewrite startswith_zero_zero, !nth_error_skipn. unfold double_zero_at, zero_at.
  replace (Z.of_nat n + Z.of_nat k + 1) with (Z.of_nat (n + k + 1)) by lia.
  rewrite <- Nat2Z.inj_add, !byte_at_of_nat.
  replace (n + (k + 0))%nat with (n + k)%nat by lia.
  now replace (n + (k + 1))%nat with (n + k + 1)%nat by lia.
Qed.

Lemma zero_at_in_range data j : zero_at data j -> 0 <= j < len data.
Proof.
  unfold zero_at, byte_at, len. destruct (Z.ltb_spec j 0); [discriminate|].
  intros H0. assert (Hn : nth_error data (Z.to_nat j) <> None) by congruence.
  apply nth_error_Some in Hn. lia.
Qed.

Lemma none_from_zero data n :
  (forall k, (k < length (skipn n data))%nat ->
             startswith (skipn k (skipn n data)) [0] = false) ->
  none_from (zero_at data) (Z.of_nat n).
Proof.
  intros Hn j Hj Hz.
  pose proof (zero_at_in_range _ _ Hz) as Hr. unfold len in Hr.
  assert (Hk : (Z.to_nat j - n < length (skipn n data))%nat)
    by (rewrite length_skipn; lia).
  specialize (Hn _ Hk).
  replace j with (Z.of_nat n + Z.of_nat (Z.to_nat j - n)) in Hz by lia.
  apply zero_at_skipn in Hz. congruence.
Qed.

Lemma none_from_double_zero data n :
  (forall k, (k < length (skipn n data))%nat ->
             startswith (skipn k (skipn n data)) [0; 0] = false) ->
  none_from (double_zero_at data) (Z.of_nat n).
Proof.
  intros Hn j Hj Hz.
  pose proof (zero_at_in_range _ _ (proj1 Hz)) as Hr. unfold len in Hr.
  assert (Hk : (Z.to_nat j - n < length (skipn n data))%nat)
    by (rewrite length_skipn; lia).
  specialize (Hn _ Hk).
  replace j with (Z.of_nat n + Z.of_nat (Z.to_nat j - n)) in Hz by lia.
  apply double_zero_at_skipn in Hz. congruence.
Qed.

Lemma first_from_zero data n k :
  startswith (skipn k (skipn n data)) [0] = true ->
  (forall j, (j < k)%nat -> startswith (skipn j (skipn n data)) [0] = false) ->
  first_from (zero_at data) (Z.of_nat n) (Z.of_nat n + Z.of_nat k).
Proof.
  intros Hk Hb. split; [lia|]. split; [now apply zero_at_skipn|].
  intros j Hj Hz.
  replace j with (Z.of_nat n + Z.of_nat (Z.to_nat j - n)) in Hz by lia.
  apply zero_at_skipn in Hz. rewrite Hb in Hz by lia. discriminate.
Qed.

Lemma first_from_double_zero data n k :
  startswith (skipn k (skipn n data)) [0; 0] = true ->
  (forall j, (j < k)%nat -> startswith (skipn j (skipn n data)) [0; 0] = false) ->
  first_from (double_zero_at data) (Z.of_nat n) (Z.of_nat n + Z.of_nat k).
Proof.
  intros Hk Hb. split; [lia|]. split; [now apply double_zero_at_skipn|].
  intros j Hj Hz.
  replace j with (Z.of_nat n + Z.of_nat (Z.to_nat j - n)) in Hz by lia.
  apply double_zero_at_skipn in Hz. rewrite Hb in Hz by lia. discriminate.
Qed.

(** The end of the payload as [from_bytes] computes it is the one of
    [payload_end]. *)
Lemma computed_payload_end data :
  12 <= len data ->
  let d := find data [0; 0] 12 in
  let e := if d =? -1
           then let s := find data [0] 12 in if s =? -1 then len data else s
           else d in
  payload_end data e /\ 12 <= e <= len data.
Proof.
  intros Hlen. unfold find. change (Z.to_nat 12) with 12%nat.
  assert (Hl : length (skipn 12 data) = (length data - 12)%nat)
    by apply length_skipn.
  unfold len in *.
  destruct (find_from_spec (skipn 12 data) [0; 0] 12)
    as [[-> Hn2]|(k & -> & Hk & Hf & Hb)]; cbv zeta.
  - change (-1 =? -1) with true. cbv iota.
    destruct (find_from_spec (skipn 12 data) [0] 12)
      as [[-> Hn1]|(k & -> & Hk & Hf & Hb)].
    + change (-1 =? -1) with true. cbv iota. split; [|lia].
      apply end_at_end_of_data. now apply (none_from_zero data 12).
    + destruct (Z.eqb_spec (12 + Z.of_nat k) (-1)); [lia|]. split; [|lia].
      apply end_at_single_zero.
      * now apply (none_from_double_zero data 12).
      * now apply (first_from_zero data 12).
  - destruct (Z.eqb_spec (12 + Z.of_nat k) (-1)); [lia|]. split; [|lia].
    apply end_at_double_zero. now apply (first_from_double_zero data 12).
Qed.

(** ** [from_bytes] on a frame *)

Lemma len_cons {A} (x : A) l : len (x :: l) = 1 + len l.
Proof. unfold len. cbn [length]. lia. Qed.

Lemma slice_skip {A} (pre x : list A) n hi :
  len pre = n -> slice (pre ++ x) n hi = firstn (Z.to_nat (hi - n)) x.
Proof. unfold slice, len. intros <-. now rewrite Nat2Z.id, skipn_length_app. Qed.

Lemma find_skip_len pre x sub n :
  len pre = n -> find (pre ++ x) sub n = find_from x sub n.
Proof. intros <-. apply find_skip. Qed.

Lemma len4 (b : bytes) : length b = 4%nat -> len b = 4.
Proof. unfold len. intros ->. reflexivity. Qed.

Lemma from_bytes_frame b_len b_id b_type rest n id t :
  struct_pack_i n = Some b_len -> n = 8 + len rest ->
  struct_pack_i id = Some b_id ->
  struct_pack_i (int t) = Some b_type ->
  from_bytes (b_len ++ b_id ++ b_type ++ rest)
  = Ok (mkRconPacket id (Member t) (payload_after_header rest)).
Proof.
  intros Hl Hn Hi Ht.
  pose proof (len4 _ (struct_pack_i_length _ _ Hl)) as Ll.
  pose proof (len4 _ (struct_pack_i_length _ _ Hi)) as Li.
  pose proof (len4 _ (struct_pack_i_length _ _ Ht)) as Lt.
  apply struct_unpack_pack in Hl, Hi, Ht.
  assert (Hlen : len (b_len ++ b_id ++ b_type ++ rest) = 12 + len rest)
    by (rewrite !len_app; lia).
  pose proof (len_nonneg rest) as Hr.
  unfold from_bytes. rewrite Hlen.
  destruct (Z.ltb_spec (12 + len rest) 12); [lia|].
  change (b_len ++ b_id ++ b_type ++ rest)
    with ([] ++ b_len ++ b_id ++ b_type ++ rest) at 1.
  rewrite (slice_app [] b_len _ 0 4) by (cbn; lia).
  unfold unpack_or_parse_error at 1. rewrite Hl. cbn [rbind].
  destruct (Z.eqb_spec n (12 + len rest - 4)); [|lia]. cbn [negb].
  rewrite (slice_app b_len b_id _ 4 8) by lia.
  unfold unpack_or_parse_error at 1. rewrite Hi. cbn [rbind].
  replace (b_len ++ b_id ++ b_type ++ rest)
    with ((b_len ++ b_id) ++ b_type ++ rest) at 1 by now rewrite <- app_assoc.
  rewrite (slice_app (b_len ++ b_id) b_type _ 8 12) by (rewrite ?len_app; lia).
  unfold unpack_or_parse_error. rewrite Ht. cbn [rbind].
  assert (Hty : RconPacketType_of (int t) = Some t) by now destruct t.
  rewrite Hty.
  replace (b_len ++ b_id ++ b_type ++ rest)
    with ((b_len ++ b_id ++ b_type) ++ rest) by now rewrite <- !app_assoc.
  assert (L12 : len (b_len ++ b_id ++ b_type) = 12) by (rewrite !len_app; lia).
  rewrite !(find_skip_len _ _ _ _ L12), !(slice_skip _ _ _ _ L12).
  reflexivity.
Qed.

(** ** NUL bytes and NUL characters *)

Lemma embeds_terminator_cons c s :
  embeds_terminator (c :: s)
  = ((c =? 0) && starts_with_nul_or_empty s) || embeds_terminator s.
Proof. reflexivity. Qed.

(** U+0000 is the only character whose encoding holds a zero byte. *)
Lemma utf8_encode_char_zero c cb :
  utf8_encode_char c = Some cb ->
  (c = 0 /\ cb = [0]) \/ (c <> 0 /\ cb <> [] /\ ~ In 0 cb).
Proof.
  unfold utf8_encode_char.
  destruct (is_scalar c) eqn:Hs; cbn [negb]; [|discriminate].
  apply is_scalar_spec in Hs.
  destruct (Z.ltb_spec c 0x80).
  { some_inj. destruct (Z.eq_dec c 0) as [->|Hc]; [left; auto|right].
    repeat split; auto; [discriminate|]. intros [?|[]]. lia. }
  destruct (Z.ltb_spec c 0x800); [|destruct (Z.ltb_spec c 0x10000)];
    some_inj; right; (split; [lia|]); (split; [discriminate|]); cbn [In];
    intros Hin; repeat destruct Hin as [Hin|Hin]; try contradiction;
    revert Hin; Z.div_mod_to_equations; lia.
Qed.

Lemma embeds_terminator_skip cb bs :
  cb <> [] -> ~ In 0 cb ->
  embeds_terminator (cb ++ bs) = embeds_terminator bs.
Proof.
  induction cb as [|x cb IH]; [congruence|]. intros _ Hx.
  cbn [app]. rewrite embeds_terminator_cons.
  destruct (Z.eqb_spec x 0) as [->|_]; [exfalso; apply Hx; now left|].
  cbn [andb orb]. destruct cb as [|y cb]; [reflexivity|].
  apply IH; [discriminate|]. intros H. apply Hx. now right.
Qed.

Lemma utf8_encode_starts_with_nul s bs :
  utf8_encode s = Some bs ->
  starts_with_nul_or_empty bs = starts_with_nul_or_empty s.
Proof.
  destruct s as [|c s]; cbn [utf8_encode].
  - now intros [= <-].
  - destruct (utf8_encode_char c) as [cb|] eqn:Hc; [|discriminate].
    destruct (utf8_encode s) as [bs'|]; [|discriminate]. intros [= <-].
    destruct (utf8_encode_char_zero _ _ Hc) as [[-> ->]|(Hn & Hne & Hz)].
    + reflexivity.
    + destruct cb as [|x cb]; [congruence|]. cbn.
      destruct (Z.eqb_spec x 0) as [->|_]; [exfalso; apply Hz; now left|].
      destruct (Z.eqb_spec c 0); [contradiction|reflexivity].
Qed.

Lemma utf8_encode_embeds_terminator s bs :
  utf8_encode s = Some bs -> embeds_terminator bs = embeds_terminator s.
Proof.
  revert bs. induction s as [|c s IH]; intros bs; cbn [utf8_encode].
  - now intros [= <-].
  - destruct (utf8_encode_char c) as [cb|] eqn:Hc; [|discriminate].
    destruct (utf8_encode s) as [bs'|] eqn:Hs; [|discriminate]. intros [= <-].
    rewrite embeds_terminator_cons.
    destruct (utf8_encode_char_zero _ _ Hc) as [[-> ->]|(Hn & Hne & Hz)].
    + cbn [app]. rewrite embeds_terminator_cons.
      now rewrite (utf8_encode_starts_with_nul _ _ Hs), (IH _ eq_refl).
    + rewrite embeds_terminator_skip by assumption.
      destruct (Z.eqb_spec c 0); [contradiction|]. cbn [andb orb].
      now apply IH.
Qed.

Lemma utf8_encode_no_nul s bs :
  utf8_encode s = Some bs -> ~ In 0 s -> ~ In 0 bs.
Proof.
  revert bs. induction s as [|c s IH]; intros bs; cbn [utf8_encode].
  - now intros [= <-].
  - destruct (utf8_encode_char c) as [cb|] eqn:Hc; [|discriminate].
    destruct (utf8_encode s) as [bs'|] eqn:Hs; [|discriminate]. intros [= <-].
    intros Hn Hin. apply in_app_or in Hin.
    destruct (utf8_encode_char_zero _ _ Hc) as [[-> ->]|(_ & _ & Hz)].
    + apply Hn. now left.
    + destruct Hin as [Hin|Hin]; [contradiction|].
      apply (IH _ eq_refl); [|assumption]. intros H. apply Hn. now right.
Qed.

(** ** The terminator search on what [to_bytes] wrote *)

Lemma find_terminator pb pos :
  embeds_terminator pb = false ->
  find_from (pb ++ [0; 0]) [0; 0] pos = pos + len pb.
Proof.
  revert pos. induction pb as [|b pb IH]; intros pos Hc.
  - cbn. lia.
  - rewrite embeds_terminator_cons in Hc. apply orb_false_iff in Hc.
    destruct Hc as [Hb Hc]. rewrite len_cons.
    cbn [app find_from]. rewrite (IH (pos + 1) Hc).
    assert (Hs : startswith (b :: pb ++ [0; 0]) [0; 0] = false).
    { cbn [startswith]. destruct (Z.eqb_spec 0 b) as [<-|_]; [|reflexivity].
      cbn [andb Z.eqb] in Hb. destruct pb as [|d pb]; [discriminate|].
      cbn [starts_with_nul_or_empty] in Hb. cbn [app].
      now rewrite Z.eqb_sym, Hb. }
    rewrite Hs. lia.
Qed.

Lemma find_no_double_zero pb pos :
  ~ In 0 pb -> find_from (pb ++ [0]) [0; 0] pos = -1.
Proof.
  revert pos. induction pb as [|b pb IH]; intros pos Hn.
  - reflexivity.
  - cbn [app find_from startswith].
    destruct (Z.eqb_spec 0 b) as [<-|_]; [exfalso; apply Hn; now left|].
    cbn [andb]. apply IH. intros H. apply Hn. now right.
Qed.

Lemma find_single_zero pb pos :
  ~ In 0 pb -> find_from (pb ++ [0]) [0] pos = pos + len pb.
Proof.
  revert pos. induction pb as [|b pb IH]; intros pos Hn.
  - cbn. lia.
  - rewrite len_cons. cbn [app find_from startswith].
    destruct (Z.eqb_spec 0 b) as [<-|_]; [exfalso; apply Hn; now left|].
    cbn [andb]. rewrite IH; [lia|]. intros H. apply Hn. now right.
Qed.

Lemma startswith_terminator x pb :
  startswith (x :: pb ++ [0; 0]) [0; 0] = (x =? 0) && starts_with_nul_or_empty pb.
Proof.
  cbn [startswith]. rewrite (Z.eqb_sym 0 x).
  destruct pb as [|d pb]; cbn [app starts_with_nul_or_empty].
  - reflexivity.
  - now rewrite andb_true_r, (Z.eqb_sym 0 d).
Qed.

(** With an embedded terminator the search stops inside the payload, at a
    NUL. *)
Lemma find_terminator_early pb :
  embeds_terminator pb = true ->
  exists a b, pb = a ++ 0 :: b
              /\ forall pos, find_from (pb ++ [0; 0]) [0; 0] pos = pos + len a.
Proof.
  induction pb as [|x pb IH]; [discriminate|].
  rewrite embeds_terminator_cons. intros He.
  destruct ((x =? 0) && starts_with_nul_or_empty pb) eqn:Hx.
  - apply andb_true_iff in Hx. destruct Hx as [Hx0 Hhd].
    apply Z.eqb_eq in Hx0. subst x.
    exists [], pb. split; [reflexivity|]. intros pos.
    cbn [app find_from]. rewrite startswith_terminator, Hhd.
    change (len (@nil Z)) with 0. cbn [andb Z.eqb]. lia.
  - cbn [orb] in He. destruct (IH He) as (a & b & -> & Hfind).
    exists (x :: a), b. split; [reflexivity|]. intros pos.
    cbn [app find_from].
    rewrite startswith_terminator, Hx, Hfind, len_cons. lia.
Qed.

Lemma app_split_at (l1 l2 a b : list Z) x :
  l1 ++ l2 = a ++ x :: b -> ~ In x l1 ->
  exists a', a = l1 ++ a' /\ l2 = a' ++ x :: b.
Proof.
  revert a. induction l1 as [|y l1 IH]; intros a H Hn.
  - exists a. auto.
  - destruct a as [|z a]; cbn [app] in H; injection H as -> H.
    + exfalso. apply Hn. now left.
    + destruct (IH a H) as (a' & -> & ->); [intros Hi; apply Hn; now right|].
      exists a'. auto.
Qed.

(** A zero byte of an encoding is the encoding of a NUL of the text. *)
Lemma utf8_encode_split_nul s :
  forall a b,
    utf8_encode s = Some (a ++ 0 :: b) ->
    exists s1 s2, s = s1 ++ 0 :: s2
                  /\ utf8_encode s1 = Some a /\ utf8_encode s2 = Some b.
Proof.
  induction s as [|c s IH]; intros a b; cbn [utf8_encode].
  - intros [= H]. destruct a; discriminate.
  - destruct (utf8_encode_char c) as [cb|] eqn:Hc; [|discriminate].
    destruct (utf8_encode s) as [bs|] eqn:Hs; [|discriminate].
    intros [= H].
    destruct (utf8_encode_char_zero _ _ Hc) as [[-> ->]|(Hn & Hne & Hz)].
    + destruct a as [|z a]; cbn [app] in H.
      * assert (bs = b) by congruence. subst bs. exists [], s. auto.
      * assert (z = 0) by congruence. assert (bs = a ++ 0 :: b) by congruence.
        subst z bs. destruct (IH a b eq_refl) as (s1 & s2 & -> & H1 & H2).
        exists (0 :: s1), s2. split; [reflexivity|]. split; [|assumption].
        now apply (utf8_encode_cons 0 [0]).
    + destruct (app_split_at _ _ _ _ _ H Hz) as (a' & -> & ->).
      destruct (IH a' b eq_refl) as (s1 & s2 & -> & H1 & H2).
      exists (c :: s1), s2. split; [reflexivity|]. split; [|assumption].
      now apply utf8_encode_cons.
Qed.

(** ** Reading the header *)

Lemma unpack_slice data (off : nat) :
  (off + 4 <= length data)%nat ->
  struct_unpack_i (slice data (Z.of_nat off) (Z.of_nat off + 4))
  = Some (int32_at data off).
Proof.
  intros Hl. unfold slice, int32_at.
  replace (Z.of_nat off + 4 - Z.of_nat off) with 4 by lia.
  rewrite Nat2Z.id, <- !nth_skipn.
  assert (Hs : (4 <= length (skipn off data))%nat) by (rewrite length_skipn; lia).
  destruct (skipn off data) as [|b0 [|b1 [|b2 [|b3 l]]]]; cbn [length] in Hs; try lia.
  reflexivity.
Qed.

Lemma unpack_header data :
  12 <= len data ->
  unpack_or_parse_error (slice data 0 4) = Ok (int32_at data 0)
  /\ unpack_or_parse_error (slice data 4 8) = Ok (int32_at data 4)
  /\ unpack_or_parse_error (slice data 8 12) = Ok (int32_at data 8).
Proof.
  unfold len, unpack_or_parse_error. intros Hl.
  pose proof (unpack_slice data 0) as H0.
  pose proof (unpack_slice data 4) as H4.
  pose proof (unpack_slice data 8) as H8.
  change (Z.of_nat 0 + 4) with 4 in H0. change (Z.of_nat 0) with 0 in H0.
  change (Z.of_nat 4 + 4) with 8 in H4. change (Z.of_nat 4) with 4 in H4.
  change (Z.of_nat 8 + 4) with 12 in H8. change (Z.of_nat 8) with 8 in H8.
  rewrite H0, H4, H8 by lia. auto.
Qed.

Lemma RconPacketType_of_None v :
  v <> 0 -> v <> 2 -> v <> 3 -> RconPacketType_of v = None.
Proof.
  intros. unfold RconPacketType_of.
  destruct (Z.eqb_spec v 0); [contradiction|].
  destruct (Z.eqb_spec v 2); [contradiction|].
  destruct (Z.eqb_spec v 3); [contradiction|reflexivity].
Qed.

(** ** Encoding *)

Lemma struct_pack_i_Some n :
  INT32_MIN <= n <= INT32_MAX -> exists b, struct_pack_i n = Some b.
Proof.
  intros H. apply in_int32_spec in H. unfold struct_pack_i. rewrite H. eauto.
Qed.

Lemma to_bytes_encodable id t s pb :
  in_int32 id = true -> utf8_encode s = Some pb ->
  4 + 4 + len pb + 2 <= INT32_MAX ->
  exists b_len b_id b_type,
    struct_pack_i (8 + len (pb ++ [0; 0])) = Some b_len
    /\ struct_pack_i id = Some b_id
    /\ struct_pack_i (int t) = Some b_type
    /\ to_bytes (mkRconPacket id (Member t) s)
       = Ok (b_len ++ b_id ++ b_type ++ pb ++ [0; 0]).
Proof.
  intros Hid Hs Hlen. pose proof (len_nonneg pb) as Hp.
  assert (Hl : 8 + len (pb ++ [0; 0]) = 4 + 4 + len pb + 2)
    by (rewrite len_app; change (len [0; 0]) with 2; lia).
  destruct (struct_pack_i_Some (4 + 4 + len pb + 2)) as [b_len Hbl];
    [unfold INT32_MIN, INT32_MAX in *; lia|].
  apply in_int32_spec in Hid. destruct (struct_pack_i_Some id Hid) as [b_id Hbi].
  destruct (struct_pack_i_Some (int t)) as [b_type Hbt];
    [destruct t; unfold INT32_MIN, INT32_MAX; cbn; lia|].
  exists b_len, b_id, b_type. rewrite Hl. repeat split; auto.
  unfold to_bytes. cbn [packet_type payload packet_id].
  rewrite Hs, Hbl, Hbi, Hbt. reflexivity.
Qed.

(** C1, as amended: for every packet whose kind is one of the three
    recognised values, whose id is a signed 32-bit integer and whose
    payload encodes to UTF-8 within the 32-bit signed length bound, and
    which holds neither two consecutive NUL characters nor a NUL as its
    last character, [to_bytes] succeeds and [from_bytes] of the result is
    the packet itself: same id, kind and payload. *)
Theorem from_bytes_to_bytes p :
  encodable p -> embeds_terminator (payload p) = false ->
  exists data, to_bytes p = Ok data /\ from_bytes data = Ok p.
Proof.
  destruct p as [id ty s]. unfold encodable. cbn [packet_type packet_id payload].
  intros ([t ->] & Hid & pb & Hs & Hlen) Hclean.
  destruct (to_bytes_encodable id t s pb Hid Hs Hlen)
    as (b_len & b_id & b_type & Hbl & Hbi & Hbt & Hto).
  exists (b_len ++ b_id ++ b_type ++ pb ++ [0; 0]). split; [exact Hto|].
  rewrite (from_bytes_frame _ _ _ _ _ _ _ Hbl eq_refl Hbi Hbt).
  do 2 f_equal. unfold payload_after_header.
  rewrite <- (utf8_encode_embeds_terminator _ _ Hs) in Hclean.
  rewrite (find_terminator pb 12 Hclean).
  pose proof (len_nonneg pb) as Hp.
  destruct (Z.eqb_spec (12 + len pb) (-1)); [lia|].
  destruct (Z.ltb_spec 12 (12 + len pb)).
  - replace (12 + len pb - 12) with (len pb) by lia. unfold len.
    rewrite Nat2Z.id, firstn_length_app. now apply utf8_decode_encode.
  - assert (pb = []) as -> by (destruct pb as [|b pb'];
           [reflexivity|rewrite len_cons in *; pose proof (len_nonneg pb'); lia]).
    now apply (utf8_decode_encode s []).
Qed.

Lemma from_bytes_to_bytes_witness :
  exists data, to_bytes list_command = Ok data /\ from_bytes data = Ok list_command.
Proof.
  apply from_bytes_to_bytes.
  - split; [exists COMMAND_VALUE; reflexivity|]. split; [reflexivity|].
    exists [108; 105; 115; 116]. split; [reflexivity|]. vm_compute. discriminate.
  - reflexivity.
Defined.

(** C1, as stated, fails: a command whose payload is the single character
    U+0000 is encodable, and decoding its encoding yields the empty
    payload. *)
Lemma round_trip_loses_trailing_nul :
  encodable (CommandPacket 1 [0])
  /\ exists data,
       to_bytes (CommandPacket 1 [0]) = Ok data
       /\ from_bytes data = Ok (CommandPacket 1 [])
       /\ from_bytes data <> Ok (CommandPacket 1 [0]).
Proof.
  split.
  - split; [exists COMMAND_VALUE; reflexivity|]. split; [reflexivity|].
    exists [0]. split; [reflexivity|]. vm_compute. discriminate.
  - exists [11; 0; 0; 0; 1; 0; 0; 0; 2; 0; 0; 0; 0; 0; 0].
    split; [reflexivity|]. split; [reflexivity|]. vm_compute. discriminate.
Qed.

(** The condition of the amended C1 is the exact one: an encodable packet
    whose payload embeds a terminator decodes to a packet with a shorter
    payload, the part before a NUL. *)
Lemma embedded_terminator_truncates p :
  encodable p -> embeds_terminator (payload p) = true ->
  exists data s1 s2,
    to_bytes p = Ok data
    /\ payload p = s1 ++ 0 :: s2
    /\ from_bytes data = Ok (mkRconPacket (packet_id p) (packet_type p) s1)
    /\ from_bytes data <> Ok p.
Proof.
  destruct p as [id ty s]. unfold encodable. cbn [packet_type packet_id payload].
  intros ([t ->] & Hid & pb & Hs & Hlen) Hemb.
  destruct (to_bytes_encodable id t s pb Hid Hs Hlen)
    as (b_len & b_id & b_type & Hbl & Hbi & Hbt & Hto).
  rewrite <- (utf8_encode_embeds_terminator _ _ Hs) in Hemb.
  destruct (find_terminator_early pb Hemb) as (a & b & Hpb & Hfind).
  rewrite Hpb in Hs. destruct (utf8_encode_split_nul s a b Hs) as (s1 & s2 & Hsplit & H1 & H2).
  exists (b_len ++ b_id ++ b_type ++ pb ++ [0; 0]), s1, s2.
  split; [exact Hto|]. split; [exact Hsplit|].
  assert (Hfrom : from_bytes (b_len ++ b_id ++ b_type ++ pb ++ [0; 0])
                  = Ok (mkRconPacket id (Member t) s1)).
  { rewrite (from_bytes_frame _ _ _ _ _ _ _ Hbl eq_refl Hbi Hbt).
    do 2 f_equal. unfold payload_after_header. rewrite (Hfind 12).
    pose proof (len_nonneg a) as Ha.
    destruct (Z.eqb_spec (12 + len a) (-1)); [lia|].
    destruct (Z.ltb_spec 12 (12 + len a)).
    - replace (12 + len a - 12) with (len a) by lia. unfold len.
      rewrite Nat2Z.id, Hpb, <- app_assoc, firstn_length_app.
      now apply utf8_decode_encode.
    - assert (a = []) as ->
        by (destruct a as [|z a']; [reflexivity
            |rewrite len_cons in *; pose proof (len_nonneg a'); lia]).
      now apply (utf8_decode_encode s1 []). }
  split; [exact Hfrom|]. rewrite Hfrom. intros [= E].
  apply (f_equal (@length Z)) in E. rewrite Hsplit, length_app in E.
  cbn [length] in E. lia.
Qed.

(** C7: [from_bytes] fails with the length-insufficient parse error on
    every buffer of fewer than 12 bytes; with the length-mismatch parse
    error on every buffer of at least 12 bytes whose declared length is not
    the number of bytes after the length field; and with
    [InvalidPacketTypeError] on every buffer passing both checks whose kind
    is none of 0, 2 and 3.  The three errors differ, and the last is not a
    [PacketParseError]. *)
Theorem from_bytes_rejections data :
  (len data < 12 ->
   from_bytes data = Raise (PacketParseError LengthInsufficient))
  /\ (12 <= len data -> int32_at data 0 <> len data - 4 ->
      from_bytes data
      = Raise (PacketParseError (LengthMismatch (int32_at data 0) (len data - 4))))
  /\ (12 <= len data -> int32_at data 0 = len data - 4 ->
      int32_at data 8 <> 0 -> int32_at data 8 <> 2 -> int32_at data 8 <> 3 ->
      from_bytes data
      = Raise (InvalidPacketTypeError (UnknownType (int32_at data 8))))
  /\ (forall d a v,
        PacketParseError LengthInsufficient <> PacketParseError (LengthMismatch d a)
        /\ PacketParseError LengthInsufficient <> InvalidPacketTypeError (UnknownType v)
        /\ PacketParseError (LengthMismatch d a) <> InvalidPacketTypeError (UnknownType v)
        /\ is_PacketParseError (InvalidPacketTypeError (UnknownType v)) = false
        /\ is_PacketParseError (PacketParseError LengthInsufficient) = true
        /\ is_PacketParseError (PacketParseError (LengthMismatch d a)) = true).
Proof.
  repeat split; try discriminate.
  - intros H. unfold from_bytes. now destruct (Z.ltb_spec (len data) 12); [|lia].
  - intros H Hd. unfold from_bytes. destruct (Z.ltb_spec (len data) 12); [lia|].
    destruct (unpack_header data H) as (-> & _ & _). cbn [rbind].
    now destruct (Z.eqb_spec (int32_at data 0) (len data - 4)).
  - intros H Hd H0 H2 H3. unfold from_bytes.
    destruct (Z.ltb_spec (len data) 12); [lia|].
    destruct (unpack_header data H) as (-> & -> & ->). cbn [rbind].
    destruct (Z.eqb_spec (int32_at data 0) (len data - 4)); [|contradiction].
    cbn [negb]. now rewrite RconPacketType_of_None.
Qed.

Lemma from_bytes_rejections_witness :
  from_bytes [115; 104; 111; 114; 116]
  = Raise (PacketParseError LengthInsufficient)
  /\ from_bytes [10; 0; 0; 0; 1; 0; 0; 0; 3; 0; 0; 0]
     = Raise (PacketParseError (LengthMismatch 10 8))
  /\ from_bytes [10; 0; 0; 0; 1; 0; 0; 0; 231; 3; 0; 0; 0; 0]
     = Raise (InvalidPacketTypeError (UnknownType 999)).
Proof.
  split; [|split].
  - apply (proj1 (from_bytes_rejections [115; 104; 111; 114; 116])).
    vm_compute. reflexivity.
  - apply (proj1 (proj2 (from_bytes_rejections
             [10; 0; 0; 0; 1; 0; 0; 0; 3; 0; 0; 0]))).
    + vm_compute. discriminate.
    + vm_compute. discriminate.
  - apply (proj1 (proj2 (proj2 (from_bytes_rejections
             [10; 0; 0; 0; 1; 0; 0; 0; 231; 3; 0; 0; 0; 0]))));
      vm_compute; try reflexivity; discriminate.
Defined.

(** ** What [from_bytes] returns *)

Lemma from_bytes_Ok data :
  12 <= len data -> int32_at data 0 = len data - 4 ->
  forall t, RconPacketType_of (int32_at data 8) = Some t ->
  from_bytes data
  = Ok (mkRconPacket (int32_at data 4) (Member t)
          (let d := find data [0; 0] 12 in
           let e := if d =? -1
                    then let s := find data [0] 12 in
                         if s =? -1 then len data else s
                    else d in
           if 12 <? e then utf8_decode_replace (slice data 12 e) else [])).
Proof.
  intros Hl Hd t Ht. unfold from_bytes.
  destruct (Z.ltb_spec (len data) 12); [lia|].
  destruct (unpack_header data Hl) as (-> & -> & ->). cbn [rbind].
  destruct (Z.eqb_spec (int32_at data 0) (len data - 4)); [|contradiction].
  cbn [negb]. now rewrite Ht.
Qed.

Lemma from_bytes_inv data p :
  from_bytes data = Ok p ->
  12 <= len data /\ int32_at data 0 = len data - 4
  /\ exists t, RconPacketType_of (int32_at data 8) = Some t.
Proof.
  unfold from_bytes. destruct (Z.ltb_spec (len data) 12); [discriminate|].
  destruct (unpack_header data H) as (-> & -> & ->). cbn [rbind].
  destruct (Z.eqb_spec (int32_at data 0) (len data - 4)); [|discriminate].
  cbn [negb]. destruct (RconPacketType_of (int32_at data 8)); [|discriminate].
  eauto.
Qed.

(** C8: the payload [from_bytes] returns is the decoding of the bytes from
    offset 12 up to the first double zero at or after offset 12, failing
    that up to the first zero, failing that up to the end of the buffer;
    whatever the payload bytes are, a buffer that passes the header checks
    decodes; a frame that ends in one zero instead of two yields the
    payload it carries; and bytes that are not well-formed UTF-8 decode to
    a text holding U+FFFD. *)
Theorem from_bytes_payload :
  (forall data p,
      from_bytes data = Ok p ->
      exists e, payload_end data e
                /\ payload p = utf8_decode_replace (slice data 12 e))
  /\ (forall data t,
        12 <= len data -> int32_at data 0 = len data - 4 ->
        RconPacketType_of (int32_at data 8) = Some t ->
        exists p, from_bytes data = Ok p)
  /\ (forall id t s pb b_len b_id b_type,
        utf8_encode s = Some pb -> ~ In 0 s ->
        struct_pack_i (4 + 4 + len pb + 1) = Some b_len ->
        struct_pack_i id = Some b_id ->
        struct_pack_i (int t) = Some b_type ->
        from_bytes (b_len ++ b_id ++ b_type ++ pb ++ [0])
        = Ok (mkRconPacket id (Member t) s))
  /\ (forall bs,
        is_bytes bs ->
        utf8_encode (utf8_decode_replace bs) = Some bs
        \/ In REPLACEMENT (utf8_decode_replace bs)).
Proof.
  split; [|split; [|split]].
  - intros data p H.
    destruct (from_bytes_inv _ _ H) as (Hl & Hd & t & Ht).
    rewrite (from_bytes_Ok data Hl Hd t Ht) in H.
    injection H as <-. cbn [payload].
    destruct (computed_payload_end data Hl) as [He Hr]. cbv zeta in He, Hr |- *.
    match type of He with payload_end _ ?x => set (e := x) in * end.
    destruct (Z.ltb_spec 12 e).
    + exists e. auto.
    + exists e. split; [assumption|].
      replace e with 12 by lia. reflexivity.
  - intros data t Hl Hd Ht. rewrite (from_bytes_Ok data Hl Hd t Ht). eauto.
  - intros id t s pb b_len b_id b_type Hs Hn Hbl Hbi Hbt.
    assert (Hlen : 4 + 4 + len pb + 1 = 8 + len (pb ++ [0]))
      by (rewrite len_app; change (len [0]) with 1; lia).
    rewrite (from_bytes_frame _ _ _ _ _ _ _ Hbl Hlen Hbi Hbt).
    do 2 f_equal. unfold payload_after_header.
    pose proof (utf8_encode_no_nul _ _ Hs Hn) as Hz.
    rewrite (find_no_double_zero pb 12 Hz), (find_single_zero pb 12 Hz).
    change (-1 =? -1) with true. cbv iota zeta.
    pose proof (len_nonneg pb) as Hp.
    destruct (Z.eqb_spec (12 + len pb) (-1)); [lia|].
    destruct (Z.ltb_spec 12 (12 + len pb)).
    + replace (12 + len pb - 12) with (len pb) by lia. unfold len.
      rewrite Nat2Z.id, firstn_length_app. now apply utf8_decode_encode.
    + assert (pb = []) as ->
        by (destruct pb as [|b pb'];
            [reflexivity|rewrite len_cons in *; pose proof (len_nonneg pb'); lia]).
      now apply (utf8_decode_encode s []).
  - apply utf8_decode_valid_or_replaced.
Qed.

(** A frame for the text "ok" that ends in one zero; a buffer whose
    payload bytes are 0x61 0xFF. *)
Lemma from_bytes_payload_witness :
  from_bytes [11; 0; 0; 0; 7; 0; 0; 0; 0; 0; 0; 0; 111; 107; 0]
  = Ok (ResponsePacket 7 [111; 107])
  /\ (exists e, payload_end [11; 0; 0; 0; 7; 0; 0; 0; 0; 0; 0; 0; 97; 255; 0] e
                /\ [97; REPLACEMENT]
                   = utf8_decode_replace
                       (slice [11; 0; 0; 0; 7; 0; 0; 0; 0; 0; 0; 0; 97; 255; 0] 12 e))
  /\ (exists p, from_bytes [10; 0; 0; 0; 7; 0; 0; 0; 0; 0; 0; 0; 255; 254] = Ok p).
Proof.
  destruct from_bytes_payload as (Hend & Htotal & Hsingle & _).
  split; [|split].
  - apply (Hsingle 7 RESPONSE_VALUE [111; 107] [111; 107]
             [11; 0; 0; 0] [7; 0; 0; 0] [0; 0; 0; 0]); try reflexivity.
    intros [H|[H|[]]]; discriminate.
  - apply (Hend [11; 0; 0; 0; 7; 0; 0; 0; 0; 0; 0; 0; 97; 255; 0]
             (ResponsePacket 7 [97; REPLACEMENT])).
    reflexivity.
  - apply (Htotal [10; 0; 0; 0; 7; 0; 0; 0; 0; 0; 0; 0; 255; 254] RESPONSE_VALUE);
      vm_compute; try reflexivity. discriminate.
Defined.

(** C8, as stated, fails: a well-formed buffer that ends in a single zero
    and carries the payload "a\0b" (which the codec keeps when the frame
    ends in two zeros) decodes to the payload "a". *)
Lemma single_terminator_loses_embedded_nul :
  utf8_encode [97; 0; 98] = Some [97; 0; 98]
  /\ from_bytes [12; 0; 0; 0; 1; 0; 0; 0; 2; 0; 0; 0; 97; 0; 98; 0]
     = Ok (CommandPacket 1 [97])
  /\ from_bytes [12; 0; 0; 0; 1; 0; 0; 0; 2; 0; 0; 0; 97; 0; 98; 0]
     <> Ok (CommandPacket 1 [97; 0; 98])
  /\ from_bytes [13; 0; 0; 0; 1; 0; 0; 0; 2; 0; 0; 0; 97; 0; 98; 0; 0]
     = Ok (CommandPacket 1 [97; 0; 98]).
Proof.
  split; [reflexivity|]. split; [reflexivity|]. split; [|reflexivity].
  vm_compute. discriminate.
Qed.

(** ** The condition of the single terminator is the exact one *)

Lemma find_from_found l sub pos :
  0 <= pos -> find_from l sub pos <> -1 ->
  exists k, find_from l sub pos = pos + Z.of_nat k /\ (k < length l)%nat
            /\ startswith (skipn k l) sub = true
            /\ forall j, (j < k)%nat -> startswith (skipn j l) sub = false.
Proof.
  intros Hpos Hf.
  destruct (find_from_spec l sub pos) as [[E _]|H]; [contradiction|exact H].
Qed.

Lemma nth_error_app_left (pb : list Z) x k :
  (k < length pb)%nat -> nth_error (pb ++ [x]) k = nth_error pb k.
Proof. intros H. now apply nth_error_app1. Qed.

(** Where the search of [from_bytes] stops in a payload that holds a NUL
    and is followed by a single zero: at a NUL of the payload. *)
Lemma single_terminator_stops_at_nul pb :
  In 0 pb ->
  let d := find_from (pb ++ [0]) [0; 0] 12 in
  let e := if d =? -1
           then let s := find_from (pb ++ [0]) [0] 12 in
                if s =? -1 then 12 + len (pb ++ [0]) else s
           else d in
  exists k, e = 12 + Z.of_nat k /\ nth_error pb k = Some 0.
Proof.
  intros Hin. cbv zeta.
  destruct (In_nth_error _ _ Hin) as (j0 & Hj0).
  assert (Hj0l : (j0 < length pb)%nat) by (apply nth_error_Some; congruence).
  destruct (Z.eqb_spec (find_from (pb ++ [0]) [0; 0] 12) (-1)) as [_|Hd].
  - assert (Hs : find_from (pb ++ [0]) [0] 12 <> -1).
    { intros E. destruct (find_from_spec (pb ++ [0]) [0] 12) as [[_ Hn]|(k & E' & _)];
        [|lia].
      specialize (Hn j0 ltac:(rewrite length_app; cbn; lia)).
      assert (Ht : startswith (skipn j0 (pb ++ [0])) [0] = true).
      { apply startswith_zero. rewrite nth_error_skipn, Nat.add_0_r.
        now rewrite nth_error_app_left. }
      congruence. }
    destruct (Z.eqb_spec (find_from (pb ++ [0]) [0] 12) (-1)); [contradiction|].
    destruct (find_from_found _ _ 12 ltac:(lia) Hs) as (k & -> & Hk & Hf & Hb).
    exists k. split; [reflexivity|].
    apply startswith_zero in Hf. rewrite nth_error_skipn, Nat.add_0_r in Hf.
    destruct (Nat.lt_ge_cases k (length pb)) as [Hlt|Hge].
    + now rewrite nth_error_app_left in Hf.
    + specialize (Hb j0 ltac:(lia)).
      assert (Ht : startswith (skipn j0 (pb ++ [0])) [0] = true).
      { apply startswith_zero. rewrite nth_error_skipn, Nat.add_0_r.
        now rewrite nth_error_app_left. }
      congruence.
  - destruct (find_from_found _ _ 12 ltac:(lia) Hd) as (k & -> & Hk & Hf & _).
    exists k. split; [reflexivity|].
    apply startswith_zero_zero in Hf. destruct Hf as [H0 H1].
    rewrite nth_error_skipn in H0, H1. rewrite Nat.add_0_r in H0.
    assert (Hk1 : (k + 1 < length (pb ++ [0%Z]))%nat)
      by (apply nth_error_Some; congruence).
    rewrite length_app in Hk1. cbn [length] in Hk1.
    now rewrite nth_error_app_left in H0 by lia.
Qed.

Lemma utf8_encode_keeps_nul s :
  forall pb, utf8_encode s = Some pb -> In 0 s -> In 0 pb.
Proof.
  induction s as [|c s IH]; intros pb; cbn [utf8_encode]; [intros _ []|].
  destruct (utf8_encode_char c) as [cb|] eqn:Hc; [|discriminate].
  destruct (utf8_encode s) as [bs|]; [|discriminate].
  intros [= <-] [->|Hin]; apply in_or_app.
  - left. cbn in Hc. injection Hc as <-. now left.
  - right. now apply IH.
Qed.

(** The condition of the amended C8 is the exact one: when the payload
    holds a NUL, the frame that ends in a single zero decodes to a shorter
    payload, the part before a NUL. *)
Lemma single_terminator_truncates id t s pb b_len b_id b_type :
  utf8_encode s = Some pb -> In 0 s ->
  struct_pack_i (4 + 4 + len pb + 1) = Some b_len ->
  struct_pack_i id = Some b_id ->
  struct_pack_i (int t) = Some b_type ->
  exists s1 s2,
    s = s1 ++ 0 :: s2
    /\ from_bytes (b_len ++ b_id ++ b_type ++ pb ++ [0])
       = Ok (mkRconPacket id (Member t) s1)
    /\ from_bytes (b_len ++ b_id ++ b_type ++ pb ++ [0])
       <> Ok (mkRconPacket id (Member t) s).
Proof.
  intros Hs Hin Hbl Hbi Hbt.
  pose proof (utf8_encode_keeps_nul s pb Hs Hin) as Hinb.
  assert (Hlen : 4 + 4 + len pb + 1 = 8 + len (pb ++ [0]))
    by (rewrite len_app; change (len [0]) with 1; lia).
  rewrite (from_bytes_frame _ _ _ _ _ _ _ Hbl Hlen Hbi Hbt).
  destruct (single_terminator_stops_at_nul pb Hinb) as (k & He & Hk).
  cbv zeta in He. unfold payload_after_header. rewrite He.
  pose proof (firstn_skipn_middle _ _ Hk) as Hsplit.
  assert (Hkl : (k < length pb)%nat) by (apply nth_error_Some; congruence).
  rewrite <- Hsplit in Hs.
  destruct (utf8_encode_split_nul s _ _ Hs) as (s1 & s2 & Hs12 & H1 & H2).
  assert (Hdec : (if 12 <? 12 + Z.of_nat k
                  then utf8_decode_replace
                         (firstn (Z.to_nat (12 + Z.of_nat k - 12)) (pb ++ [0]))
                  else []) = s1).
  { replace (Z.to_nat (12 + Z.of_nat k - 12)) with k by lia.
    rewrite firstn_app. replace (k - length pb)%nat with 0%nat by lia.
    cbn [firstn]. rewrite app_nil_r.
    destruct (Z.ltb_spec 12 (12 + Z.of_nat k)).
    - now apply utf8_decode_encode.
    - assert (k = 0%nat) as -> by lia. cbn [firstn] in H1.
      now apply (utf8_decode_encode s1 []). }
  rewrite Hdec. exists s1, s2. split; [assumption|]. split; [reflexivity|].
  intros [= E]. apply (f_equal (@length Z)) in E.
  rewrite Hs12, length_app in E. cbn [length] in E. lia.
Qed.

End CodecFacts.

(* ================================================================== *)
(** * The client *)
(* ================================================================== *)

Module ClientFacts.
Import Py RconProtocol RconClient Spec PyFacts CodecFacts.
Local Open Scope client_scope.

(** ** Rules of the weakest precondition *)

Lemma wp_bind {A B} (m : M A) (k : A -> M B) Q w :
  wp m (fun r w' => match r with
                    | Ok a => wp (k a) Q w'
                    | Raise e => Q (Raise e) w'
                    end) w ->
  wp (bind m k) Q w.
Proof. unfold wp, bind. now destruct (m w) as [[a|e] w']. Qed.

Lemma wp_try {A} (m : M A) (h : exn -> M A) Q w :
  wp m (fun r w' => match r with
                    | Ok a => Q (Ok a) w'
                    | Raise e => wp (h e) Q w'
                    end) w ->
  wp (try_except m h) Q w.
Proof. unfold wp, try_except. now destruct (m w) as [[a|e] w']. Qed.

Lemma wp_mono {A} (m : M A) (Q1 Q2 : result A -> world -> Prop) w :
  wp m Q1 w -> (forall r w', Q1 r w' -> Q2 r w') -> wp m Q2 w.
Proof. unfold wp. auto. Qed.

Lemma wp_ret {A} (a : A) Q w : Q (Ok a) w -> wp (ret a) Q w.
Proof. exact (fun H => H). Qed.

Lemma wp_raise {A} e (Q : result A -> world -> Prop) w :
  Q (Raise e) w -> wp (raise e) Q w.
Proof. exact (fun H => H). Qed.

Lemma wp_lift {A} (r : result A) Q w : Q r w -> wp (lift r) Q w.
Proof. exact (fun H => H). Qed.

Lemma wp_get_self Q w : Q (Ok (self w)) w -> wp get_self Q w.
Proof. exact (fun H => H). Qed.

Lemma wp_get_env Q w : Q (Ok (env w)) w -> wp get_env Q w.
Proof. exact (fun H => H). Qed.

Lemma wp_get_time Q w : Q (Ok (time_time (env w) (now w))) w -> wp get_time Q w.
Proof. exact (fun H => H). Qed.

Lemma wp_update f Q w :
  Q (Ok tt) (mkWorld (env w) (f (self w)) (now w) (trace w)) -> wp (update f) Q w.
Proof. exact (fun H => H). Qed.

Lemma wp_emit ev Q w :
  Q (Ok tt) (mkWorld (env w) (self w) (now w) (trace w ++ [ev])) -> wp (emit ev) Q w.
Proof. exact (fun H => H). Qed.

Lemma wp_log l m Q w :
  Q (Ok tt) (mkWorld (env w) (self w) (now w) (trace w ++ [EvLog l m])) ->
  wp (log l m) Q w.
Proof. exact (fun H => H). Qed.

Lemma wp_await {A} (answer : environment -> nat -> A) Q w :
  Q (Ok (answer (env w) (now w)))
    (mkWorld (env w) (suspended (peer_closes (env w) (now w)) (self w))
             (S (now w)) (trace w)) ->
  wp (await answer) Q w.
Proof. exact (fun H => H). Qed.

(** One step of the symbolic execution of a monadic program. *)
Ltac wp_step :=
  lazymatch goal with
  | |- wp (bind _ _) _ _ => apply wp_bind
  | |- wp (try_except _ _) _ _ => apply wp_try
  | |- wp (ret _) _ _ => apply wp_ret
  | |- wp (raise _) _ _ => apply wp_raise
  | |- wp (lift _) _ _ => apply wp_lift
  | |- wp get_self _ _ => apply wp_get_self
  | |- wp get_env _ _ => apply wp_get_env
  | |- wp get_time _ _ => apply wp_get_time
  | |- wp (update _) _ _ => apply wp_update
  | |- wp (emit _) _ _ => apply wp_emit
  | |- wp (log _ _) _ _ => apply wp_log
  | |- wp (await _) _ _ => apply wp_await
  | |- wp (when ?b _) _ _ => unfold when
  end; cbv beta iota;
  cbn [env self now trace is_asyncio_TimeoutError is_ConnectionResetError].

(** The connection tests of the program, computed on a known client. *)
Ltac wp_connected :=
  progress (unfold is_authenticated, is_connected;
            cbn [env self now trace _reader _writer _authenticated is_closing
                 negb andb orb]).

Ltac wp_steps := repeat wp_step.

(** Case analysis on what the program branches on. *)
Ltac wp_case :=
  lazymatch goal with
  | |- wp (if ?b then _ else _) _ _ => destruct b eqn:?
  | |- wp (match ?x with _ => _ end) _ _ => destruct x eqn:?
  | |- match ?x with _ => _ end => destruct x eqn:?
  end; cbv beta iota.

Ltac wp_auto := repeat (first [wp_step | wp_connected | wp_case]).

Ltac simpl_client :=
  unfold config, closed, suspended, is_authenticated, is_connected,
    set_reader, set_writer, set_packet_id, set_authenticated in *;
  cbn [env self now trace host port password timeout retry_attempts
       retry_delay _reader _writer _packet_id _authenticated is_closing
       negb andb orb] in *.

Lemma writes_app a b : writes (a ++ b) = writes a ++ writes b.
Proof.
  induction a as [|[] a IH]; cbn [app writes]; auto. now rewrite IH.
Qed.

Lemma attempts_of_app a b : attempts_of (a ++ b) = attempts_of a ++ attempts_of b.
Proof.
  induction a as [|[] a IH]; cbn [app attempts_of]; auto; now rewrite IH.
Qed.

Lemma closes_app a b : closes (a ++ b) = (closes a + closes b)%nat.
Proof.
  induction a as [|[] a IH]; cbn [app closes]; auto. now rewrite IH.
Qed.

Lemma established_app a b :
  established (a ++ b) = (established a + established b)%nat.
Proof.
  induction a as [|ev a IH]; [reflexivity|]. cbn [app established].
  repeat match goal with
  | |- context [match ?x with _ => _ end] => destruct x
  end; rewrite IH; reflexivity.
Qed.

Ltac simpl_trace :=
  rewrite ?writes_app, ?attempts_of_app, ?closes_app, ?established_app;
  cbn [writes attempts_of closes established];
  rewrite ?app_nil_r, ?Nat.add_0_r.

Lemma _close_connection_spec w :
  wp _close_connection
     (fun r w' =>
        r = Ok tt /\ env w' = env w /\ self w' = closed (self w)
        /\ writes (trace w') = writes (trace w)
        /\ attempts_of (trace w') = attempts_of (trace w)
        /\ closes (trace w') = (closes (trace w) + held (self w))%nat
        /\ established (trace w') = established (trace w)) w.
Proof.
  destruct w as [E [h p pw to ra rd rdr wtr pid au] t tr].
  unfold _close_connection, writer_close, writer_wait_closed, held.
  wp_steps. simpl_client.
  destruct wtr as [wtr|]; wp_steps; simpl_client.
  - destruct (wait_closed E t); wp_steps; simpl_client;
      destruct rdr; wp_steps; simpl_client; simpl_trace; repeat split; lia.
  - destruct rdr; wp_steps; simpl_client; simpl_trace; repeat split; lia.
Qed.

Lemma _read_packet_data_spec w :
  wp _read_packet_data
     (fun r w' => same_client w w' /\ writes (trace w') = writes (trace w)
                  /\ quiet w w') w.
Proof.
  destruct w as [E [h p pw to ra rd rdr wtr pid au] t tr].
  unfold _read_packet_data, reader_readexactly, same_client, quiet, held.
  destruct wtr as [[cl]|]; wp_auto; simpl_client; simpl_trace; auto 10.
Qed.

(** A call of a method whose specification is [H]. *)
Ltac wp_call H :=
  lazymatch goal with |- wp _ _ _ => idtac end;
  eapply wp_mono; [apply H|]; cbv beta;
  let r := fresh "r" in let w' := fresh "w'" in let Hc := fresh "Hcall" in
  intros r w' Hc; destruct r; cbv beta iota.

(** What the specifications of the calls made so far say about the
    current world. *)
Ltac use_calls :=
  repeat match goal with
  | H : _ /\ _ |- _ => destruct H
  | H : _ \/ _ |- _ => destruct H
  | H : False |- _ => destruct H
  | H : same_client _ _ |- _ => unfold same_client in H
  | H : quiet _ _ |- _ => unfold quiet in H
  | H : match ?x with _ => _ end |- _ => destruct x eqn:?
  | H : is_Ok (Ok _) = false |- _ => discriminate H
  end.

Ltac rewrite_self :=
  repeat match goal with
  | H : self ?w = _ |- _ => is_var w; rewrite ?H in *; clear H
  end.

(** The postcondition at the end of a path. *)
Ltac solve_post :=
  lazymatch goal with
  | |- _ /\ _ => split; solve_post
  | |- _ \/ _ => first [ left; solve [solve_post] | right; solve [solve_post] ]
  | |- match ?x with _ => _ end => destruct x eqn:?; solve_post
  | |- Disconnected _ => unfold Disconnected; simpl_client; solve_post
  | |- _ => first [ reflexivity | assumption | congruence | lia ]
  end.

Ltac leaf :=
  unfold same_client, same_client_but_id, releases, held in *;
  simpl_client; rewrite_self;
  simpl_client;
  rewrite ?writes_app, ?attempts_of_app, ?closes_app, ?established_app in *;
  cbn [writes attempts_of closes established is_Ok] in *;
  rewrite ?app_nil_r in *;
  try solve [solve_post].

Lemma _send_packet_and_wait_response_spec packet w :
  wp (_send_packet_and_wait_response packet)
     (fun r w' =>
        same_client w w' /\ releases w w'
        /\ match to_bytes packet with
           | Ok data =>
               (writes (trace w') = writes (trace w) /\ is_Ok r = false)
               \/ writes (trace w') = writes (trace w) ++ [data]
           | Raise _ => writes (trace w') = writes (trace w) /\ is_Ok r = false
           end) w.
Proof.
  destruct w as [E [h p pw to ra rd rdr wtr pid au] t tr].
  unfold _send_packet_and_wait_response, writer_write, writer_drain, parse_packet.
  destruct wtr as [[cl]|]; wp_auto;
    try (wp_call _read_packet_data_spec; wp_auto);
    try (wp_call _close_connection_spec; wp_auto);
    use_calls; leaf.
Qed.

Lemma Disconnected_closed c : Disconnected (closed c).
Proof. repeat split. Qed.

Lemma Disconnected_not_connected c :
  Disconnected c -> is_connected c = false /\ is_authenticated c = false.
Proof.
  unfold Disconnected, is_authenticated, is_connected.
  intros (-> & -> & ->). auto.
Qed.

Lemma _authenticate_spec w :
  wp _authenticate
     (fun r w' =>
        same_client_but_id w w' /\ releases w w'
        /\ match r with
           | Ok _ =>
               is_connected (self w) = true
               /\ _packet_id (self w') = _packet_id (self w) + 1
               /\ _authenticated (self w') = true
               /\ match to_bytes (create_auth_packet (_packet_id (self w) + 1)
                                                     (password (self w))) with
                  | Ok data => writes (trace w') = writes (trace w) ++ [data]
                  | Raise _ => False
                  end
           | Raise _ =>
               (is_connected (self w) = false /\ self w' = self w
                /\ writes (trace w') = writes (trace w))
               \/ (is_connected (self w) = true /\ Disconnected (self w')
                   /\ _packet_id (self w') = _packet_id (self w) + 1
                   /\ match to_bytes (create_auth_packet (_packet_id (self w) + 1)
                                                         (password (self w))) with
                      | Ok data =>
                          writes (trace w') = writes (trace w)
                          \/ writes (trace w') = writes (trace w) ++ [data]
                      | Raise _ => writes (trace w') = writes (trace w)
                      end)
           end) w.
Proof.
  destruct w as [E [h p pw to ra rd rdr wtr pid au] t tr].
  unfold _authenticate, _get_next_packet_id, same_client_but_id.
  destruct rdr; destruct wtr as [[[]]|]; wp_auto;
    try (wp_call _send_packet_and_wait_response_spec; wp_auto);
    try (wp_call _close_connection_spec; wp_auto);
    use_calls; leaf.
Qed.

(** ** The retry loop *)

Lemma attempts_with_pauses_S d k :
  (0 < k)%nat ->
  attempts_with_pauses d (S k) = EvOpen :: EvSleep d :: attempts_with_pauses d k.
Proof. destruct k; [lia|reflexivity]. Qed.

Lemma connect_attempts_spec m :
  forall i last w,
    _writer (self w) = None ->
    (m = 0%nat \/ Z.of_nat (i + m) = retry_attempts (self w) + 1) ->
    wp (connect_attempts (map Z.of_nat (seq i m)) last)
       (connect_attempts_post m w) w.
Proof.
  induction m as [|m IH]; intros i last w Hw Hm.
  - cbn [seq map connect_attempts]. wp_auto. unfold connect_attempts_post.
    do 6 (split; [reflexivity|]). split; [left; auto|].
    exists 0%nat. cbn [attempts_with_pauses].
    rewrite app_nil_r. repeat split; auto; lia.
  - destruct Hm as [Hm|Hm]; [discriminate|].
    destruct w as [E [h p pw to ra rd rdr wtr pid au] t tr].
    cbn [self _writer retry_attempts] in Hw, Hm. subst wtr.
    cbn [seq map connect_attempts]. unfold open_streams, asyncio_sleep.
    wp_auto.
    + (* the transport opened *)
      unfold connect_attempts_post. simpl_client. simpl_trace.
      do 5 (split; [reflexivity|]). split; [lia|]. split.
      { right. split; [reflexivity|]. split; [reflexivity|]. split; [lia|].
        exists (peer_closes E t). split; [reflexivity|]. intros Hc. now exists t. }
      exists 1%nat. cbn [attempts_with_pauses].
      split; [lia|]. split; [lia|]. split; [reflexivity|]. intros Hall _.
      destruct (Hall t) as (e & He & _). congruence.
    + (* a handled error, another attempt follows *)
      apply Z.ltb_lt in Heqb0. simpl_client.
      eapply wp_mono;
        [apply (IH (S i) (Some e)); cbn [self _writer retry_attempts]; auto; lia|].
      unfold connect_attempts_post. cbn [env self now trace].
      intros r w' (HE & Hcfg & Hpid & Hau & Hwr & Hcl & Hst & k & Hk & Hpos & Htr & Hfail).
      simpl_client. revert Htr Hwr Hcl Hst. simpl_trace. intros Htr Hwr Hcl Hst.
      do 5 (split; [assumption|]). split; [lia|]. split.
      { destruct Hst as [(? & ? & ?)|(? & ? & ? & ?)]; [left|right]; repeat split;
          auto; lia. }
      exists (S k). rewrite attempts_with_pauses_S by lia.
      split; [lia|]. split; [lia|]. split.
      * rewrite Htr, <- !app_assoc. reflexivity.
      * intros Hall _. destruct (Hfail Hall ltac:(lia)) as (-> & ? & ? & e' & ? & ?).
        repeat split; auto; try lia. eauto.
    + (* a handled error on the last attempt *)
      apply Z.ltb_ge in Heqb0.
      unfold connect_attempts_post. simpl_client. simpl_trace.
      do 5 (split; [reflexivity|]). split; [lia|]. split; [left; auto|].
      exists 1%nat. cbn [attempts_with_pauses].
      split; [lia|]. split; [lia|]. split; [reflexivity|]. intros Hall _.
      split; [lia|]. split; [reflexivity|]. split; [lia|].
      exists e. split; [reflexivity|]. now replace (S t - 1)%nat with t by lia.
    + (* an error the loop does not handle *)
      unfold connect_attempts_post. simpl_client. simpl_trace.
      do 5 (split; [reflexivity|]). split; [lia|]. split; [left; auto|].
      exists 1%nat. cbn [attempts_with_pauses].
      split; [lia|]. split; [lia|]. split; [reflexivity|]. intros Hall _.
      destruct (Hall t) as (e' & He & Hos). congruence.
Qed.

(** ** [connect] *)

Lemma connect_spec w : wp connect (connect_post w) w.
Proof.
  unfold connect, connect_post. cbv zeta. apply wp_bind, wp_get_self. cbv beta iota.
  destruct (is_connected (self w) && is_authenticated (self w)) eqn:Hcond.
  - (* already connected and authenticated *)
    assert (Hauth : is_authenticated (self w) = true)
      by (apply andb_true_iff in Hcond; tauto).
    apply wp_log. cbn [env self now trace is_Ok].
    simpl_trace.
    split; [reflexivity|]. split; [reflexivity|]. split; [exact I|].
    split; [unfold releases; cbn [self trace]; simpl_trace; lia|].
    split; [auto|]. split; [auto|].
    exists 0%nat. cbn [attempts_with_pauses]. rewrite app_nil_r.
    split; [lia|]. split; [reflexivity|]. congruence.
  - assert (Hauth : is_authenticated (self w) = false).
    { unfold is_authenticated in *. destruct (is_connected (self w));
        destruct (_authenticated (self w)); auto. }
    clear Hcond. rewrite Hauth.
    apply wp_bind. wp_call _close_connection_spec; [|destruct Hcall; discriminate].
    destruct Hcall as (_ & HE1 & Hs1 & Hw1 & Ha1 & Hc1 & He1).
    wp_step. wp_step. wp_step. wp_step.
    unfold range. apply wp_bind.
    eapply wp_mono;
      [apply (connect_attempts_spec (Z.to_nat (retry_attempts (self w') + 1)) 0);
       cbn [self]; rewrite Hs1; [reflexivity|cbn; lia]|].
    unfold connect_attempts_post. cbn [env self now trace].
    intros r w2 (HE2 & Hcfg & Hpid & Hau & Hwr & Hcl & Hst & k & Hk & _ & Htr & Hfail).
    rewrite Hs1 in Hcfg, Hpid, Hau, Hst, Hk, Htr, Hfail.
    rewrite HE1 in HE2, Hfail, Hst.
    revert Hwr Htr Hcl Hst. simpl_trace. rewrite Hw1, Ha1, Hc1, He1. intros Hwr Htr Hcl Hst.
    simpl_client.
    assert (Hk' : (k <= Z.to_nat (retry_attempts (self w) + 1))%nat) by exact Hk.
    assert (Hattempts :
      exists k0, (k0 <= Z.to_nat (retry_attempts (self w) + 1))%nat
        /\ attempts_of (trace w2)
           = attempts_of (trace w) ++ attempts_with_pauses (retry_delay (self w)) k0
        /\ (all_attempts_fail (env w) -> 0 <= retry_attempts (self w) ->
            k0 = Z.to_nat (retry_attempts (self w) + 1)
            /\ _writer (self w2) = None
            /\ exists e, r = Ok (Some e)
                         /\ open_connection (env w) (now w2 - 1) = OpenRaises e)).
    { exists k. split; [assumption|]. split; [assumption|]. intros Hall Hn.
      destruct (Hfail Hall ltac:(lia)) as (-> & Hw2 & _ & e & -> & He). eauto 6. }
    clear Hfail Hk Htr k Hk'.
    assert (Hpw : password (self w2) = password (self w)) by congruence.
    assert (Hcfg' : config (self w2) = config (self w)) by exact Hcfg.
    clear Hcfg.
    destruct r as [last|e].
    + apply wp_bind, wp_get_self. cbv beta iota. unfold is_connected.
      destruct Hst as [(Hw2 & Hr2 & Hest)|(_ & Hr2 & Hest & closing & Hw2 & Hhand)];
        rewrite Hw2, Hr2; cbn [negb is_closing]; [|destruct closing; cbn [negb]].
      * (* no transport: ConnectionError *)
        apply wp_raise.
        split; [assumption|]. split; [assumption|].
        split; [left; repeat split; assumption|].
        split; [unfold releases, held in *; rewrite Hw2; lia|].
        split; [discriminate|]. split; [left; auto|].
        destruct Hattempts as (k & Hk & Htr & Hfail). exists k.
        split; [assumption|]. split; [assumption|]. intros _ Hall Hn.
        destruct (Hfail Hall Hn) as (-> & _ & e & [= ->] & He). eauto.
      * (* the transport handed over is closing: ConnectionError *)
        apply wp_raise.
        split; [assumption|]. split; [assumption|].
        split; [right; split; [repeat split; assumption|split; [auto|eauto]]|].
        split; [unfold releases, held in *; rewrite Hw2; lia|].
        split; [discriminate|]. split; [left; auto|].
        destruct Hattempts as (k & Hk & Htr & Hfail). exists k.
        split; [assumption|]. split; [assumption|]. intros _ Hall Hn.
        destruct (Hfail Hall Hn) as (_ & Hnone & _). congruence.
      * (* the transport is open: authenticate *)
        assert (Hrel2 : releases w w2) by (unfold releases, held in *; rewrite Hw2; lia).
        wp_call _authenticate_spec;
          destruct Hcall as ((HE3 & Hcfg3 & Ha3) & Hrel3 & Hcall);
          unfold is_connected in Hcall;
          rewrite Hw2, Hr2, Hpid, Hpw in Hcall; cbn [negb is_closing] in Hcall;
          unfold config in *;
          (split; [congruence|]); (split; [congruence|]).
        { destruct Hcall as (_ & Hp3 & Hau3 & Hwr3).
          split; [exact I|]. split; [unfold releases in *; lia|].
          split; [discriminate|].
          split.
          { right. right. split; [assumption|].
            destruct (to_bytes _); [right; congruence|contradiction]. }
          destruct Hattempts as (k & Hk & Htr & Hfail). exists k.
          split; [assumption|]. split; [congruence|]. intros _ Hall Hn.
          destruct (Hfail Hall Hn) as (_ & Hnone & _). congruence. }
        { destruct Hcall as [(Hc & _)|(_ & Hd & Hp3 & Hwr3)]; [discriminate|].
          split; [auto|]. split; [unfold releases in *; lia|].
          split; [discriminate|].
          split.
          { right. right. split; [assumption|].
            destruct (to_bytes _);
              [destruct Hwr3; [left; split; [congruence|reflexivity]|right; congruence]
              |split; [congruence|reflexivity]]. }
          destruct Hattempts as (k & Hk & Htr & Hfail). exists k.
          split; [assumption|]. split; [congruence|]. intros _ Hall Hn.
          destruct (Hfail Hall Hn) as (_ & Hnone & _). congruence. }
    + (* the loop raised *)
      split; [assumption|]. split; [assumption|].
      destruct Hst as [(Hw2 & Hr2 & Hest)|(Hok & _)]; [|discriminate].
      split; [left; repeat split; assumption|].
      split; [unfold releases, held in *; rewrite Hw2; lia|].
      split; [discriminate|]. split; [left; auto|].
      destruct Hattempts as (k & Hk & Htr & Hfail). exists k.
      split; [assumption|]. split; [assumption|]. intros _ Hall Hn.
      destruct (Hfail Hall Hn) as (_ & _ & e' & [=] & _).
Qed.

(** ** What every call guarantees *)

Lemma request_in_weaken lo hi lo' hi' data :
  lo' <= lo -> hi <= hi' -> request_in lo hi data -> request_in lo' hi' data.
Proof.
  intros Hlo Hhi (p & Hp & Ht & Hid & Hw). exists p. repeat split; auto; lia.
Qed.

Lemma sends_fresh_ids_refl w w' :
  _packet_id (self w') = _packet_id (self w) ->
  writes (trace w') = writes (trace w) ->
  sends_fresh_ids w w'.
Proof.
  intros Hp Hw. split; [lia|]. exists []. rewrite app_nil_r. auto.
Qed.

Lemma sends_fresh_ids_trans w1 w2 w3 :
  sends_fresh_ids w1 w2 -> sends_fresh_ids w2 w3 -> sends_fresh_ids w1 w3.
Proof.
  intros (H12 & a12 & Hw12 & Hf12) (H23 & a23 & Hw23 & Hf23).
  split; [lia|]. exists (a12 ++ a23). split.
  - now rewrite Hw23, Hw12, app_assoc.
  - apply Forall_app. split.
    + eapply Forall_impl; [|exact Hf12]. intros d. apply request_in_weaken; lia.
    + eapply Forall_impl; [|exact Hf23]. intros d. apply request_in_weaken; lia.
Qed.

(** The id of what [to_bytes] wrote can be read back at offset 4. *)
Lemma to_bytes_int32_at p data :
  to_bytes p = Ok data -> int32_at data 4 = packet_id p.
Proof.
  unfold to_bytes. destruct (packet_type p) as [t|v]; [|discriminate].
  destruct (utf8_encode (payload p)) as [pb|]; [|discriminate].
  destruct (struct_pack_i (4 + 4 + len pb + 2)) as [b_len|] eqn:Hl; [|discriminate].
  destruct (struct_pack_i (packet_id p)) as [b_id|] eqn:Hi; [|discriminate].
  destruct (struct_pack_i (int t)) as [b_type|] eqn:Ht; [|discriminate].
  cbn [or_struct_error rbind]. intros [= <-].
  pose proof (struct_pack_i_length _ _ Hl) as Ll.
  pose proof (struct_pack_i_length _ _ Hi) as Li.
  apply struct_unpack_pack in Hi.
  assert (H4 : struct_unpack_i (slice (b_len ++ b_id ++ b_type ++ pb ++ [0; 0]) 4 8)
               = Some (packet_id p))
    by (rewrite (slice_app b_len b_id _ 4 8); auto; unfold len; lia).
  pose proof (unpack_slice (b_len ++ b_id ++ b_type ++ pb ++ [0; 0]) 4) as Hu.
  change (Z.of_nat 4 + 4) with 8 in Hu. change (Z.of_nat 4) with 4 in Hu.
  rewrite Hu in H4 by (rewrite !length_app; lia). congruence.
Qed.

Lemma request_in_sent lo (p : RconPacket) data :
  to_bytes p = Ok data ->
  packet_type p = Member AUTH_VALUE \/ packet_type p = Member COMMAND_VALUE ->
  packet_id p = lo + 1 ->
  request_in lo (lo + 1) data.
Proof.
  intros Hto Hty Hid. exists p. repeat split; auto; try lia.
  now apply to_bytes_int32_at.
Qed.

Lemma releases_refl w : releases w w.
Proof. reflexivity. Qed.

Lemma releases_trans w1 w2 w3 : releases w1 w2 -> releases w2 w3 -> releases w1 w3.
Proof. unfold releases. lia. Qed.

(** A log entry that is not [TcpEstablished] opens and closes nothing. *)
Lemma releases_logged w w' l m :
  m <> TcpEstablished ->
  releases w w' ->
  releases w (mkWorld (env w') (self w') (now w') (trace w' ++ [EvLog l m])).
Proof.
  unfold releases. cbn [self trace]. intros Hm H.
  rewrite closes_app, established_app. cbn [closes].
  assert (established [EvLog l m] = 0%nat) as ->
    by (destruct l, m; try reflexivity; contradiction).
  lia.
Qed.

Lemma connect_call w : wp connect (call_post w) w.
Proof.
  eapply wp_mono; [apply connect_spec|]. unfold connect_post, call_post.
  cbv zeta. intros r w' (HE & Hcfg & Hd & Hrel & Hearly & Hids & _).
  split; [assumption|]. split; [assumption|].
  split; [|split; [|assumption]].
  2:{ intros Hr. destruct r; [discriminate|].
      destruct Hd as [Hd|(Hh & Hc & _)]; auto. }
  destruct Hids as [(Hp & Hw & _)|[Ha|(Hp & Hw)]].
  - now apply sends_fresh_ids_refl.
  - destruct (Hearly Ha) as (_ & Hs & Hw & _).
    apply sends_fresh_ids_refl; congruence.
  - split; [lia|].
    destruct (to_bytes _) as [data|e] eqn:Hto.
    + destruct Hw as [[Hw _]|Hw].
      * exists []. rewrite app_nil_r. auto.
      * exists [data]. split; [assumption|]. constructor; [|constructor].
        rewrite Hp. eapply request_in_sent; [eassumption|now left|reflexivity].
    + destruct Hw as [Hw _]. exists []. rewrite app_nil_r. auto.
Qed.

Lemma call_post_refl {A} w (a : A) : call_post w (Ok a) w.
Proof.
  split; [reflexivity|]. split; [reflexivity|].
  split; [now apply sends_fresh_ids_refl|].
  split; [discriminate|apply releases_refl].
Qed.

Lemma call_post_trans {A B} w1 w2 w3 (r1 : result A) (r2 : result B) :
  call_post w1 r1 w2 -> call_post w2 r2 w3 -> call_post w1 r2 w3.
Proof.
  intros (HE1 & Hc1 & Hs1 & _ & Hr1) (HE2 & Hc2 & Hs2 & Hd & Hr2).
  split; [congruence|]. split; [congruence|].
  split; [eapply sends_fresh_ids_trans; eauto|].
  split; [|eapply releases_trans; eauto].
  intros Hr. destruct (Hd Hr) as [?|[? ?]]; [now left|right].
  split; [assumption|]. now rewrite <- HE1.
Qed.

(** A log entry changes nothing a call guarantees. *)
Lemma call_post_logged {A B} w w' (r : result A) (r' : result B) l m :
  m <> TcpEstablished ->
  call_post w r w' -> (is_Ok r' = false -> is_Ok r = false) ->
  call_post w r' (mkWorld (env w') (self w') (now w') (trace w' ++ [EvLog l m])).
Proof.
  intros Hm (HE & Hc & (Hp & added & Hw & Hf) & Hd & Hrel) Hr.
  split; [assumption|]. split; [assumption|].
  split; [|split; [auto|now apply releases_logged]].
  split; [assumption|]. exists added. cbn [trace self].
  rewrite writes_app. cbn [writes]. rewrite app_nil_r. auto.
Qed.

Lemma ensure_connected_call w :
  wp (when (negb (is_authenticated (self w))) connect) (call_post w) w.
Proof.
  unfold when. destruct (is_authenticated (self w)); cbn [negb].
  - apply wp_ret, call_post_refl.
  - apply connect_call.
Qed.

Lemma sends_at_most_one w w' (p : RconPacket) :
  _packet_id (self w') = _packet_id (self w) + 1 ->
  packet_type p = Member AUTH_VALUE \/ packet_type p = Member COMMAND_VALUE ->
  packet_id p = _packet_id (self w) + 1 ->
  (writes (trace w') = writes (trace w)
   \/ exists data, to_bytes p = Ok data
                   /\ writes (trace w') = writes (trace w) ++ [data]) ->
  sends_fresh_ids w w'.
Proof.
  intros Hp Hty Hid Hw. split; [lia|].
  destruct Hw as [Hw|(data & Hto & Hw)].
  - exists []. rewrite app_nil_r. auto.
  - exists [data]. split; [assumption|]. constructor; [|constructor].
    rewrite Hp. now apply (request_in_sent _ p).
Qed.

(** What an equation on the client says of each attribute. *)
Ltac self_facts :=
  repeat match goal with
  | H : self ?x = _ |- _ =>
      pose proof (f_equal _packet_id H);
      pose proof (f_equal config H);
      pose proof (f_equal _writer H);
      pose proof (f_equal _reader H);
      pose proof (f_equal _authenticated H);
      clear H
  end;
  simpl_client.

Ltac simpl_trace_all :=
  rewrite ?writes_app, ?attempts_of_app in *;
  cbn [writes attempts_of is_Ok] in *;
  rewrite ?app_nil_r in *.

(** The balance of transports opened, closed and held. *)
Ltac balance :=
  unfold releases, held in *; cbn [self trace] in *;
  rewrite ?closes_app, ?established_app in *;
  cbn [closes established] in *;
  repeat match goal with
  | H : _writer ?c = _ |- _ => rewrite H in *; clear H
  end;
  simpl_client; lia.

(** The exchange of one command, from the allocation of its id on. *)
Lemma command_exchange_call command w :
  wp (packet_id <- _get_next_packet_id ;;
      let command_packet := create_command_packet packet_id command in
      log DEBUG (Executing command) ;;
      try_except
        (response_packet <- _send_packet_and_wait_response command_packet ;;
         when (negb (RconProtocol.packet_id response_packet =? packet_id))
              (log WARNING (ResponseIdMismatch_warning
                              packet_id (RconProtocol.packet_id response_packet))) ;;
         log DEBUG (CommandDone (len (payload response_packet))) ;;
         ret (payload response_packet))
        (fun e =>
           E <- get_env ;;
           if is_asyncio_TimeoutError E e then
             log ERROR (CommandTimeout command) ;; _close_connection ;; raise e
           else
             log ERROR (CommandError command e) ;; _close_connection ;; raise e))
     (call_post w) w.
Proof.
  destruct w as [E [h p pw to ra rd rdr wtr pid au] t tr].
  unfold _get_next_packet_id. cbv zeta.
  wp_auto.
  wp_call _send_packet_and_wait_response_spec; wp_auto;
    try (wp_call _close_connection_spec; wp_auto);
    use_calls; unfold call_post; cbn [env self now trace] in *;
    self_facts; simpl_trace_all;
    (split; [congruence|]); (split; [congruence|]);
    (split;
     [apply (sends_at_most_one _ _ (create_command_packet (pid + 1) command));
      cbn [self trace _packet_id]; simpl_trace_all;
      [congruence|now right|reflexivity|
       first [left; congruence | right; eexists; split; [eassumption|congruence]]]
     |split;
      [first [discriminate
             | intros _; left; unfold Disconnected; repeat split; congruence]
      |balance]]).
Qed.

Lemma execute_command_call command w :
  wp (execute_command command) (call_post w) w.
Proof.
  unfold execute_command. apply wp_bind, wp_get_self. cbv beta iota.
  apply wp_bind. eapply wp_mono; [apply ensure_connected_call|].
  intros [[]|e] w1 H1; [|exact H1].
  eapply wp_mono; [apply command_exchange_call|].
  intros r w2 H2. exact (call_post_trans _ _ _ _ _ H1 H2).
Qed.

Lemma ping_call w : wp ping (call_post w) w.
Proof.
  unfold ping. apply wp_bind, wp_get_self. cbv beta iota.
  apply wp_bind. eapply wp_mono; [apply ensure_connected_call|].
  intros [[]|e] w1 H1; [|exact H1].
  apply wp_bind, wp_get_time. cbv beta iota.
  apply wp_try, wp_bind.
  eapply wp_mono; [apply execute_command_call|].
  intros [out|e] w2 H2.
  - apply wp_bind, wp_get_time. cbv beta iota.
    apply wp_bind, wp_log. cbv beta iota. apply wp_ret.
    apply (call_post_trans _ _ _ _ _ H1).
    apply (call_post_logged _ _ (Ok out)); [discriminate|assumption|discriminate].
  - apply wp_bind, wp_log. cbv beta iota. apply wp_raise.
    apply (call_post_trans _ _ _ _ _ H1).
    apply (call_post_logged _ _ (Raise (A := str) e));
      [discriminate|assumption|reflexivity].
Qed.

Lemma disconnect_call w : wp disconnect (call_post w) w.
Proof.
  unfold disconnect. apply wp_bind.
  wp_call _close_connection_spec; [|destruct Hcall; discriminate].
  destruct Hcall as (_ & HE & Hs & Hw & _ & Hc & He).
  apply wp_log. split; [assumption|]. split; [now rewrite Hs|].
  split; [|split; [discriminate|]].
  - apply sends_fresh_ids_refl; cbn [self trace];
      [now rewrite Hs|now rewrite writes_app, app_nil_r].
  - apply releases_logged; [discriminate|].
    unfold releases, held in *. rewrite Hs. simpl_client. lia.
Qed.

(** ** Runs *)

Lemma wp_run {A} (m : M A) Q w r w' : wp m Q w -> m w = (r, w') -> Q r w'.
Proof. unfold wp. intros H E. now rewrite E in H. Qed.



(** A caller's session never lowers the counter and writes only requests
    whose ids were allocated during it. *)
Lemma perform_sends_fresh_ids c w : sends_fresh_ids w (perform c w).
Proof.
  destruct c as [| |command|]; cbn [perform].
  - apply (connect_call w).
  - apply (disconnect_call w).
  - apply (execute_command_call command w).
  - apply (ping_call w).
Qed.

Lemma session_sends_fresh_ids calls :
  forall w0 w, sends_fresh_ids w0 w -> sends_fresh_ids w0 (session calls w).
Proof.
  induction calls as [|c calls IH]; intros w0 w H; cbn [session fold_left]; auto.
  apply IH. eapply sends_fresh_ids_trans; [exact H|apply perform_sends_fresh_ids].
Qed.

(** C10: the counter is 0 at construction; an allocation adds one to it
    and returns the new value; no call of a caller, failed or not, lowers
    it; so after any session of a freshly constructed client the counter is
    not negative, the next id allocated is at least 1, and every buffer
    written to the transport is an Auth or Command packet whose id is at
    least 1, hence not -1. *)
Theorem request_ids_are_positive :
  (forall h p pw to ra rd, _packet_id (__init__ h p pw to ra rd) = 0)
  /\ (forall w,
        fst (_get_next_packet_id w) = Ok (_packet_id (self w) + 1)
        /\ _packet_id (self (snd (_get_next_packet_id w))) = _packet_id (self w) + 1)
  /\ (forall c w, _packet_id (self w) <= _packet_id (self (perform c w)))
  /\ (forall E h p pw to ra rd t calls,
        let w := session calls (mkWorld E (__init__ h p pw to ra rd) t []) in
        0 <= _packet_id (self w)
        /\ (exists n, fst (_get_next_packet_id w) = Ok n /\ 1 <= n)
        /\ Forall request_with_positive_id (writes (trace w))
        /\ Forall (fun data => int32_at data 4 <> -1) (writes (trace w))).
Proof.
  split; [reflexivity|]. split; [intros w; split; reflexivity|].
  split; [intros c w; apply (perform_sends_fresh_ids c w)|].
  intros E h p pw to ra rd t calls w.
  destruct (session_sends_fresh_ids calls
              (mkWorld E (__init__ h p pw to ra rd) t [])
              (mkWorld E (__init__ h p pw to ra rd) t []))
    as (Hp & added & Hw & Hf).
  { apply sends_fresh_ids_refl; reflexivity. }
  fold w in Hp, Hw, Hf. cbn [self trace __init__ _packet_id writes app] in Hp, Hw, Hf.
  split; [assumption|]. split; [exists (_packet_id (self w) + 1); split; [reflexivity|lia]|].
  rewrite Hw. split.
  - eapply Forall_impl; [|exact Hf].
    intros data (q & Hq & Hty & Hid & Hat). exists q. repeat split; auto; lia.
  - eapply Forall_impl; [|exact Hf].
    intros data (q & Hq & Hty & Hid & Hat). lia.
Qed.

(** ** Authentication *)

Lemma _authenticate_result w resp w2 :
  is_connected (self w) = true ->
  _send_packet_and_wait_response
    (create_auth_packet (_packet_id (self w) + 1) (password (self w)))
    (ready_to_send w SendingAuth) = (Ok resp, w2) ->
  wp _authenticate
     (fun r w' =>
        r = (if packet_id resp =? -1
             then Raise (AuthenticationError WrongPassword)
             else if negb (packet_id resp =? _packet_id (self w) + 1)
                  then Raise (AuthenticationError ResponseIdMismatch)
                  else Ok tt)) w.
Proof.
  intros Hconn Hsend. unfold _authenticate, _get_next_packet_id.
  apply wp_bind, wp_get_self. cbv beta iota. rewrite Hconn. cbn [negb].
  wp_steps.
  change (_packet_id (set_packet_id (_packet_id (self w) + 1) (self w)))
    with (_packet_id (self w) + 1).
  unfold wp at 1.
  change (mkWorld (env w) (set_packet_id (_packet_id (self w) + 1) (self w))
                  (now w) (trace w ++ [EvLog DEBUG SendingAuth]))
    with (ready_to_send w SendingAuth).
  rewrite Hsend. cbn [fst snd].
  destruct (packet_id resp =? -1);
    [|destruct (negb (packet_id resp =? _packet_id (self w) + 1))];
    wp_auto; try reflexivity;
    (wp_call _close_connection_spec; [|destruct Hcall; discriminate]);
    wp_auto; reflexivity.
Qed.

(** C5: when the response to the Auth packet has id -1, [_authenticate]
    raises [AuthenticationError] with the wrong-password message, whatever
    the id of the request; when it has another id that differs from the
    request's, it raises [AuthenticationError] with the id-mismatch message,
    a different one; when it has the id of the request (and that is not
    -1), the method returns and the client is marked authenticated.  Both
    failures leave the client disconnected, and a client that is
    authenticated after the method ran received a response bearing the id
    of its request. *)
Theorem authentication_checks_sentinel_first w resp w2 :
  is_connected (self w) = true ->
  _send_packet_and_wait_response
    (create_auth_packet (_packet_id (self w) + 1) (password (self w)))
    (ready_to_send w SendingAuth) = (Ok resp, w2) ->
  let request_id := _packet_id (self w) + 1 in
  (packet_id resp = -1 ->
   fst (_authenticate w) = Raise (AuthenticationError WrongPassword)
   /\ Disconnected (self (snd (_authenticate w))))
  /\ (packet_id resp <> -1 -> packet_id resp <> request_id ->
      fst (_authenticate w) = Raise (AuthenticationError ResponseIdMismatch)
      /\ Disconnected (self (snd (_authenticate w))))
  /\ (packet_id resp <> -1 -> packet_id resp = request_id ->
      fst (_authenticate w) = Ok tt
      /\ _authenticated (self (snd (_authenticate w))) = true)
  /\ (is_authenticated (self (snd (_authenticate w))) = true ->
      packet_id resp = request_id /\ packet_id resp <> -1)
  /\ AuthenticationError WrongPassword <> AuthenticationError ResponseIdMismatch.
Proof.
  intros Hconn Hsend request_id.
  pose proof (_authenticate_result w resp w2 Hconn Hsend) as Hres.
  pose proof (_authenticate_spec w) as Hspec.
  unfold wp in Hres, Hspec. fold request_id in Hres.
  destruct (_authenticate w) as [r w'] eqn:Hrun. cbn [fst snd] in *.
  destruct Hspec as (_ & _ & Hspec).
  assert (Hfail : is_Ok r = false -> Disconnected (self w')).
  { destruct r; [discriminate|]. intros _.
    destruct Hspec as [(Hc & _)|(_ & Hd & _)]; [congruence|assumption]. }
  split; [|split; [|split; [|split]]].
  - intros Hm. rewrite Hm in Hres. cbn in Hres. subst r. auto.
  - intros Hm Hne. apply Z.eqb_neq in Hm, Hne. rewrite Hm, Hne in Hres.
    cbn in Hres. subst r. auto.
  - intros Hm He. apply Z.eqb_neq in Hm. apply Z.eqb_eq in He.
    rewrite Hm, He in Hres. cbn in Hres. subst r.
    split; [reflexivity|]. now destruct Hspec as (_ & _ & Ha & _).
  - intros Ha. destruct r as [[]|e].
    + destruct (Z.eqb_spec (packet_id resp) (-1)); [discriminate|].
      destruct (Z.eqb_spec (packet_id resp) request_id); [auto|discriminate].
    + destruct (Disconnected_not_connected _ (Hfail eq_refl)). congruence.
  - discriminate.
Qed.

(** ** Commands *)

(** C6: on an authenticated client, when the exchange returns a response,
    [execute_command] returns its payload whatever its id; a response whose
    id is not the request's is reported by a warning in the log, and the
    connection is left as the exchange left it. *)
Theorem command_response_id_mismatch_is_tolerated w command resp w2 :
  is_authenticated (self w) = true ->
  _send_packet_and_wait_response
    (create_command_packet (_packet_id (self w) + 1) command)
    (ready_to_send w (Executing command)) = (Ok resp, w2) ->
  let request_id := _packet_id (self w) + 1 in
  fst (execute_command command w) = Ok (payload resp)
  /\ self (snd (execute_command command w)) = self w2
  /\ (packet_id resp <> request_id ->
      In (EvLog WARNING (ResponseIdMismatch_warning request_id (packet_id resp)))
         (trace (snd (execute_command command w))))
  /\ (packet_id resp = request_id ->
      trace (snd (execute_command command w))
      = trace w2 ++ [EvLog DEBUG (CommandDone (len (payload resp)))]).
Proof.
  intros Hauth Hsend request_id.
  change (wp (execute_command command)
            (fun r w' =>
               r = Ok (payload resp) /\ self w' = self w2
               /\ (packet_id resp <> request_id ->
                   In (EvLog WARNING
                         (ResponseIdMismatch_warning request_id (packet_id resp)))
                      (trace w'))
               /\ (packet_id resp = request_id ->
                   trace w'
                   = trace w2 ++ [EvLog DEBUG (CommandDone (len (payload resp)))])) w).
  unfold execute_command, _get_next_packet_id, when.
  apply wp_bind, wp_get_self. cbv beta iota. rewrite Hauth. cbn [negb].
  wp_steps.
  change (_packet_id (set_packet_id (_packet_id (self w) + 1) (self w)))
    with request_id.
  unfold wp at 1.
  change (mkWorld (env w) (set_packet_id (_packet_id (self w) + 1) (self w))
                  (now w) (trace w ++ [EvLog DEBUG (Executing command)]))
    with (ready_to_send w (Executing command)).
  fold request_id in Hsend. rewrite Hsend. cbn [fst snd].
  destruct (Z.eqb_spec (packet_id resp) request_id) as [He|Hne]; cbn [negb];
    wp_auto; (split; [reflexivity|]); (split; [reflexivity|]); split;
    try contradiction; try reflexivity; intros _.
  rewrite <- app_assoc. apply in_or_app. right. now left.
Qed.

(** ** Oversized payloads *)

(** C9: a packet whose payload, encoded to UTF-8, does not fit with the
    ten bytes of id, kind and terminator in a signed 32-bit length makes
    [to_bytes] fail, with [struct.error] raised by the packing of the length
    when the kind is valid; and [_send_packet_and_wait_response] then raises
    without having written anything to the transport. *)
Theorem oversized_payload_is_rejected p payload_bytes :
  utf8_encode (payload p) = Some payload_bytes ->
  INT32_MAX < 4 + 4 + len payload_bytes + 2 ->
  is_Ok (to_bytes p) = false
  /\ (forall t, packet_type p = Member t -> to_bytes p = Raise struct_error)
  /\ (forall w,
        is_Ok (fst (_send_packet_and_wait_response p w)) = false
        /\ writes (trace (snd (_send_packet_and_wait_response p w)))
           = writes (trace w)).
Proof.
  intros Hs Hlen.
  assert (Hpack : struct_pack_i (4 + 4 + len payload_bytes + 2) = None).
  { unfold struct_pack_i, in_int32.
    destruct (Z.leb_spec (4 + 4 + len payload_bytes + 2) INT32_MAX); [lia|].
    now rewrite andb_false_r. }
  assert (Hto : forall t, packet_type p = Member t -> to_bytes p = Raise struct_error).
  { intros t Ht. unfold to_bytes. now rewrite Ht, Hs, Hpack. }
  assert (Hfail : is_Ok (to_bytes p) = false).
  { destruct (packet_type p) as [t|v] eqn:Ht.
    - now rewrite (Hto t eq_refl).
    - unfold to_bytes. now rewrite Ht. }
  split; [assumption|]. split; [assumption|]. intros w.
  pose proof (_send_packet_and_wait_response_spec p w) as Hspec.
  unfold wp in Hspec. destruct Hspec as (_ & _ & Hspec).
  destruct (to_bytes p); [discriminate|]. destruct Hspec. auto.
Qed.

(** ** Connection attempts *)

Lemma opens_app a b : opens (a ++ b) = (opens a + opens b)%nat.
Proof. unfold opens. now rewrite filter_app, length_app. Qed.

Lemma opens_attempts_of tr : opens (attempts_of tr) = opens tr.
Proof.
  induction tr as [|[] tr IH]; cbn [attempts_of]; auto;
    change (opens (?x :: ?l)) with (opens ([x] ++ l)); rewrite !opens_app;
    now rewrite IH.
Qed.

Lemma opens_attempts_with_pauses d k : opens (attempts_with_pauses d k) = k.
Proof.
  induction k as [|[|k] IH]; try reflexivity.
  change (attempts_with_pauses d (S (S k)))
    with ([EvOpen; EvSleep d] ++ attempts_with_pauses d (S k)).
  rewrite opens_app, IH. reflexivity.
Qed.

Lemma _close_connection_now w :
  wp _close_connection
     (fun r w' =>
        r = Ok tt /\ env w' = env w /\ self w' = closed (self w)
        /\ now w' = (now w + held (self w))%nat
        /\ attempts_of (trace w') = attempts_of (trace w)) w.
Proof.
  destruct w as [E [h p pw to ra rd rdr wtr pid au] t tr].
  unfold _close_connection, writer_close, writer_wait_closed, held.
  wp_steps. simpl_client.
  destruct wtr as [wtr|]; wp_steps; simpl_client.
  - destruct (wait_closed E t); wp_steps; simpl_client;
      destruct rdr; wp_steps; simpl_client; simpl_trace; repeat split; lia.
  - destruct rdr; wp_steps; simpl_client; simpl_trace; repeat split; lia.
Qed.

(** The loop of [connect] when, after [j] handled failures, an attempt
    fails with an error the loop does not handle. *)
Lemma connect_attempts_until_unhandled e j :
  forall i m last w,
    _writer (self w) = None -> (j < m)%nat ->
    Z.of_nat (i + j) <= retry_attempts (self w) ->
    handled_failures (env w) (now w) j ->
    open_connection (env w) (now w + 2 * j) = OpenRaises e ->
    is_OSError (env w) e = false ->
    wp (connect_attempts (map Z.of_nat (seq i m)) last)
       (fun r w' =>
          r = Raise e /\ self w' = self w
          /\ attempts_of (trace w')
             = attempts_of (trace w)
               ++ attempts_with_pauses (retry_delay (self w)) (S j)) w.
Proof.
  induction j as [|j IH]; intros i m last w Hw Hm Hra Hfail Hopen Hos;
    (destruct m as [|m]; [lia|]);
    destruct w as [E [h p pw to ra rd rdr wtr pid au] t tr];
    cbn [env self now _writer retry_attempts retry_delay] in *; subst wtr;
    cbn [seq map connect_attempts]; unfold open_streams, asyncio_sleep.
  - replace (t + 2 * 0)%nat with t in Hopen by lia.
    repeat first [wp_step | rewrite Hopen | rewrite Hos | progress cbv beta iota].
    simpl_client. simpl_trace. repeat split.
  - destruct (Hfail 0%nat ltac:(lia)) as (e0 & He0 & Hos0).
    replace (t + 2 * 0)%nat with t in He0 by lia.
    assert (Hlt : (Z.of_nat i <? ra) = true) by (apply Z.ltb_lt; lia).
    repeat first [wp_step | rewrite He0 | rewrite Hos0 | rewrite Hlt
                 | progress simpl_client | progress cbv beta iota].
    eapply wp_mono.
    + apply (IH (S i) m (Some e0)); cbn [env self now _writer retry_attempts];
        [reflexivity|lia|lia| | |assumption].
      * intros k Hk. destruct (Hfail (S k) ltac:(lia)) as (e' & He' & Hos').
        exists e'. split; [|assumption]. rewrite <- He'. f_equal. lia.
      * rewrite <- Hopen. f_equal. lia.
    + cbn [env self now trace retry_delay]. intros r w' (Hr & Hs & Hat).
      split; [assumption|]. split; [assumption|].
      revert Hat. simpl_trace. intros Hat.
      rewrite Hat, <- !app_assoc.
      rewrite (attempts_with_pauses_S _ (S j)) by lia. reflexivity.
Qed.

Lemma connect_unhandled w j e :
  is_authenticated (self w) = false ->
  Z.of_nat j <= retry_attempts (self w) ->
  handled_failures (env w) (now w + held (self w)) j ->
  open_connection (env w) (now w + held (self w) + 2 * j) = OpenRaises e ->
  is_OSError (env w) e = false ->
  wp connect
     (fun r w' =>
        r = Raise e /\ Disconnected (self w')
        /\ attempts_of (trace w')
           = attempts_of (trace w)
             ++ attempts_with_pauses (retry_delay (self w)) (S j)) w.
Proof.
  intros Hau Hj Hfail Hopen Hos.
  unfold connect. apply wp_bind, wp_get_self. cbv beta iota.
  rewrite Hau, andb_false_r.
  apply wp_bind. wp_call _close_connection_now; [|destruct Hcall; discriminate].
  destruct Hcall as (_ & HE1 & Hs1 & Hn1 & Ha1).
  wp_steps. unfold range.
  eapply wp_mono.
  - apply (connect_attempts_until_unhandled e j 0); cbn [env self now];
      rewrite ?Hs1, ?HE1, ?Hn1; simpl_client; try reflexivity; try assumption; lia.
  - cbn [env self now trace]. intros r w2 (-> & Hs2 & Hat2).
    split; [reflexivity|]. rewrite Hs2, Hs1. split; [apply Disconnected_closed|].
    revert Hat2. simpl_trace. rewrite Ha1, Hs1. simpl_client. auto.
Qed.

Lemma all_attempts_fail_hand_over_nothing E :
  all_attempts_fail E -> ~ hands_over_closing E.
Proof. intros Hall (t & Ho & _). destruct (Hall t) as (e & He & _). congruence. Qed.

(** C4, as amended: [connect] makes at most [retry_attempts + 1] attempts
    to open the transport, each but the first preceded by a pause of
    [retry_delay].  When the client is not already authenticated and every
    attempt fails with an error the loop handles ([socket.timeout],
    [ConnectionRefusedError] or another [OSError], which from Python 3.11
    on includes [asyncio.TimeoutError]), it makes exactly
    [retry_attempts + 1] attempts and raises [ConnectionError] carrying the
    error of the last one, leaving the client disconnected; with
    [retry_attempts = 2] and a peer that refuses every connection that is
    three attempts.  An attempt that fails with any other error (before
    Python 3.11, the [asyncio.TimeoutError] of an attempt that timed out)
    is the last: [connect] raises that error itself, without a further
    attempt, and leaves the client disconnected. *)
Theorem connect_retry_bound w r w' :
  connect w = (r, w') -> 0 <= retry_attempts (self w) ->
  exists k,
    Z.of_nat k <= retry_attempts (self w) + 1
    /\ attempts_of (trace w')
       = attempts_of (trace w) ++ attempts_with_pauses (retry_delay (self w)) k
    /\ opens (trace w') = (opens (trace w) + k)%nat
    /\ (is_authenticated (self w) = false -> all_attempts_fail (env w) ->
        Z.of_nat k = retry_attempts (self w) + 1
        /\ Disconnected (self w')
        /\ exists e, r = Raise (ConnectionError CannotConnect (Some e))
                     /\ open_connection (env w) (now w' - 1) = OpenRaises e)
    /\ (is_authenticated (self w) = false -> retry_attempts (self w) = 2 ->
        (forall t, open_connection (env w) t = OpenRaises ConnectionRefusedError) ->
        k = 3%nat
        /\ r = Raise (ConnectionError CannotConnect (Some ConnectionRefusedError))
        /\ Disconnected (self w'))
    /\ (is_authenticated (self w) = false ->
        forall j e,
          Z.of_nat j <= retry_attempts (self w) ->
          handled_failures (env w) (now w + held (self w)) j ->
          open_connection (env w) (now w + held (self w) + 2 * j) = OpenRaises e ->
          is_OSError (env w) e = false ->
          k = S j /\ r = Raise e /\ Disconnected (self w')).
Proof.
  intros Hrun Hn.
  destruct (wp_run _ _ _ _ _ (connect_spec w) Hrun)
    as (_ & _ & Hd & _ & _ & _ & k & Hk & Htr & Hfail).
  assert (Hopens : opens (trace w') = (opens (trace w) + k)%nat).
  { rewrite <- (opens_attempts_of (trace w')), Htr, opens_app,
      opens_attempts_of, opens_attempts_with_pauses. reflexivity. }
  assert (Hdis : all_attempts_fail (env w) -> is_Ok r = false ->
                 Disconnected (self w')).
  { intros Hall Hr. destruct r; [discriminate|].
    destruct Hd as [Hd|(_ & Hh & _)]; [assumption|].
    now apply all_attempts_fail_hand_over_nothing in Hall. }
  exists k. split; [lia|]. split; [assumption|]. split; [assumption|].
  split; [|split].
  - intros Ha Hall. destruct (Hfail Ha Hall Hn) as (-> & e & -> & He).
    split; [lia|]. split; [now apply Hdis|]. eauto.
  - intros Ha H2 Hall.
    assert (Hall' : all_attempts_fail (env w))
      by (intros t; exists ConnectionRefusedError; split; [apply Hall|reflexivity]).
    destruct (Hfail Ha Hall' Hn) as (-> & e & -> & He).
    rewrite Hall in He. injection He as <-.
    rewrite H2. split; [reflexivity|]. split; [reflexivity|]. now apply Hdis.
  - intros Ha j e Hj Hhandled Hopen Hos.
    destruct (wp_run _ _ _ _ _ (connect_unhandled w j e Ha Hj Hhandled Hopen Hos) Hrun)
      as (-> & Hdisc & Hat).
    split; [|auto].
    assert (Hc : opens (trace w') = (opens (trace w) + S j)%nat).
    { rewrite <- (opens_attempts_of (trace w')), Hat, opens_app,
        opens_attempts_of, opens_attempts_with_pauses. reflexivity. }
    lia.
Qed.

(** ** The counter across connections *)

(** C2, as amended: the counter belongs to the client object, not to a
    connection.  It is 0 at construction, so the first id a fresh client
    allocates is 1; [disconnect] leaves it alone; [connect] never lowers or
    resets it, and a [connect] that establishes and authenticates a new
    connection adds one to it and sends the Auth packet with the new
    value. *)
Theorem request_id_counter_outlives_connections :
  (forall E h p pw to ra rd t tr,
      fst (_get_next_packet_id (mkWorld E (__init__ h p pw to ra rd) t tr)) = Ok 1)
  /\ (forall w, _packet_id (self (snd (disconnect w))) = _packet_id (self w))
  /\ (forall w r w',
        connect w = (r, w') ->
        _packet_id (self w) <= _packet_id (self w') <= _packet_id (self w) + 1
        /\ (r = Ok tt -> is_authenticated (self w) = false ->
            _packet_id (self w') = _packet_id (self w) + 1
            /\ exists data,
                 to_bytes (create_auth_packet (_packet_id (self w) + 1)
                                              (password (self w))) = Ok data
                 /\ writes (trace w') = writes (trace w) ++ [data]
                 /\ int32_at data 4 = _packet_id (self w) + 1)).
Proof.
  split; [reflexivity|]. split.
  - intros w. pose proof (disconnect_call w) as (_ & _ & (Hle & _) & _).
    pose proof (_close_connection_spec w) as Hc. unfold wp in Hc.
    unfold disconnect, bind, log, emit.
    destruct (_close_connection w) as [[[]|e] w1]; cbn [fst snd self] in *;
      destruct Hc as (_ & _ & -> & _); reflexivity.
  - intros w r w' Hrun.
    destruct (wp_run _ _ _ _ _ (connect_spec w) Hrun)
      as (_ & _ & _ & _ & Hearly & Hids & _).
    destruct Hids as [(Hp & Hw & Hr)|[Ha|(Hp & Hw)]].
    + split; [lia|]. intros -> _. discriminate.
    + destruct (Hearly Ha) as (_ & -> & _). split; [lia|]. congruence.
    + split; [lia|]. intros -> _. split; [assumption|].
      destruct (to_bytes _) as [data|e] eqn:Hto.
      * destruct Hw as [[_ Hr]|Hw]; [discriminate|].
        exists data. repeat split; auto. now apply to_bytes_int32_at in Hto.
      * destruct Hw. discriminate.
Qed.

(** ** The scenarios *)



Lemma connect_retry_bound_witness :
  opens (trace (snd (connect (start refusing_peer)))) = 3%nat
  /\ fst (connect (start refusing_peer))
     = Raise (ConnectionError CannotConnect (Some ConnectionRefusedError))
  /\ Disconnected (self (snd (connect (start refusing_peer)))).
Proof.
  destruct (connect_retry_bound (start refusing_peer)
              (fst (connect (start refusing_peer)))
              (snd (connect (start refusing_peer))))
    as (k & _ & _ & Hopens & _ & Hthree & _).
  - apply surjective_pairing.
  - vm_compute. discriminate.
  - destruct Hthree as (-> & Hr & Hd); try reflexivity.
    split; [exact Hopens|]. split; assumption.
Defined.

(** C4, as stated, fails: seen from an interpreter older than Python 3.11,
    a peer that lets every attempt time out makes every attempt of a client
    with [retry_attempts = 2] fail, yet [connect] makes one attempt, not
    three, and raises [asyncio.TimeoutError], not [ConnectionError]. *)
Lemma timeout_is_not_retried_before_3_11 :
  (forall t, open_connection unreachable_peer_before_3_11 t
             = OpenRaises asyncio_TimeoutError)
  /\ retry_attempts fresh_client = 2
  /\ opens (trace (snd (connect (start unreachable_peer_before_3_11)))) = 1%nat
  /\ fst (connect (start unreachable_peer_before_3_11)) = Raise asyncio_TimeoutError
  /\ forall cause, fst (connect (start unreachable_peer_before_3_11))
                   <> Raise (ConnectionError CannotConnect cause).
Proof.
  split; [reflexivity|]. split; [reflexivity|]. split; [reflexivity|].
  split; [reflexivity|]. intros cause. vm_compute. discriminate.
Qed.

(** C2, as stated, fails: a client that connects, disconnects and connects
    again sends the Auth packet of its second connection with the id 2, and
    the id it allocates next is 3. *)
Lemma reconnect_does_not_reset_counter :
  fst (reconnect (start accepts_twice)) = Ok tt
  /\ map (fun data => int32_at data 4)
         (writes (trace (snd (reconnect (start accepts_twice))))) = [1; 2]
  /\ map (fun data => int32_at data 8)
         (writes (trace (snd (reconnect (start accepts_twice))))) = [3; 3]
  /\ fst (_get_next_packet_id (snd (reconnect (start accepts_twice)))) = Ok 3.
Proof. vm_compute. repeat split. Qed.

Lemma request_id_counter_outlives_connections_witness :
  _packet_id (self (snd (connect (snd (disconnect (snd (connect (start accepts_twice))))))))
  = _packet_id (self (snd (disconnect (snd (connect (start accepts_twice)))))) + 1
  /\ _packet_id (self (snd (disconnect (snd (connect (start accepts_twice))))))
     = _packet_id (self (snd (connect (start accepts_twice)))).
Proof.
  destruct request_id_counter_outlives_connections as (_ & Hdis & Hcon).
  split; [|apply Hdis].
  destruct (Hcon (snd (disconnect (snd (connect (start accepts_twice)))))
              (fst (connect (snd (disconnect (snd (connect (start accepts_twice)))))))
              (snd (connect (snd (disconnect (snd (connect (start accepts_twice))))))))
    as (_ & H).
  - apply surjective_pairing.
  - apply H; vm_compute; reflexivity.
Defined.

Lemma authentication_checks_sentinel_first_witness :
  fst (_authenticate (mkWorld rejects_password connected_client 1 []))
  = Raise (AuthenticationError WrongPassword)
  /\ Disconnected
       (self (snd (_authenticate (mkWorld rejects_password connected_client 1 [])))).
Proof.
  destruct (authentication_checks_sentinel_first
              (mkWorld rejects_password connected_client 1 [])
              (ResponsePacket (-1) [])
              (snd (_send_packet_and_wait_response
                      (create_auth_packet 1 [112; 119])
                      (ready_to_send (mkWorld rejects_password connected_client 1 [])
                                     SendingAuth)))) as (H & _).
  - vm_compute. reflexivity.
  - vm_compute. reflexivity.
  - apply H. reflexivity.
Defined.

Lemma command_response_id_mismatch_is_tolerated_witness :
  fst (execute_command [108]
         (mkWorld answers_with_other_id authenticated_client 0 []))
  = Ok [111; 107]
  /\ In (EvLog WARNING (ResponseIdMismatch_warning 2 99))
        (trace (snd (execute_command [108]
                       (mkWorld answers_with_other_id authenticated_client 0 [])))).
Proof.
  destruct (command_response_id_mismatch_is_tolerated
              (mkWorld answers_with_other_id authenticated_client 0 [])
              [108]
              (ResponsePacket 99 [111; 107])
              (snd (_send_packet_and_wait_response
                      (create_command_packet 2 [108])
                      (ready_to_send
                         (mkWorld answers_with_other_id authenticated_client 0 [])
                         (Executing [108]))))) as (Hr & _ & Hlog & _).
  - vm_compute. reflexivity.
  - vm_compute. reflexivity.
  - split; [exact Hr|]. apply Hlog. vm_compute. discriminate.
Defined.

Lemma utf8_encode_letters n : utf8_encode (repeat 97 n) = Some (repeat 97 n).
Proof.
  induction n as [|n IH]; [reflexivity|].
  cbn [repeat utf8_encode]. rewrite IH. reflexivity.
Qed.

Lemma oversized_payload_is_rejected_witness :
  is_Ok (to_bytes oversized_command) = false
  /\ to_bytes oversized_command = Raise struct_error.
Proof.
  destruct (oversized_payload_is_rejected
              oversized_command (repeat 97 (Z.to_nat 2147483638)))
    as (Hfail & Herr & _).
  - apply utf8_encode_letters.
  - unfold len, INT32_MAX. rewrite repeat_length. lia.
  - split; [exact Hfail|]. now apply (Herr COMMAND_VALUE).
Defined.

End ClientFacts.

(* ================================================================== *)
(** * More on the codec *)
(* ================================================================== *)

Module CodecMore.
Import Py RconProtocol Spec PyFacts CodecFacts.

(** What [to_bytes] returns is the frame of the packet. *)
Lemma to_bytes_inv p data :
  to_bytes p = Ok data ->
  exists t pb b_len b_id b_type,
    packet_type p = Member t
    /\ utf8_encode (payload p) = Some pb
    /\ struct_pack_i (8 + len (pb ++ [0; 0])) = Some b_len
    /\ struct_pack_i (packet_id p) = Some b_id
    /\ struct_pack_i (int t) = Some b_type
    /\ data = b_len ++ b_id ++ b_type ++ pb ++ [0; 0].
Proof.
  unfold to_bytes. destruct (packet_type p) as [t|v]; [|discriminate].
  destruct (utf8_encode (payload p)) as [pb|]; [|discriminate].
  assert (Hl : 8 + len (pb ++ [0; 0]) = 4 + 4 + len pb + 2)
    by (rewrite len_app; change (len [0; 0]) with 2; lia).
  rewrite <- Hl.
  destruct (struct_pack_i (8 + len (pb ++ [0; 0]))) as [b_len|] eqn:Hbl; [|discriminate].
  destruct (struct_pack_i (packet_id p)) as [b_id|] eqn:Hbi; [|discriminate].
  destruct (struct_pack_i (int t)) as [b_type|] eqn:Hbt; [|discriminate].
  cbn [or_struct_error rbind]. intros [= <-].
  exists t, pb, b_len, b_id, b_type. repeat split; auto.
Qed.

(** ** The decoder and NUL *)

Ltac decoder_branches :=
  repeat match goal with
  | |- context [if ?c then _ else _] => destruct c eqn:?
  | |- context [match ?t with [] => _ | _ :: _ => _ end] => destruct t
  end.

Ltac cmp_hyps :=
  repeat match goal with
  | H : (_ <? _) = true |- _ => apply Z.ltb_lt in H
  | H : (_ <? _) = false |- _ => apply Z.ltb_ge in H
  | H : is_cont _ = true |- _ => apply is_cont_spec in H
  | H : negb _ = false |- _ => apply negb_false_iff in H
  | H : _ || _ = false |- _ => apply lead_guard_false in H; destruct H as (? & ? & ?)
  end.

Lemma decode_starts_with_nul bs :
  starts_with_nul_or_empty (utf8_decode_replace bs) = starts_with_nul_or_empty bs.
Proof.
  destruct bs as [|b0 t0]; [reflexivity|].
  cbn [utf8_decode_replace starts_with_nul_or_empty].
  decoder_branches; cbn [starts_with_nul_or_empty]; cmp_hyps;
    try reflexivity; symmetry; unfold REPLACEMENT;
    repeat match goal with
    | |- context [?a =? 0] =>
        first [ rewrite (proj2 (Z.eqb_neq a 0)) by lia ]
    end; reflexivity.
Qed.

Lemma embeds_terminator_nonzero c s :
  c <> 0 -> embeds_terminator (c :: s) = embeds_terminator s.
Proof.
  intros H. rewrite embeds_terminator_cons.
  now rewrite (proj2 (Z.eqb_neq c 0) H).
Qed.

(** The decoder maps a zero byte to U+0000 and nothing else to it, so a
    text decoded from bytes holds the terminator where the bytes do. *)
Lemma decode_embeds_terminator bs :
  embeds_terminator (utf8_decode_replace bs) = embeds_terminator bs.
Proof.
  remember (length bs) as n eqn:Hn. assert (Hle : (length bs <= n)%nat) by lia.
  clear Hn. revert bs Hle.
  induction n as [|n IH]; intros [|b0 t0] Hle; cbn [length] in Hle;
    try reflexivity; try lia.
  cbn [utf8_decode_replace].
  destruct (b0 <? 128) eqn:Hascii.
  { rewrite !embeds_terminator_cons, decode_starts_with_nul, IH by lia.
    reflexivity. }
  decoder_branches; cmp_hyps; cbn [length] in Hle;
    repeat (rewrite embeds_terminator_nonzero by (unfold REPLACEMENT; lia));
    rewrite ?IH by (cbn [length]; lia);
    repeat (rewrite embeds_terminator_nonzero by lia);
    try reflexivity.
Qed.

Lemma encode_replacement s pb :
  utf8_encode s = Some pb ->
  utf8_encode (REPLACEMENT :: s) = Some ([0xEF; 0xBF; 0xBD] ++ pb).
Proof. intros H. now apply utf8_encode_cons. Qed.

(** A text decoded from bytes encodes again, to at most three bytes for
    each byte decoded (U+FFFD takes three). *)
Lemma decode_encodes bs :
  is_bytes bs ->
  exists pb, utf8_encode (utf8_decode_replace bs) = Some pb
             /\ len pb <= 3 * len bs.
Proof.
  remember (length bs) as n eqn:Hn. assert (Hle : (length bs <= n)%nat) by lia.
  clear Hn. revert bs Hle.
  induction n as [|n IH]; intros [|b0 t0] Hle Hb; cbn [length] in Hle;
    try (exists []; split; [reflexivity|cbn; lia]); try lia.
  apply Forall_cons_iff in Hb. destruct Hb as [Hb0 Ht0]. unfold is_byte in Hb0.
  destruct (IH t0 ltac:(lia) Ht0) as (p0 & E0 & L0).
  pose proof (len_cons b0 t0) as Lc0.
  cbn [utf8_decode_replace].
  destruct (Z.ltb_spec b0 0x80).
  { exists ([b0] ++ p0). split.
    - apply utf8_encode_cons; [now apply encode_char_ascii|assumption].
    - rewrite len_app. change (len [b0]) with 1. lia. }
  assert (Hrep0 : exists pb, utf8_encode (REPLACEMENT :: utf8_decode_replace t0) = Some pb
                             /\ len pb <= 3 * len (b0 :: t0)).
  { exists ([0xEF; 0xBF; 0xBD] ++ p0). split; [now apply encode_replacement|].
    rewrite len_app. change (len [239; 191; 189]) with 3. lia. }
  assert (Hone : forall l : list Z, exists pb, utf8_encode [REPLACEMENT] = Some pb
                             /\ len pb <= 3 * len (b0 :: l)).
  { intros l. exists [0xEF; 0xBF; 0xBD]. split; [reflexivity|].
    change (len [239; 191; 189]) with 3. rewrite len_cons.
    pose proof (len_nonneg l). lia. }
  destruct (Z.ltb_spec b0 0xC2); [exact Hrep0|].
  destruct t0 as [|b1 t1];
    [repeat (match goal with |- context [Z.ltb ?a ?b] => destruct (Z.ltb a b) end);
     apply Hone|].
  apply Forall_cons_iff in Ht0. destruct Ht0 as [Hb1 Ht1]. unfold is_byte in Hb1.
  cbn [length] in Hle.
  destruct (IH t1 ltac:(lia) Ht1) as (p1 & E1 & L1).
  pose proof (len_cons b1 t1) as Lc1.
  destruct (Z.ltb_spec b0 0xE0).
  { destruct (is_cont b1) eqn:C1; [|exact Hrep0].
    apply is_cont_spec in C1.
    exists ([b0; b1] ++ p1). split.
    - apply utf8_encode_cons; [now apply encode_char_two|assumption].
    - rewrite len_app. change (len [b0; b1]) with 2. lia. }
  destruct (Z.ltb_spec b0 0xF0).
  { match goal with |- context [if ?g then _ else _] => destruct g eqn:G end;
      [exact Hrep0|].
    apply lead_guard_false in G. destruct G as (C1 & Glo & Ghi).
    destruct t1 as [|b2 t2]; [apply Hone|].
    apply Forall_cons_iff in Ht1. destruct Ht1 as [Hb2 Ht2]. cbn [length] in Hle.
    pose proof (len_cons b2 t2) as Lc2.
    destruct (is_cont b2) eqn:C2.
    - apply is_cont_spec in C2.
      destruct (IH t2 ltac:(lia) Ht2) as (p2 & E2 & L2).
      exists ([b0; b1; b2] ++ p2). split.
      + apply utf8_encode_cons; [now apply encode_char_three|assumption].
      + rewrite len_app. change (len [b0; b1; b2]) with 3. lia.
    - exists ([0xEF; 0xBF; 0xBD] ++ p1). split; [now apply encode_replacement|].
      rewrite len_app. change (len [239; 191; 189]) with 3. lia. }
  destruct (Z.ltb_spec b0 0xF5); [|exact Hrep0].
  match goal with |- context [if ?g then _ else _] => destruct g eqn:G end;
    [exact Hrep0|].
  apply lead_guard_false in G. destruct G as (C1 & Glo & Ghi).
  destruct t1 as [|b2 t2]; [apply Hone|].
  apply Forall_cons_iff in Ht1. destruct Ht1 as [Hb2 Ht2]. cbn [length] in Hle.
  pose proof (len_cons b2 t2) as Lc2.
  destruct (is_cont b2) eqn:C2; cbn [negb].
  2:{ exists ([0xEF; 0xBF; 0xBD] ++ p1). split; [now apply encode_replacement|].
      rewrite len_app. change (len [239; 191; 189]) with 3. lia. }
  apply is_cont_spec in C2.
  destruct (IH t2 ltac:(lia) Ht2) as (p2 & E2 & L2).
  destruct t2 as [|b3 t3]; [apply Hone|].
  apply Forall_cons_iff in Ht2. destruct Ht2 as [Hb3 Ht3]. cbn [length] in Hle.
  pose proof (len_cons b3 t3) as Lc3.
  destruct (is_cont b3) eqn:C3.
  - apply is_cont_spec in C3.
    destruct (IH t3 ltac:(lia) Ht3) as (p3 & E3 & L3).
    exists ([b0; b1; b2; b3] ++ p3). split.
    + apply utf8_encode_cons; [now apply encode_char_four|assumption].
    + rewrite len_app. change (len [b0; b1; b2; b3]) with 4. lia.
  - exists ([0xEF; 0xBF; 0xBD] ++ p2). split; [now apply encode_replacement|].
    rewrite len_app. change (len [239; 191; 189]) with 3. lia.
Qed.

(** ** The bytes before the terminator *)

Lemma find_from_range l sub pos :
  find_from l sub pos = -1 \/ pos <= find_from l sub pos < pos + len l.
Proof.
  destruct (find_from_spec l sub pos) as [[-> _]|(k & -> & Hk & _)];
    [now left|right]. unfold len. lia.
Qed.

Lemma no_nul_no_terminator s : ~ In 0 s -> embeds_terminator s = false.
Proof.
  induction s as [|c s IH]; [reflexivity|]. intros Hn.
  rewrite embeds_terminator_nonzero by (intros ->; apply Hn; now left).
  apply IH. intros H. apply Hn. now right.
Qed.

Lemma prefix_before_terminator l :
  forall pos, 0 <= pos -> find_from l [0; 0] pos <> -1 ->
  embeds_terminator (firstn (Z.to_nat (find_from l [0; 0] pos - pos)) l) = false.
Proof.
  induction l as [|x l IH]; intros pos Hpos; cbn [find_from]; [congruence|].
  destruct (startswith (x :: l) [0; 0]) eqn:Hs.
  - intros _. now rewrite Z.sub_diag.
  - intros Hf. specialize (IH (pos + 1) ltac:(lia) Hf).
    destruct (find_from_range l [0; 0] (pos + 1)) as [?|Hr]; [contradiction|].
    replace (Z.to_nat (find_from l [0; 0] (pos + 1) - pos))
      with (S (Z.to_nat (find_from l [0; 0] (pos + 1) - (pos + 1)))) by lia.
    cbn [firstn]. rewrite embeds_terminator_cons, IH, orb_false_r.
    destruct (Z.eqb_spec x 0) as [->|_]; [|reflexivity]. cbn [andb].
    destruct l as [|y l]; [cbn [find_from] in Hf; congruence|].
    cbn [startswith] in Hs. change (0 =? 0) with true in Hs.
    rewrite andb_true_r in Hs. cbn [andb] in Hs.
    assert (Hy : startswith (y :: l) [0; 0] = false)
      by (cbn [startswith]; now rewrite Hs).
    cbn [find_from] in Hr, Hf |- *. rewrite Hy in Hr, Hf |- *.
    destruct (find_from_range l [0; 0] (pos + 1 + 1)) as [E|Hr2];
      [contradiction|].
    replace (Z.to_nat (find_from l [0; 0] (pos + 1 + 1) - (pos + 1)))
      with (S (Z.to_nat (find_from l [0; 0] (pos + 1 + 1) - (pos + 1 + 1)))) by lia.
    cbn [firstn starts_with_nul_or_empty]. now rewrite Z.eqb_sym.
Qed.

Lemma prefix_before_zero l :
  forall pos, 0 <= pos ->
  ~ In 0 (firstn (Z.to_nat (if find_from l [0] pos =? -1
                            then len l else find_from l [0] pos - pos)) l).
Proof.
  induction l as [|x l IH]; intros pos Hpos; cbn [find_from].
  - cbn. auto.
  - cbn [startswith]. rewrite andb_true_r.
    destruct (Z.eqb_spec 0 x) as [<-|Hx].
    + destruct (Z.eqb_spec pos (-1)); [lia|]. rewrite Z.sub_diag. cbn. auto.
    + specialize (IH (pos + 1) ltac:(lia)).
      destruct (find_from_range l [0] (pos + 1)) as [E|Hr].
      * rewrite E in *. change (-1 =? -1) with true in *. cbv iota in *.
        rewrite len_cons.
        pose proof (len_nonneg l).
        replace (Z.to_nat (1 + len l)) with (S (Z.to_nat (len l))) by lia.
        cbn [firstn In]. intros [H0|H0]; [congruence|contradiction].
      * destruct (Z.eqb_spec (find_from l [0] (pos + 1)) (-1)); [lia|].
        replace (Z.to_nat (find_from l [0] (pos + 1) - pos))
          with (S (Z.to_nat (find_from l [0] (pos + 1) - (pos + 1)))) by lia.
        cbn [firstn In]. intros [H0|H0]; [congruence|contradiction].
Qed.

(** The bytes [from_bytes] takes as the payload hold no terminator. *)
Lemma payload_bytes_clean data :
  12 <= len data ->
  let d := find data [0; 0] 12 in
  let e := if d =? -1
           then let s := find data [0] 12 in if s =? -1 then len data else s
           else d in
  embeds_terminator (slice data 12 e) = false.
Proof.
  intros Hl. cbv zeta. unfold find, slice. change (Z.to_nat 12) with 12%nat.
  set (l := skipn 12 data).
  assert (Hlen : len data = 12 + len l).
  { unfold len, l in *. rewrite length_skipn. lia. }
  destruct (Z.eqb_spec (find_from l [0; 0] 12) (-1)) as [_|Hd].
  - apply no_nul_no_terminator.
    pose proof (prefix_before_zero l 12 ltac:(lia)) as Hz.
    destruct (Z.eqb_spec (find_from l [0] 12) (-1)); [|exact Hz].
    now replace (len data - 12) with (len l) by lia.
  - now apply prefix_before_terminator.
Qed.

(** ** The payload [from_bytes] reads back from an encoded payload *)

Lemma firstn_len_app (pb rest : list Z) :
  firstn (Z.to_nat (12 + len pb - 12)) (pb ++ rest) = pb.
Proof.
  replace (12 + len pb - 12) with (len pb) by lia. unfold len.
  rewrite Nat2Z.id. apply firstn_length_app.
Qed.

Lemma decode_prefix pb rest s :
  utf8_encode s = Some pb ->
  (if 12 <? 12 + len pb
   then utf8_decode_replace (firstn (Z.to_nat (12 + len pb - 12)) (pb ++ rest))
   else []) = s.
Proof.
  intros Hs. pose proof (len_nonneg pb) as Hp.
  destruct (Z.ltb_spec 12 (12 + len pb)).
  - rewrite firstn_len_app. now apply utf8_decode_encode.
  - assert (pb = []) as ->
      by (destruct pb as [|b pb']; [reflexivity|rewrite len_cons in *;
          pose proof (len_nonneg pb'); lia]).
    now apply (utf8_decode_encode s []).
Qed.

Lemma payload_after_header_clean s pb :
  utf8_encode s = Some pb -> embeds_terminator s = false ->
  payload_after_header (pb ++ [0; 0]) = s.
Proof.
  intros Hs Hclean. unfold payload_after_header.
  rewrite <- (utf8_encode_embeds_terminator _ _ Hs) in Hclean.
  rewrite (find_terminator pb 12 Hclean).
  pose proof (len_nonneg pb) as Hp.
  destruct (Z.eqb_spec (12 + len pb) (-1)); [lia|].
  now apply decode_prefix.
Qed.

Lemma payload_after_header_early s pb :
  utf8_encode s = Some pb -> embeds_terminator s = true ->
  exists s2, s = payload_after_header (pb ++ [0; 0]) ++ 0 :: s2.
Proof.
  intros Hs Hemb. unfold payload_after_header.
  rewrite <- (utf8_encode_embeds_terminator _ _ Hs) in Hemb.
  destruct (find_terminator_early pb Hemb) as (a & b & Hpb & Hfind).
  rewrite (Hfind 12). rewrite Hpb in Hs.
  destruct (utf8_encode_split_nul s a b Hs) as (s1 & s2 & Hsplit & H1 & H2).
  pose proof (len_nonneg a) as Ha.
  destruct (Z.eqb_spec (12 + len a) (-1)); [lia|].
  exists s2. rewrite Hpb, <- app_assoc.
  now rewrite (decode_prefix a _ s1 H1).
Qed.

(** ** Bytes *)

Lemma struct_pack_i_is_bytes n b : struct_pack_i n = Some b -> is_bytes b.
Proof.
  unfold struct_pack_i. destruct (in_int32 n); [|discriminate]. intros [= <-].
  repeat constructor; unfold is_byte; apply Z.mod_pos_bound; lia.
Qed.

Lemma utf8_encode_char_is_bytes c cb : utf8_encode_char c = Some cb -> is_bytes cb.
Proof.
  unfold utf8_encode_char.
  destruct (is_scalar c) eqn:Hs; cbn [negb]; [|discriminate].
  apply is_scalar_spec in Hs.
  destruct (Z.ltb_spec c 0x80); [|destruct (Z.ltb_spec c 0x800);
    [|destruct (Z.ltb_spec c 0x10000)]];
    some_inj; repeat constructor; unfold is_byte;
    Z.div_mod_to_equations; lia.
Qed.

Lemma utf8_encode_is_bytes s : forall pb, utf8_encode s = Some pb -> is_bytes pb.
Proof.
  induction s as [|c s IH]; intros pb; cbn [utf8_encode].
  - intros [= <-]. constructor.
  - destruct (utf8_encode_char c) as [cb|] eqn:Hc; [|discriminate].
    destruct (utf8_encode s) as [bs|]; [|discriminate]. intros [= <-].
    apply Forall_app. split; [now apply (utf8_encode_char_is_bytes c)|now apply IH].
Qed.

Lemma is_bytes_slice data lo hi : is_bytes data -> is_bytes (slice data lo hi).
Proof.
  unfold slice, is_bytes. intros H.
  rewrite <- (firstn_skipn (Z.to_nat lo) data) in H.
  apply Forall_app in H. destruct H as [_ H].
  rewrite <- (firstn_skipn (Z.to_nat (hi - lo)) (skipn (Z.to_nat lo) data)) in H.
  apply Forall_app in H. tauto.
Qed.

Lemma nth_is_byte data i : is_bytes data -> is_byte (nth i data 0).
Proof.
  intros Hb. destruct (Nat.lt_ge_cases i (length data)) as [Hi|Hi].
  - unfold is_bytes in Hb. rewrite Forall_forall in Hb. apply Hb. now apply nth_In.
  - rewrite nth_overflow by assumption. unfold is_byte. lia.
Qed.

Lemma int32_at_in_int32 data off : is_bytes data -> in_int32 (int32_at data off) = true.
Proof.
  intros Hb. apply in_int32_spec. unfold int32_at, INT32_MIN, INT32_MAX.
  pose proof (nth_is_byte data (off + 0) Hb).
  pose proof (nth_is_byte data (off + 1) Hb).
  pose proof (nth_is_byte data (off + 2) Hb).
  pose proof (nth_is_byte data (off + 3) Hb).
  unfold is_byte in *.
  match goal with |- context [if ?c then _ else _] => destruct c eqn:Hc end;
    [apply Z.ltb_lt in Hc|apply Z.ltb_ge in Hc]; lia.
Qed.

(** The fields of an encoded packet, read back at their offsets. *)
Lemma frame_fields b_len b_id b_type rest n id ty :
  struct_pack_i n = Some b_len -> struct_pack_i id = Some b_id ->
  struct_pack_i ty = Some b_type ->
  let data := b_len ++ b_id ++ b_type ++ rest in
  int32_at data 0 = n /\ int32_at data 4 = id /\ int32_at data 8 = ty
  /\ len data = 12 + len rest /\ skipn 12 data = rest.
Proof.
  intros Hl Hi Ht data.
  pose proof (len4 _ (struct_pack_i_length _ _ Hl)) as Ll.
  pose proof (len4 _ (struct_pack_i_length _ _ Hi)) as Li.
  pose proof (len4 _ (struct_pack_i_length _ _ Ht)) as Lt.
  apply struct_unpack_pack in Hl, Hi, Ht.
  assert (Hlen : len data = 12 + len rest)
    by (unfold data; rewrite !len_app; lia).
  pose proof (len_nonneg rest) as Hr.
  destruct (unpack_header data ltac:(lia)) as (H0 & H4 & H8).
  unfold unpack_or_parse_error in H0, H4, H8.
  assert (S0 : slice data 0 4 = b_len)
    by (apply (slice_app [] b_len _ 0 4); cbn; lia).
  assert (S4 : slice data 4 8 = b_id) by (apply (slice_app b_len b_id _ 4 8); lia).
  assert (S8 : slice data 8 12 = b_type).
  { unfold data. replace (b_len ++ b_id ++ b_type ++ rest)
      with ((b_len ++ b_id) ++ b_type ++ rest) by now rewrite <- app_assoc.
    apply slice_app; rewrite ?len_app; lia. }
  rewrite S0, Hl in H0. rewrite S4, Hi in H4. rewrite S8, Ht in H8.
  split; [congruence|]. split; [congruence|]. split; [congruence|].
  split; [assumption|].
  unfold data. replace (b_len ++ b_id ++ b_type ++ rest)
    with ((b_len ++ b_id ++ b_type) ++ rest) by now rewrite <- !app_assoc.
  replace 12%nat with (length (b_len ++ b_id ++ b_type)).
  - apply skipn_length_app.
  - unfold len in *. rewrite !length_app. lia.
Qed.

(** X1: [to_bytes] succeeds on the encodable packets and on no other; what it
    returns is a sequence of bytes: the length of what follows the length
    field, the id and the kind as little-endian 32-bit integers, then the
    UTF-8 encoding of the payload and two zero bytes. *)
Theorem to_bytes_frame p :
  (is_Ok (to_bytes p) = true <-> encodable p)
  /\ (forall data,
        to_bytes p = Ok data ->
        is_bytes data
        /\ int32_at data 0 = len data - 4
        /\ int32_at data 4 = packet_id p
        /\ (exists t, packet_type p = Member t /\ int32_at data 8 = int t)
        /\ exists pb, utf8_encode (payload p) = Some pb
                      /\ skipn 12 data = pb ++ [0; 0]
                      /\ len data = 14 + len pb).
Proof.
  split; [split|].
  - destruct (to_bytes p) as [data|e] eqn:Hto; [intros _|discriminate].
    destruct (to_bytes_inv _ _ Hto) as (t & pb & b_len & b_id & b_type
                                        & Hty & Hs & Hbl & Hbi & Hbt & ->).
    split; [eauto|]. split.
    + unfold struct_pack_i in Hbi. now destruct (in_int32 (packet_id p)).
    + exists pb. split; [assumption|].
      unfold struct_pack_i in Hbl.
      destruct (in_int32 (8 + len (pb ++ [0; 0]))) eqn:Hr; [|discriminate].
      apply in_int32_spec in Hr. rewrite len_app in Hr.
      change (len [0; 0]) with 2 in Hr. lia.
  - destruct p as [id ty s]. unfold encodable. cbn [packet_type packet_id payload].
    intros ([t ->] & Hid & pb & Hs & Hlen).
    destruct (to_bytes_encodable id t s pb Hid Hs Hlen)
      as (b_len & b_id & b_type & _ & _ & _ & ->). reflexivity.
  - intros data Hto.
    destruct (to_bytes_inv _ _ Hto) as (t & pb & b_len & b_id & b_type
                                        & Hty & Hs & Hbl & Hbi & Hbt & ->).
    destruct (frame_fields _ _ _ (pb ++ [0; 0]) _ _ _ Hbl Hbi Hbt)
      as (F0 & F4 & F8 & Fl & Fs).
    cbv zeta in *.
    assert (L2 : len (pb ++ [0; 0]) = len pb + 2)
      by (rewrite len_app; reflexivity).
    rewrite L2 in *.
    split.
    { apply Forall_app. split; [exact (struct_pack_i_is_bytes _ _ Hbl)|].
      apply Forall_app. split; [exact (struct_pack_i_is_bytes _ _ Hbi)|].
      apply Forall_app. split; [exact (struct_pack_i_is_bytes _ _ Hbt)|].
      apply Forall_app. split; [exact (utf8_encode_is_bytes _ _ Hs)|].
      repeat (apply Forall_cons; [unfold is_byte; lia|]). constructor. }
    split; [rewrite F0, Fl; lia|].
    split; [assumption|]. split; [eauto|].
    exists pb. split; [assumption|]. split; [assumption|lia].
Qed.

(** X2: whatever [to_bytes] produced, [from_bytes] accepts it and returns the
    id and the kind of the packet; the payload it returns is the packet's,
    or, when the payload embeds a terminator, the part of it before a
    NUL. *)
Theorem encoded_packets_decode p data :
  to_bytes p = Ok data ->
  exists s,
    from_bytes data = Ok (mkRconPacket (packet_id p) (packet_type p) s)
    /\ (embeds_terminator (payload p) = false -> s = payload p)
    /\ (embeds_terminator (payload p) = true ->
        exists s2, payload p = s ++ 0 :: s2).
Proof.
  intros Hto.
  destruct (to_bytes_inv _ _ Hto) as (t & pb & b_len & b_id & b_type
                                      & Hty & Hs & Hbl & Hbi & Hbt & ->).
  exists (payload_after_header (pb ++ [0; 0])).
  rewrite (from_bytes_frame _ _ _ _ _ _ _ Hbl eq_refl Hbi Hbt), Hty.
  split; [reflexivity|]. split.
  - now apply payload_after_header_clean.
  - now apply payload_after_header_early.
Qed.

Lemma encoded_packets_decode_witness :
  exists s,
    from_bytes [13; 0; 0; 0; 1; 0; 0; 0; 2; 0; 0; 0; 97; 0; 98; 0; 0]
    = Ok (mkRconPacket 1 (Member COMMAND_VALUE) s)
    /\ (embeds_terminator [97; 0; 98] = false -> s = [97; 0; 98])
    /\ (embeds_terminator [97; 0; 98] = true -> exists s2, [97; 0; 98] = s ++ 0 :: s2).
Proof.
  apply (encoded_packets_decode (CommandPacket 1 [97; 0; 98])). reflexivity.
Defined.

(** X3: [from_bytes] accepts exactly the buffers of at least 12 bytes whose
    length field counts the bytes after it and whose kind is 0, 2 or 3; it
    raises nothing but the three errors of those checks, so the handler of
    [struct.error] never runs. *)
Theorem from_bytes_accepts_iff data :
  (is_Ok (from_bytes data) = true
   <-> 12 <= len data /\ int32_at data 0 = len data - 4
       /\ (int32_at data 8 = 0 \/ int32_at data 8 = 2 \/ int32_at data 8 = 3))
  /\ (forall e,
        from_bytes data = Raise e ->
        e = PacketParseError LengthInsufficient
        \/ e = PacketParseError (LengthMismatch (int32_at data 0) (len data - 4))
        \/ e = InvalidPacketTypeError (UnknownType (int32_at data 8)))
  /\ from_bytes data <> Raise (PacketParseError ParseFailed)
  /\ from_bytes data <> Raise struct_error.
Proof.
  assert (Hcases :
    (len data < 12 /\ from_bytes data = Raise (PacketParseError LengthInsufficient))
    \/ (12 <= len data /\ int32_at data 0 <> len data - 4
        /\ from_bytes data
           = Raise (PacketParseError (LengthMismatch (int32_at data 0) (len data - 4))))
    \/ (12 <= len data /\ int32_at data 0 = len data - 4
        /\ RconPacketType_of (int32_at data 8) = None
        /\ from_bytes data = Raise (InvalidPacketTypeError (UnknownType (int32_at data 8))))
    \/ (12 <= len data /\ int32_at data 0 = len data - 4
        /\ exists t, RconPacketType_of (int32_at data 8) = Some t
        /\ is_Ok (from_bytes data) = true)).
  { unfold from_bytes. destruct (Z.ltb_spec (len data) 12) as [Hl|Hl]; [now left|right].
    destruct (unpack_header data Hl) as (-> & -> & ->). cbn [rbind].
    destruct (Z.eqb_spec (int32_at data 0) (len data - 4)) as [Hd|Hd];
      cbn [negb]; [right|now left].
    destruct (RconPacketType_of (int32_at data 8)) as [t|] eqn:Ht; [right|now left].
    eauto 6. }
  assert (Hkind : forall v, (exists t, RconPacketType_of v = Some t)
                            <-> v = 0 \/ v = 2 \/ v = 3).
  { intros v. unfold RconPacketType_of.
    destruct (Z.eqb_spec v 0); [split; eauto|].
    destruct (Z.eqb_spec v 2); [split; eauto|].
    destruct (Z.eqb_spec v 3); [split; eauto|].
    split; [intros [t [=]]|lia]. }
  split; [|split; [|split]].
  - destruct Hcases as [(Hl & ->)|[(Hl & Hd & ->)|[(Hl & Hd & Ht & ->)|(Hl & Hd & t & Ht & ->)]]].
    + split; [discriminate|lia].
    + split; [discriminate|tauto].
    + split; [discriminate|]. intros (_ & _ & Hk). apply Hkind in Hk.
      destruct Hk. congruence.
    + split; [|reflexivity]. intros _. split; [assumption|]. split; [assumption|].
      apply Hkind. eauto.
  - intros e He.
    destruct Hcases as [(Hl & H)|[(Hl & Hd & H)|[(Hl & Hd & Ht & H)|(Hl & Hd & t & Ht & H)]]];
      rewrite He in H; try (injection H as ->); auto. discriminate.
  - destruct Hcases as [(Hl & ->)|[(Hl & Hd & ->)|[(Hl & Hd & Ht & ->)|(Hl & Hd & t & Ht & H)]]];
      try discriminate. intros E. rewrite E in H. discriminate.
  - destruct Hcases as [(Hl & ->)|[(Hl & Hd & ->)|[(Hl & Hd & Ht & ->)|(Hl & Hd & t & Ht & H)]]];
      try discriminate. intros E. rewrite E in H. discriminate.
Qed.

(** X4: a packet decoded from bytes holds no terminator in its payload, and is
    a packet the codec keeps: it encodes, and decoding the encoding returns
    it. *)
Theorem decoded_packets_round_trip data p :
  is_bytes data -> 3 * len data <= INT32_MAX ->
  from_bytes data = Ok p ->
  embeds_terminator (payload p) = false
  /\ encodable p
  /\ exists data', to_bytes p = Ok data' /\ from_bytes data' = Ok p.
Proof.
  intros Hb Hbound H.
  destruct (from_bytes_inv _ _ H) as (Hl & Hd & t & Ht).
  rewrite (from_bytes_Ok data Hl Hd t Ht) in H. injection H as <-.
  cbn [payload packet_id packet_type]. cbv zeta.
  pose proof (payload_bytes_clean data Hl) as Hclean. cbv zeta in Hclean.
  destruct (computed_payload_end data Hl) as [_ He]. cbv zeta in He.
  set (e := if find data [0; 0] 12 =? -1
            then if find data [0] 12 =? -1 then len data else find data [0] 12
            else find data [0; 0] 12) in *.
  set (pbytes := slice data 12 e) in *.
  set (s := if 12 <? e then utf8_decode_replace pbytes else []).
  assert (Hs : s = utf8_decode_replace pbytes).
  { unfold s. destruct (Z.ltb_spec 12 e); [reflexivity|].
    unfold pbytes, slice. replace (Z.to_nat (e - 12)) with 0%nat by lia.
    reflexivity. }
  assert (Hpb : is_bytes pbytes).
  { now apply is_bytes_slice. }
  assert (Hlen : len pbytes <= len data - 12).
  { unfold pbytes, slice, len in *. rewrite length_firstn, length_skipn. lia. }
  destruct (decode_encodes pbytes Hpb) as (pb & Henc & Hpl).
  rewrite <- Hs in Henc.
  assert (Hemb : embeds_terminator s = false)
    by (rewrite Hs, decode_embeds_terminator; exact Hclean).
  assert (Hid : in_int32 (int32_at data 4) = true) by now apply int32_at_in_int32.
  assert (Hfit : 4 + 4 + len pb + 2 <= INT32_MAX) by lia.
  split; [assumption|]. split.
  - unfold encodable. cbn [packet_type packet_id payload].
    split; [exists t; reflexivity|]. split; [assumption|].
    exists pb. split; assumption.
  - destruct (to_bytes_encodable _ t s pb Hid Henc Hfit)
      as (b_len & b_id & b_type & Hbl & Hbi & Hbt & Hto).
    exists (b_len ++ b_id ++ b_type ++ pb ++ [0; 0]). split; [exact Hto|].
    rewrite (from_bytes_frame _ _ _ _ _ _ _ Hbl eq_refl Hbi Hbt).
    now rewrite (payload_after_header_clean s pb Henc Hemb).
Qed.

Lemma decoded_packets_round_trip_witness :
  embeds_terminator [97; 0; 98; REPLACEMENT] = false
  /\ encodable (ResponsePacket 7 [97; 0; 98; REPLACEMENT])
  /\ exists data', to_bytes (ResponsePacket 7 [97; 0; 98; REPLACEMENT]) = Ok data'
                   /\ from_bytes data' = Ok (ResponsePacket 7 [97; 0; 98; REPLACEMENT]).
Proof.
  apply (decoded_packets_round_trip
           [16; 0; 0; 0; 7; 0; 0; 0; 0; 0; 0; 0; 97; 0; 98; 255; 0; 0; 99; 0]
           (ResponsePacket 7 [97; 0; 98; REPLACEMENT])).
  - repeat (apply Forall_cons; [unfold is_byte; lia|]). constructor.
  - vm_compute. discriminate.
  - reflexivity.
Defined.

End CodecMore.

(* ================================================================== *)
(** * More on the client *)
(* ================================================================== *)

Module ClientMore.
Import Py RconProtocol RconClient Spec PyFacts CodecFacts ClientFacts SpecMore.
Local Open Scope client_scope.

Lemma _close_connection_closes w :
  wp _close_connection
     (fun r w' =>
        r = Ok tt /\ env w' = env w /\ self w' = closed (self w)
        /\ writes (trace w') = writes (trace w)
        /\ closes (trace w') = (closes (trace w) + held (self w))%nat
        /\ (_writer (self w) = None -> now w' = now w /\ trace w' = trace w)
        /\ exists added, trace w' = trace w ++ added) w.
Proof.
  destruct w as [E [h p pw to ra rd rdr wtr pid au] t tr].
  unfold _close_connection, writer_close, writer_wait_closed, held.
  wp_steps. simpl_client.
  destruct wtr as [wtr|]; wp_steps; simpl_client.
  - destruct (wait_closed E t); wp_steps; simpl_client;
      destruct rdr; wp_steps; simpl_client; simpl_trace;
      (repeat split; auto; try lia; try discriminate);
      rewrite <- ?app_assoc; eauto.
  - destruct rdr; wp_steps; simpl_client; simpl_trace;
      (repeat split; auto; try lia); exists []; now rewrite app_nil_r.
Qed.

Lemma disconnect_of_disconnected w :
  Disconnected (self w) ->
  disconnect w
  = (Ok tt, mkWorld (env w) (self w) (now w)
                    (trace w ++ [EvLog INFO Disconnected_info])).
Proof.
  destruct w as [E [h p pw to ra rd rdr wtr pid au] t tr].
  unfold Disconnected. cbn [self _writer _reader _authenticated].
  intros (-> & -> & ->). reflexivity.
Qed.

(** X5: [disconnect] never raises, whatever the closing of the writer does; it
    leaves the client disconnected, its configuration and its counter as
    they were, writes nothing, and closes the writer once if there is one.
    A second [disconnect] only adds its line to the log. *)
Theorem disconnect_never_raises w :
  let w1 := snd (disconnect w) in
  fst (disconnect w) = Ok tt
  /\ Disconnected (self w1)
  /\ env w1 = env w /\ config (self w1) = config (self w)
  /\ _packet_id (self w1) = _packet_id (self w)
  /\ writes (trace w1) = writes (trace w)
  /\ closes (trace w1) = (closes (trace w) + held (self w))%nat
  /\ disconnect w1
     = (Ok tt, mkWorld (env w1) (self w1) (now w1)
                       (trace w1 ++ [EvLog INFO Disconnected_info])).
Proof.
  cbv zeta. pose proof (_close_connection_closes w) as Hc. unfold wp in Hc.
  assert (Hdis : disconnect w
                 = (fst (_close_connection w),
                    mkWorld (env (snd (_close_connection w)))
                            (self (snd (_close_connection w)))
                            (now (snd (_close_connection w)))
                            (trace (snd (_close_connection w))
                             ++ [EvLog INFO Disconnected_info]))).
  { unfold disconnect, bind, log, emit.
    destruct (_close_connection w) as [r w1]. cbn [fst snd] in *.
    now destruct Hc as (-> & _). }
  rewrite Hdis. destruct (_close_connection w) as [r w1]. cbn [fst snd] in *.
  destruct Hc as (-> & HE & Hs & Hw & Hcl & _ & _). cbn [fst snd env self now trace].
  split; [reflexivity|]. split; [rewrite Hs; apply Disconnected_closed|].
  split; [assumption|]. split; [now rewrite Hs|]. split; [now rewrite Hs|].
  split; [now rewrite writes_app, app_nil_r|].
  split; [rewrite closes_app; cbn [closes]; lia|].
  rewrite disconnect_of_disconnected; [reflexivity|].
  cbn [self]. rewrite Hs. apply Disconnected_closed.
Qed.

(** ** A successful exchange *)

Lemma exchange_ok w packet out header body q :
  is_connected (self w) = true ->
  to_bytes packet = Ok out ->
  answers (env w) (now w) header body ->
  from_bytes (header ++ body) = Ok q ->
  exists w',
    _send_packet_and_wait_response packet w
    = (Ok (ResponsePacket (packet_id q) (payload q)), w')
    /\ env w' = env w
    /\ now w' = S (S (S (now w)))
    /\ trace w' = trace w ++ exchange_events out body q
    /\ config (self w') = config (self w)
    /\ _packet_id (self w') = _packet_id (self w)
    /\ _authenticated (self w') = _authenticated (self w)
    /\ _reader (self w') = _reader (self w)
    /\ _writer (self w')
       = Some (mkStreamWriter (peer_closes (env w) (S (now w))
                               || peer_closes (env w) (S (S (now w))))).
Proof.
  destruct w as [E [h p pw to ra rd rdr wtr pid au] t tr].
  unfold is_connected, answers. cbn [env self now trace _reader _writer].
  intros Hconn Hto (Hdrain & Hopen & Hhdr & Hlen & Hdecl & Hbody) Hfrom.
  destruct rdr as [rdr|]; [|discriminate].
  destruct wtr as [[cl]|]; [|discriminate].
  cbn [is_closing] in Hconn. apply negb_true_iff in Hconn. subst cl.
  assert (Hb : 8 <= len body).
  { destruct (from_bytes_inv _ _ Hfrom) as (Hl & _). rewrite len_app in Hl. lia. }
  pose proof (Z.ltb_ge (len body) 0) as Hneg.
  pose proof (Z.eqb_neq (len body) 0) as Hnz.
  enough (Hwp : wp (_send_packet_and_wait_response packet)
            (fun r w' =>
               r = Ok (ResponsePacket (packet_id q) (payload q))
               /\ env w' = E /\ now w' = S (S (S t))
               /\ trace w' = tr ++ exchange_events out body q
               /\ config (self w') = (h, p, pw, to, ra, rd)
               /\ _packet_id (self w') = pid
               /\ _authenticated (self w') = au
               /\ _reader (self w') = Some rdr
               /\ _writer (self w')
                  = Some (mkStreamWriter (peer_closes E (S t)
                                          || peer_closes E (S (S t)))))
            (mkWorld E (mkClient h p pw to ra rd (Some rdr)
                                 (Some (mkStreamWriter false)) pid au) t tr)).
  { unfold wp in Hwp. destruct (_send_packet_and_wait_response _ _) as [r w'].
    cbn [fst snd] in Hwp. destruct Hwp as (-> & Hrest). exists w'.
    split; [reflexivity|exact Hrest]. }
  unfold _send_packet_and_wait_response, _read_packet_data, reader_readexactly,
    writer_write, writer_drain, parse_packet.
  repeat first
    [ wp_step
    | wp_connected
    | progress simpl_client
    | rewrite Hto | rewrite Hdrain | rewrite Hopen | rewrite Hhdr | rewrite Hlen
    | rewrite Hdecl | rewrite Hbody | rewrite Hfrom
    | rewrite (proj2 Hneg) by lia | rewrite (proj2 Hnz) by lia
    | rewrite Z.eqb_refl
    | progress change (4 =? 0) with false
    | progress cbv beta iota ].
  unfold exchange_events. rewrite <- !app_assoc. cbn [app].
  repeat split.
Qed.


(** X6: when the peer sends the frame [header ++ body] and [from_bytes] accepts
    it as [q], the exchange returns a Response packet with the id and the
    payload of [q], whatever the kind of [q]: it has written the encoding
    of the request once, read four bytes and then the declared number of
    bytes, and left the counter and the authentication mark alone; the
    client is still connected unless the peer closed the transport during
    one of the two reads. *)
Theorem exchange_returns_the_response w packet out header body q :
  is_connected (self w) = true ->
  to_bytes packet = Ok out ->
  answers (env w) (now w) header body ->
  from_bytes (header ++ body) = Ok q ->
  let r := _send_packet_and_wait_response packet w in
  fst r = Ok (ResponsePacket (packet_id q) (payload q))
  /\ trace (snd r) = trace w ++ exchange_events out body q
  /\ writes (trace (snd r)) = writes (trace w) ++ [out]
  /\ _packet_id (self (snd r)) = _packet_id (self w)
  /\ _authenticated (self (snd r)) = _authenticated (self w)
  /\ is_connected (self (snd r))
     = negb (peer_closes (env w) (S (now w))
             || peer_closes (env w) (S (S (now w)))).
Proof.
  intros Hconn Hto Hans Hfrom. cbv zeta.
  destruct (exchange_ok w packet out header body q Hconn Hto Hans Hfrom)
    as (w' & -> & _ & _ & Htr & _ & Hpid & Hau & Hrd & Hwr).
  cbn [fst snd]. split; [reflexivity|]. split; [assumption|].
  split; [rewrite Htr, writes_app; reflexivity|].
  split; [assumption|]. split; [assumption|].
  unfold is_connected in *. rewrite Hrd, Hwr.
  destruct (_reader (self w)); [reflexivity|discriminate].
Qed.

Lemma exchange_returns_the_response_witness :
  fst (_send_packet_and_wait_response (create_command_packet 2 [108])
         (mkWorld answers_with_other_id authenticated_client 0 []))
  = Ok (ResponsePacket 99 [111; 107]).
Proof.
  apply (exchange_returns_the_response
           (mkWorld answers_with_other_id authenticated_client 0 [])
           (create_command_packet 2 [108])
           [11; 0; 0; 0; 2; 0; 0; 0; 2; 0; 0; 0; 108; 0; 0]
           [12; 0; 0; 0] [99; 0; 0; 0; 0; 0; 0; 0; 111; 107; 0; 0]
           (ResponsePacket 99 [111; 107])).
  - reflexivity.
  - reflexivity.
  - repeat split.
  - reflexivity.
Defined.

(** ** Transport errors *)

Ltac contained_leaf :=
  unfold contained in *; cbn [env self now trace] in *;
  repeat match goal with
  | H : _ /\ _ |- _ => destruct H
  | H : same_client _ _ |- _ => destruct H as (? & _)
  | H : same_client_but_id _ _ |- _ => destruct H as (? & _)
  end;
  cbn [env self now trace] in *;
  split; [congruence|first [exact I | cbn [is_OSError]; congruence]].

Lemma contained_trans {A B} w1 w2 w3 (r1 : result A) (r2 : result B) :
  contained w1 r1 w2 -> contained w2 r2 w3 -> contained w1 r2 w3.
Proof.
  unfold contained. intros (HE1 & _) (HE2 & Hr). split; [congruence|].
  destruct r2; [exact I|]. now rewrite <- HE1.
Qed.

Lemma _send_packet_and_wait_response_contained packet w :
  wp (_send_packet_and_wait_response packet) (contained w) w.
Proof.
  destruct w as [E [h p pw to ra rd rdr wtr pid au] t tr].
  unfold _send_packet_and_wait_response, writer_write, writer_drain, parse_packet.
  destruct wtr as [[cl]|]; wp_auto;
    try (wp_call _read_packet_data_spec; wp_auto);
    try (wp_call _close_connection_spec; wp_auto);
    contained_leaf.
Qed.

Lemma _authenticate_contained w : wp _authenticate (contained w) w.
Proof.
  destruct w as [E [h p pw to ra rd rdr wtr pid au] t tr].
  unfold _authenticate, _get_next_packet_id.
  destruct rdr; destruct wtr as [[[]]|]; wp_auto;
    try (wp_call _send_packet_and_wait_response_contained; wp_auto);
    try (wp_call _close_connection_spec; wp_auto);
    contained_leaf.
Qed.

Lemma connect_attempts_contained attempts :
  forall last w, wp (connect_attempts attempts last) (contained w) w.
Proof.
  induction attempts as [|attempt rest IH]; intros last w;
    cbn [connect_attempts].
  - wp_auto. contained_leaf.
  - destruct w as [E c t tr]. unfold open_streams, asyncio_sleep.
    wp_auto; try contained_leaf.
    eapply wp_mono; [apply IH|]. intros r w'. apply contained_trans with (r1 := Ok tt).
    split; [reflexivity|exact I].
Qed.

Lemma connect_contained w : wp connect (contained w) w.
Proof.
  unfold connect. wp_auto; try contained_leaf.
  wp_call _close_connection_spec; [|destruct Hcall; discriminate].
  destruct Hcall as (_ & HE1 & _).
  wp_steps.
  eapply wp_mono; [apply connect_attempts_contained|].
  intros [last|e] w2 [HE2 Hr2]; cbn [env] in HE2.
  - wp_auto.
    + contained_leaf.
    + eapply wp_mono; [apply _authenticate_contained|].
      intros r w3. apply (contained_trans _ _ _ (Ok tt)). split; [congruence|exact I].
  - split; [congruence|]. cbn [env] in Hr2. now rewrite <- HE1.
Qed.

Lemma ensure_connected_contained w :
  wp (when (negb (is_authenticated (self w))) connect) (contained w) w.
Proof.
  unfold when. destruct (is_authenticated (self w)); cbn [negb].
  - apply wp_ret. split; [reflexivity|exact I].
  - apply connect_contained.
Qed.

Lemma execute_command_contained command w :
  wp (execute_command command) (contained w) w.
Proof.
  unfold execute_command. apply wp_bind, wp_get_self. cbv beta iota.
  apply wp_bind. eapply wp_mono; [apply ensure_connected_contained|].
  intros [[]|e] w1 H1; [|exact H1].
  eapply wp_mono with (Q1 := contained w1);
    [|intros r w2; apply (contained_trans _ _ _ _ _ H1)].
  destruct w1 as [E [h p pw to ra rd rdr wtr pid au] t tr].
  unfold _get_next_packet_id. wp_auto;
    (wp_call _send_packet_and_wait_response_contained; wp_auto);
    try (wp_call _close_connection_spec; wp_auto);
    contained_leaf.
Qed.

Lemma ping_contained w : wp ping (contained w) w.
Proof.
  unfold ping. apply wp_bind, wp_get_self. cbv beta iota.
  apply wp_bind. eapply wp_mono; [apply ensure_connected_contained|].
  intros [[]|e] w1 H1; [|exact H1].
  apply wp_bind, wp_get_time. cbv beta iota.
  apply wp_try, wp_bind.
  eapply wp_mono; [apply execute_command_contained|].
  intros [out|e] w2 H2; wp_auto;
    apply (contained_trans _ _ _ _ _ H1); destruct H2 as [HE2 _];
    (split; [assumption|first [exact I|reflexivity]]).
Qed.

(** X7: no method lets an error of the transport escape: an exception that is
    an [OSError] (a refused or reset connection, a socket timeout, and
    from Python 3.11 on [asyncio.TimeoutError]) is never what
    [_send_packet_and_wait_response], [_authenticate], [connect],
    [execute_command] or [ping] raises; such errors reach the caller
    wrapped in the module's [ConnectionError].  With Python 3.11 or later
    no method raises [asyncio.TimeoutError]. *)
Theorem transport_errors_never_escape w e :
  is_OSError (env w) e = true ->
  (forall packet, fst (_send_packet_and_wait_response packet w) <> Raise e)
  /\ fst (_authenticate w) <> Raise e
  /\ fst (connect w) <> Raise e
  /\ (forall command, fst (execute_command command w) <> Raise e)
  /\ fst (ping w) <> Raise e
  /\ fst (disconnect w) <> Raise e.
Proof.
  intros He.
  assert (Hno : forall A (m : M A), wp m (contained w) w -> fst (m w) <> Raise e).
  { intros A m [_ H] E. rewrite E in H. congruence. }
  split; [intros packet; apply Hno, _send_packet_and_wait_response_contained|].
  split; [apply Hno, _authenticate_contained|].
  split; [apply Hno, connect_contained|].
  split; [intros command; apply Hno, execute_command_contained|].
  split; [apply Hno, ping_contained|].
  pose proof (_close_connection_spec w) as Hc. unfold wp in Hc.
  unfold disconnect, bind, log, emit.
  destruct (_close_connection w) as [r w1]. cbn [fst snd] in Hc.
  destruct Hc as (-> & _). discriminate.
Qed.

Lemma transport_errors_never_escape_witness :
  fst (execute_command [108] (start silent_peer)) <> Raise asyncio_TimeoutError.
Proof.
  destruct (transport_errors_never_escape (start silent_peer) asyncio_TimeoutError)
    as (_ & _ & _ & H & _).
  - reflexivity.
  - apply H.
Defined.

(** ** The retry loop, attempt by attempt *)

Lemma connect_attempts_until_success j :
  forall i m last w,
    _writer (self w) = None -> (j < m)%nat ->
    Z.of_nat (i + j) <= retry_attempts (self w) ->
    opens_after (env w) (now w) j ->
    wp (connect_attempts (map Z.of_nat (seq i m)) last)
       (fun r w' =>
          is_Ok r = true /\ env w' = env w
          /\ self w' = opened (peer_closes (env w) (now w + 2 * j)) (self w)
          /\ now w' = (now w + 2 * j + 1)%nat
          /\ writes (trace w') = writes (trace w)
          /\ attempts_of (trace w')
             = attempts_of (trace w)
               ++ attempts_with_pauses (retry_delay (self w)) (S j)) w.
Proof.
  induction j as [|j IH]; intros i m last w Hw Hm Hra [Hfail Hopen];
    (destruct m as [|m]; [lia|]);
    destruct w as [E [h p pw to ra rd rdr wtr pid au] t tr];
    cbn [env self now _writer retry_attempts retry_delay] in *; subst wtr;
    cbn [seq map connect_attempts]; unfold open_streams, asyncio_sleep.
  - replace (t + 2 * 0)%nat with t in * by lia.
    repeat first [wp_step | rewrite Hopen | progress cbv beta iota].
    unfold opened. simpl_client. simpl_trace. repeat split. lia.
  - destruct (Hfail 0%nat ltac:(lia)) as (e & He & Hos).
    replace (t + 2 * 0)%nat with t in He by lia.
    assert (Hlt : (Z.of_nat i <? ra) = true) by (apply Z.ltb_lt; lia).
    repeat first [wp_step | rewrite He | rewrite Hos | rewrite Hlt
                 | progress simpl_client | progress cbv beta iota].
    eapply wp_mono.
    + apply (IH (S i) m (Some e)); cbn [env self now _writer retry_attempts];
        [reflexivity|lia|lia|].
      split.
      * intros k Hk. destruct (Hfail (S k) ltac:(lia)) as (e' & He' & Hos').
        exists e'. split; [|assumption]. rewrite <- He'. f_equal. lia.
      * rewrite <- Hopen. f_equal. lia.
    + cbn [env self now trace retry_delay]. intros r w' (Hr & HE & Hs & Hn & Hwr & Hat).
      split; [assumption|]. split; [assumption|].
      split; [rewrite Hs; do 2 f_equal; lia|].
      split; [lia|]. revert Hwr Hat. simpl_trace. intros Hwr Hat.
      split; [assumption|]. rewrite Hat, <- !app_assoc.
      rewrite (attempts_with_pauses_S _ (S j)) by lia. reflexivity.
Qed.

(** ** A successful authentication *)

Lemma _authenticate_ok w out header body q :
  is_connected (self w) = true ->
  to_bytes (create_auth_packet (_packet_id (self w) + 1) (password (self w))) = Ok out ->
  answers (env w) (now w) header body ->
  from_bytes (header ++ body) = Ok q ->
  packet_id q = _packet_id (self w) + 1 -> packet_id q <> -1 ->
  exists w',
    _authenticate w = (Ok tt, w')
    /\ env w' = env w
    /\ now w' = S (S (S (now w)))
    /\ trace w' = trace w ++ [EvLog DEBUG SendingAuth]
                  ++ exchange_events out body q ++ [EvLog INFO AuthSucceeded]
    /\ config (self w') = config (self w)
    /\ _packet_id (self w') = _packet_id (self w) + 1
    /\ _authenticated (self w') = true
    /\ _reader (self w') = _reader (self w)
    /\ _writer (self w')
       = Some (mkStreamWriter (peer_closes (env w) (S (now w))
                               || peer_closes (env w) (S (S (now w))))).
Proof.
  intros Hconn Hto Hans Hfrom Hid Hne.
  assert (Hc2 : is_connected (self (ready_to_send w SendingAuth)) = true)
    by (destruct w as [E [h p pw to ra rd rdr wtr pid au] t tr]; exact Hconn).
  destruct (exchange_ok (ready_to_send w SendingAuth)
              (create_auth_packet (_packet_id (self w) + 1) (password (self w)))
              out header body q Hc2 Hto Hans Hfrom)
    as (w2 & Hsend & HE & Hn & Htr & Hcfg & Hpid & Hau & Hrd & Hwr).
  enough (Hwp : wp _authenticate
            (fun r w' =>
               r = Ok tt /\ env w' = env w2 /\ now w' = now w2
               /\ trace w' = trace w2 ++ [EvLog INFO AuthSucceeded]
               /\ self w' = set_authenticated true (self w2)) w).
  { unfold wp in Hwp. destruct (_authenticate w) as [r w'].
    cbn [fst snd] in Hwp. destruct Hwp as (-> & HE' & Hn' & Htr' & Hs').
    exists w'. split; [reflexivity|].
    cbn [env self now trace ready_to_send] in *.
    split; [congruence|]. split; [congruence|].
    split; [rewrite Htr', Htr, <- !app_assoc; reflexivity|].
    rewrite Hs'. simpl_client.
    destruct w as [E [h p pw to ra rd rdr wtr pid au] t tr].
    cbn [env self now trace host port password timeout retry_attempts
         retry_delay _reader _writer _packet_id _authenticated] in *.
    repeat split; assumption. }
  unfold _authenticate, _get_next_packet_id.
  apply wp_bind, wp_get_self. cbv beta iota. rewrite Hconn. cbn [negb].
  assert (Hwp : wp (_send_packet_and_wait_response
                      (create_auth_packet (_packet_id (self w) + 1)
                                          (password (self w))))
                   (fun r w' =>
                      r = Ok (ResponsePacket (packet_id q) (payload q))
                      /\ w' = w2)
                   (ready_to_send w SendingAuth))
    by (unfold wp; rewrite Hsend; split; reflexivity).
  wp_steps. eapply wp_mono; [exact Hwp|].
  intros r w' [-> ->]. cbv beta iota.
  change (packet_id (ResponsePacket (packet_id q) (payload q)))
    with (packet_id q).
  change (_packet_id (set_packet_id (_packet_id (self w) + 1) (self w)))
    with (_packet_id (self w) + 1).
  rewrite (proj2 (Z.eqb_neq _ _) Hne), Hid, Z.eqb_refl. cbn [negb].
  wp_steps. repeat split.
Qed.

(** ** [connect], from the first attempt to the authentication *)

(** [connect] up to the end of its loop, on a client that holds no
    writer. *)
Lemma connect_loop w j (Q : result unit -> world -> Prop) :
  _writer (self w) = None ->
  Z.of_nat j <= retry_attempts (self w) ->
  opens_after (env w) (now w) j ->
  (forall w1 last,
      env w1 = env w
      /\ self w1 = opened (peer_closes (env w) (now w + 2 * j)) (closed (self w))
      /\ now w1 = (now w + 2 * j + 1)%nat
      /\ writes (trace w1) = writes (trace w)
      /\ attempts_of (trace w1)
         = attempts_of (trace w)
           ++ attempts_with_pauses (retry_delay (self w)) (S j) ->
      if peer_closes (env w) (now w + 2 * j)
      then Q (Raise (ConnectionError CannotConnect last)) w1
      else wp _authenticate Q w1) ->
  wp connect Q w.
Proof.
  intros Hw Hj Hopens HQ.
  unfold connect. apply wp_bind, wp_get_self. cbv beta iota.
  assert (Hnc : is_connected (self w) = false)
    by (unfold is_connected; rewrite Hw; now destruct (_reader (self w))).
  rewrite Hnc. cbn [andb].
  apply wp_bind. wp_call _close_connection_closes; [|destruct Hcall; discriminate].
  destruct Hcall as (_ & HE1 & Hs1 & Hw1 & _ & Hsame & _).
  destruct (Hsame Hw) as [Hn1 Ht1].
  wp_steps. unfold range.
  eapply wp_mono.
  - apply (connect_attempts_until_success j 0); cbn [env self now];
      rewrite ?Hs1, ?HE1, ?Hn1; simpl_client; try reflexivity; try assumption; lia.
  - cbn [env self now trace]. intros r w2 (Hr & HE2 & Hs2 & Hn2 & Hwr2 & Hat2).
    destruct r as [last|]; [|discriminate].
    apply wp_bind, wp_get_self. cbv beta iota.
    assert (Hfacts :
      env w2 = env w
      /\ self w2 = opened (peer_closes (env w) (now w + 2 * j)) (closed (self w))
      /\ now w2 = (now w + 2 * j + 1)%nat
      /\ writes (trace w2) = writes (trace w)
      /\ attempts_of (trace w2)
         = attempts_of (trace w)
           ++ attempts_with_pauses (retry_delay (self w)) (S j)).
    { revert Hwr2 Hat2. simpl_trace. rewrite Hs1, Ht1.
      cbn [retry_delay closed set_reader set_writer set_authenticated].
      intros Hwr2 Hat2. rewrite Hs2, Hs1, HE1, Hn1. repeat split; congruence. }
    specialize (HQ w2 last Hfacts).
    destruct Hfacts as (_ & Hs & _). rewrite Hs. unfold opened, is_connected.
    cbn [set_writer set_reader _reader _writer is_closing].
    destruct (peer_closes (env w) (now w + 2 * j)); cbn [negb];
      [apply wp_raise|]; exact HQ.
Qed.

(** X8: [connect] on a client that holds no writer stops trying at the first
    attempt that opens the transport: when the first [j] attempts fail
    with errors the loop handles and the next one succeeds, [j] being at
    most [retry_attempts], it makes [j + 1] attempts separated by [j]
    pauses, whatever becomes of the transport and of the authentication
    that follows. *)
Theorem connect_stops_at_first_success w j :
  _writer (self w) = None ->
  Z.of_nat j <= retry_attempts (self w) ->
  opens_after (env w) (now w) j ->
  attempts_of (trace (snd (connect w)))
  = attempts_of (trace w) ++ attempts_with_pauses (retry_delay (self w)) (S j)
  /\ opens (trace (snd (connect w))) = (opens (trace w) + S j)%nat.
Proof.
  intros Hw Hj Hopens.
  assert (H : attempts_of (trace (snd (connect w)))
              = attempts_of (trace w)
                ++ attempts_with_pauses (retry_delay (self w)) (S j)).
  { change (wp connect
              (fun _ w' =>
                 attempts_of (trace w')
                 = attempts_of (trace w)
                   ++ attempts_with_pauses (retry_delay (self w)) (S j)) w).
    apply (connect_loop w j); try assumption.
    intros w1 last (_ & _ & _ & _ & Hat).
    destruct (peer_closes (env w) (now w + 2 * j)); [exact Hat|].
    eapply wp_mono; [apply _authenticate_spec|].
    intros r w2 ((_ & _ & Ha) & _). congruence. }
  split; [exact H|].
  rewrite <- (opens_attempts_of (trace (snd (connect w)))), H, opens_app,
    opens_attempts_of, opens_attempts_with_pauses. reflexivity.
Qed.

(** X9: [connect] succeeds when, after [j] failed attempts, the peer accepts
    the connection, hands over a transport that is not closing, and
    answers the Auth packet with a frame that decodes to a packet bearing
    the id of the request, whatever its kind: the client has sent one
    packet, the Auth packet with the next id and its password, is marked
    authenticated, and [is_authenticated] holds unless the peer closed the
    transport while the response was read. *)
Theorem connect_succeeds w j out header body q :
  _writer (self w) = None ->
  Z.of_nat j <= retry_attempts (self w) ->
  opens_after (env w) (now w) j ->
  peer_closes (env w) (now w + 2 * j) = false ->
  to_bytes (create_auth_packet (_packet_id (self w) + 1) (password (self w))) = Ok out ->
  answers (env w) (now w + 2 * j + 1) header body ->
  from_bytes (header ++ body) = Ok q ->
  packet_id q = _packet_id (self w) + 1 -> packet_id q <> -1 ->
  let w' := snd (connect w) in
  fst (connect w) = Ok tt
  /\ writes (trace w') = writes (trace w) ++ [out]
  /\ opens (trace w') = (opens (trace w) + S j)%nat
  /\ _packet_id (self w') = _packet_id (self w) + 1
  /\ _authenticated (self w') = true
  /\ is_authenticated (self w')
     = negb (peer_closes (env w) (now w + 2 * j + 2)
             || peer_closes (env w) (now w + 2 * j + 3)).
Proof.
  intros Hw Hj Hopens Hclean Hto Hans Hfrom Hid Hne. cbv zeta.
  match goal with
  | |- fst ?run = ?x /\ ?a = ?b /\ ?c = ?d /\ ?e = ?f /\ ?g = ?h /\ ?i = ?k =>
      change (wp connect
                (fun r w' =>
                   r = Ok tt
                   /\ writes (trace w') = writes (trace w) ++ [out]
                   /\ opens (trace w') = (opens (trace w) + S j)%nat
                   /\ _packet_id (self w') = _packet_id (self w) + 1
                   /\ _authenticated (self w') = true
                   /\ is_authenticated (self w') = k) w)
  end.
  apply (connect_loop w j); try assumption.
  intros w1 last (HE1 & Hs1 & Hn1 & Hwr1 & Hat1). rewrite Hclean.
  assert (Hp1 : _packet_id (self w1) = _packet_id (self w)) by now rewrite Hs1.
  assert (Hpw1 : password (self w1) = password (self w)) by now rewrite Hs1.
  destruct (_authenticate_ok w1 out header body q)
    as (w2 & Hrun & HE2 & Hn2 & Htr2 & _ & Hp2 & Hau2 & Hrd2 & Hwr2);
    rewrite ?Hp1, ?Hpw1, ?HE1, ?Hn1; try assumption;
    [rewrite Hs1, Hclean; reflexivity|].
  unfold wp. rewrite Hrun. cbn [fst snd]. split; [reflexivity|].
  split.
  { rewrite Htr2, !writes_app, Hwr1. unfold exchange_events. cbn [writes].
    now rewrite app_nil_r. }
  split.
  { rewrite Htr2, !opens_app, <- (opens_attempts_of (trace w1)), Hat1,
      opens_app, opens_attempts_of, opens_attempts_with_pauses.
    unfold exchange_events. cbn. lia. }
  split; [congruence|]. split; [assumption|].
  unfold is_authenticated, is_connected. rewrite Hau2, Hrd2, Hwr2, Hs1, HE1, Hn1.
  cbn [opened closed set_writer set_reader _reader is_closing andb].
  do 3 f_equal; f_equal; lia.
Qed.

Lemma connect_stops_at_first_success_witness :
  opens (trace (snd (connect (start accepts_third_attempt)))) = 3%nat.
Proof.
  apply (connect_stops_at_first_success (start accepts_third_attempt) 2).
  - reflexivity.
  - vm_compute. discriminate.
  - split; [|reflexivity].
    intros [|[|k]] Hk; try lia; exists ConnectionRefusedError; split; reflexivity.
Defined.

Lemma connect_succeeds_witness :
  fst (connect (start accepts_third_attempt)) = Ok tt
  /\ is_authenticated (self (snd (connect (start accepts_third_attempt)))) = true.
Proof.
  destruct (connect_succeeds (start accepts_third_attempt) 2
              [12; 0; 0; 0; 1; 0; 0; 0; 3; 0; 0; 0; 112; 119; 0; 0]
              [10; 0; 0; 0] (empty_reply 1) (mkRconPacket 1 (Member COMMAND_VALUE) []))
    as (Hr & _ & _ & _ & _ & Ha).
  - reflexivity.
  - vm_compute. discriminate.
  - split; [|reflexivity].
    intros [|[|k]] Hk; try lia; exists ConnectionRefusedError; split; reflexivity.
  - reflexivity.
  - reflexivity.
  - repeat split.
  - reflexivity.
  - reflexivity.
  - discriminate.
  - split; [exact Hr|exact Ha].
Defined.

(** ** Attempts that are not made *)

(** X10: with a negative [retry_attempts] the loop of [connect] has nothing to
    iterate over: a client that is not authenticated fails with
    [ConnectionError] without one attempt to open the transport, and the
    error it reports as the cause is [None]. *)
Theorem connect_without_attempts w :
  retry_attempts (self w) < 0 -> is_authenticated (self w) = false ->
  fst (connect w) = Raise (ConnectionError CannotConnect None)
  /\ opens (trace (snd (connect w))) = opens (trace w)
  /\ writes (trace (snd (connect w))) = writes (trace w)
  /\ Disconnected (self (snd (connect w))).
Proof.
  intros Hra Hau.
  change (wp connect
            (fun r w' =>
               r = Raise (ConnectionError CannotConnect None)
               /\ opens (trace w') = opens (trace w)
               /\ writes (trace w') = writes (trace w)
               /\ Disconnected (self w')) w).
  unfold connect. apply wp_bind, wp_get_self. cbv beta iota.
  rewrite Hau, andb_false_r.
  apply wp_bind. wp_call _close_connection_spec; [|destruct Hcall; discriminate].
  destruct Hcall as (_ & HE1 & Hs1 & Hw1 & Ha1 & _).
  wp_steps. unfold range. rewrite Hs1.
  replace (Z.to_nat (retry_attempts (closed (self w)) + 1)) with 0%nat
    by (unfold closed; simpl_client; lia).
  cbn [seq map connect_attempts]. wp_steps.
  unfold closed at 1. simpl_client. wp_steps.
  split; [reflexivity|]. simpl_trace.
  rewrite <- (opens_attempts_of (trace w' ++ _)), attempts_of_app, Ha1.
  cbn [attempts_of]. rewrite app_nil_r, opens_attempts_of.
  split; [reflexivity|]. split; [assumption|]. repeat split.
Qed.

Lemma connect_without_attempts_witness :
  fst (connect (mkWorld (server (fun _ => ReadRaises asyncio_TimeoutError))
                        client_without_attempts 0 []))
  = Raise (ConnectionError CannotConnect None).
Proof.
  apply (connect_without_attempts
           (mkWorld (server (fun _ => ReadRaises asyncio_TimeoutError))
                    client_without_attempts 0 [])).
  - reflexivity.
  - reflexivity.
Defined.

(** A call of [_close_connection], which returns. *)
Ltac close_call :=
  wp_call _close_connection_closes;
  [ match goal with
    | H : Ok _ = Ok tt /\ _ |- _ =>
        destruct H as (_ & ? & ? & ? & _ & _ & (? & ?))
    end
  | match goal with
    | H : Raise _ = Ok tt /\ _ |- _ => destruct H; discriminate
    end ].

(** ** A response that does not come *)

(** X11: when the response to a command times out, what [execute_command]
    raises depends on the interpreter.  From Python 3.11 on the timeout is
    an [OSError]: the exchange wraps it in [ConnectionError], and
    [execute_command] logs it as an error of the command, not through its
    handler of timeouts.  Before, [asyncio.TimeoutError] itself reaches the
    caller and the timeout handler logs it.  Either way the request was
    written once and the client is left disconnected. *)
Theorem response_timeout w command out :
  is_authenticated (self w) = true ->
  to_bytes (create_command_packet (_packet_id (self w) + 1) command) = Ok out ->
  drain (env w) (now w) = Done -> peer_closes (env w) (now w) = false ->
  readexactly (env w) (S (now w)) = ReadRaises asyncio_TimeoutError ->
  let r := execute_command command w in
  let wrapped := ConnectionError NetworkError (Some asyncio_TimeoutError) in
  fst r = Raise (if unified_timeout (env w) then wrapped else asyncio_TimeoutError)
  /\ In (EvLog ERROR (if unified_timeout (env w)
                      then CommandError command wrapped
                      else CommandTimeout command))
        (trace (snd r))
  /\ writes (trace (snd r)) = writes (trace w) ++ [out]
  /\ Disconnected (self (snd r)).
Proof.
  destruct w as [E [h p pw to ra rd rdr wtr pid au] t tr].
  unfold is_authenticated, is_connected.
  cbn [env self now trace _reader _writer _authenticated _packet_id].
  intros Hauth Hto Hdrain Hopen Hread. cbv zeta.
  destruct au; [|discriminate]. destruct rdr as [rdr|]; [|discriminate].
  destruct wtr as [[cl]|]; [|discriminate].
  cbn [is_closing andb] in Hauth. apply negb_true_iff in Hauth. subst cl.
  match goal with
  | |- fst ?run = ?x /\ In ?l (trace (snd ?run)) /\ writes (trace (snd ?run)) = ?ws
       /\ Disconnected (self (snd ?run)) =>
      change (wp (execute_command command)
                (fun r w' => r = x /\ In l (trace w') /\ writes (trace w') = ws
                             /\ Disconnected (self w'))
                (mkWorld E (mkClient h p pw to ra rd (Some rdr)
                                     (Some (mkStreamWriter false)) pid true) t tr))
  end.
  unfold execute_command, _get_next_packet_id, _send_packet_and_wait_response,
    _read_packet_data, reader_readexactly, writer_write, writer_drain.
  destruct (unified_timeout E) eqn:Hu;
    repeat first
      [ wp_step
      | wp_connected
      | progress simpl_client
      | rewrite Hto | rewrite Hdrain | rewrite Hopen | rewrite Hread
      | rewrite Hu
      | progress change (4 =? 0) with false
      | progress cbn [is_OSError]
      | progress cbv beta iota
      | close_call ];
    cbn [env self now trace] in *;
    (split; [reflexivity|]);
    (split;
     [ repeat match goal with H : trace _ = _ |- _ => rewrite H; clear H end;
       rewrite !in_app_iff; cbn [In]; auto 10
     | split;
       [ repeat (match goal with
                 | H : writes (trace _) = _ |- _ => rewrite H; clear H
                 end; rewrite ?writes_app; cbn [writes]);
         now rewrite ?app_nil_r
       | match goal with H : self _ = _ |- _ => rewrite H end; repeat split ] ]).
Qed.

Lemma response_timeout_witness :
  fst (execute_command [108] (mkWorld silent_peer authenticated_client 0 []))
  = Raise (ConnectionError NetworkError (Some asyncio_TimeoutError)).
Proof.
  destruct (response_timeout (mkWorld silent_peer authenticated_client 0 []) [108]
              [11; 0; 0; 0; 2; 0; 0; 0; 2; 0; 0; 0; 108; 0; 0]) as [H _];
    [reflexivity | vm_compute; reflexivity | reflexivity | reflexivity
    | reflexivity | exact H].
Defined.

(** ** Framing *)

Lemma int_from_bytes_int32_at header rest :
  len header = 4 ->
  int_from_bytes_little_signed header = int32_at (header ++ rest) 0.
Proof.
  unfold len. intros Hl.
  destruct header as [|b0 [|b1 [|b2 [|b3 [|]]]]]; cbn [length] in Hl; try lia.
  unfold int_from_bytes_little_signed, int32_at, len.
  cbn [from_little length app nth Nat.add].
  change (2 ^ (8 * Z.of_nat 4)) with 4294967296.
  destruct (Z.leb_spec 4294967296
              (2 * (b0 + 256 * (b1 + 256 * (b2 + 256 * (b3 + 256 * 0))))));
    destruct (Z.ltb_spec (b0 + 256 * b1 + 65536 * b2 + 16777216 * b3) 2147483648);
    lia.
Qed.

Lemma reader_readexactly_length n w :
  wp (reader_readexactly n)
     (fun r w' =>
        env w' = env w /\ trace w' = trace w ++ [EvRead n]
        /\ match r with
           | Ok bs => 0 <= n -> len bs = n
           | Raise e =>
               n <> 0
               /\ (e = IncompleteReadError
                   \/ readexactly (env w) (now w) = ReadRaises e)
           end) w.
Proof.
  unfold reader_readexactly. wp_steps.
  destruct (Z.eqb_spec n 0) as [->|Hn].
  - wp_steps. repeat split.
  - wp_steps. destruct (readexactly (env w) (now w)) as [bs|e].
    + destruct (Z.eqb_spec (len bs) n); wp_steps; repeat split; auto.
    + wp_steps. repeat split; auto.
Qed.

Lemma _read_packet_data_frame w :
  wp _read_packet_data
     (fun r w' =>
        match r with
        | Ok data =>
            exists header body,
              data = header ++ body /\ len header = 4
              /\ int_from_bytes_little_signed header = len body
              /\ trace w' = trace w ++ [EvRead 4; EvRead (len body)]
        | Raise e =>
            e = ConnectionError CannotReadLength None ->
            exists t, readexactly (env w) t = ReadRaises e
        end) w.
Proof.
  unfold _read_packet_data. apply wp_bind, wp_get_self. cbv beta iota.
  destruct (negb (is_connected (self w))); [apply wp_raise; discriminate|].
  apply wp_bind. wp_call reader_readexactly_length.
  - destruct Hcall as (HE & Htr & Hlen). specialize (Hlen ltac:(lia)).
    rewrite Hlen. change (4 =? 4) with true. cbn [negb].
    destruct (Z.ltb_spec (int_from_bytes_little_signed a) 0) as [Hneg|Hpos].
    + apply wp_raise. discriminate.
    + apply wp_bind. wp_call reader_readexactly_length.
      * destruct Hcall as (_ & Htr' & Hlen'). specialize (Hlen' Hpos).
        apply wp_ret. exists a, a0. rewrite Htr', Htr, <- app_assoc, Hlen'.
        repeat split; auto.
      * destruct Hcall as (_ & _ & _ & [->|Hr]); [discriminate|].
        intros _. rewrite HE in Hr. eauto.
  - destruct Hcall as (_ & _ & _ & [->|Hr]); [discriminate|]. eauto.
Qed.

(** X12: what [_read_packet_data] returns is a frame whose length field counts
    the bytes that follow it: [parse_packet] never rejects it for a length
    mismatch, and rejects it as too short exactly when the peer declared
    fewer than 8 bytes.  It has read twice, four bytes and then the number
    of bytes declared.  A negative declared length is refused after the
    four bytes of the length field, without a second read.  The test on
    the number of bytes read for the length field never fires:
    [readexactly] returns four bytes or raises, so the error of that test
    is raised only when the stream itself raises it. *)
Theorem read_packet_data_frames w :
  (forall data w',
      _read_packet_data w = (Ok data, w') ->
      4 <= len data /\ int32_at data 0 = len data - 4
      /\ trace w' = trace w ++ [EvRead 4; EvRead (len data - 4)]
      /\ (forall d a, parse_packet data <> Raise (PacketParseError (LengthMismatch d a)))
      /\ (parse_packet data = Raise (PacketParseError LengthInsufficient)
          <-> int32_at data 0 < 8))
  /\ (forall header,
        is_connected (self w) = true ->
        readexactly (env w) (now w) = Data header -> len header = 4 ->
        int_from_bytes_little_signed header < 0 ->
        fst (_read_packet_data w)
        = Raise (PacketParseError (InvalidLength (int_from_bytes_little_signed header)))
        /\ trace (snd (_read_packet_data w)) = trace w ++ [EvRead 4])
  /\ (fst (_read_packet_data w) = Raise (ConnectionError CannotReadLength None) ->
      exists t, readexactly (env w) t
                = ReadRaises (ConnectionError CannotReadLength None)).
Proof.
  split; [|split].
  - intros data w' Hrun.
    pose proof (wp_run _ _ _ _ _ (_read_packet_data_frame w) Hrun)
      as (header & body & -> & Hl & Hdecl & Htr).
    rewrite (int_from_bytes_int32_at header body Hl) in Hdecl.
    pose proof (len_nonneg body) as Hb.
    assert (Hlen : len (header ++ body) = 4 + len body) by (rewrite len_app; lia).
    split; [lia|]. split; [lia|].
    split; [rewrite Htr; do 4 f_equal; lia|].
    unfold parse_packet, from_bytes.
    destruct (Z.ltb_spec (len (header ++ body)) 12) as [Hshort|Hlong].
    + split; [discriminate|]. split; [lia|reflexivity].
    + destruct (unpack_header (header ++ body) Hlong) as (-> & -> & ->).
      cbn [rbind].
      destruct (Z.eqb_spec (int32_at (header ++ body) 0) (len (header ++ body) - 4));
        [|lia]. cbn [negb].
      destruct (RconPacketType_of _);
        (split; [discriminate|]); (split; [discriminate|lia]).
  - intros header Hconn Hread Hl Hneg.
    change (wp _read_packet_data
              (fun r w' =>
                 r = Raise (PacketParseError
                              (InvalidLength (int_from_bytes_little_signed header)))
                 /\ trace w' = trace w ++ [EvRead 4]) w).
    unfold _read_packet_data, reader_readexactly.
    apply wp_bind, wp_get_self. cbv beta iota. rewrite Hconn. cbn [negb].
    repeat first [wp_step | rewrite Hread | rewrite Hl
                 | rewrite (proj2 (Z.ltb_lt _ 0) Hneg)
                 | progress change (4 =? 0) with false
                 | progress change (4 =? 4) with true
                 | progress cbn [negb]
                 | progress cbv beta iota].
    split; reflexivity.
  - intros Hr. pose proof (_read_packet_data_frame w) as H. unfold wp in H.
    rewrite Hr in H. apply H. reflexivity.
Qed.

Lemma read_packet_data_frames_witness :
  fst (_read_packet_data
         (mkWorld (server (fun _ => Data [255; 255; 255; 255])) connected_client 0 []))
  = Raise (PacketParseError (InvalidLength (-1))).
Proof.
  destruct (read_packet_data_frames
              (mkWorld (server (fun _ => Data [255; 255; 255; 255]))
                       connected_client 0 []))
    as (_ & H & _).
  destruct (H [255; 255; 255; 255]) as [Hr _];
    [reflexivity | reflexivity | reflexivity | vm_compute; reflexivity | exact Hr].
Defined.

(** ** [ping] *)

(** A command whose response arrives, on an authenticated client. *)
Lemma execute_command_ok w command out header body q :
  is_authenticated (self w) = true ->
  to_bytes (create_command_packet (_packet_id (self w) + 1) command) = Ok out ->
  answers (env w) (now w) header body ->
  from_bytes (header ++ body) = Ok q ->
  exists w',
    execute_command command w = (Ok (payload q), w')
    /\ env w' = env w
    /\ now w' = S (S (S (now w)))
    /\ writes (trace w') = writes (trace w) ++ [out]
    /\ _packet_id (self w') = _packet_id (self w) + 1.
Proof.
  intros Hauth Hto Hans Hfrom.
  assert (Hconn : is_connected (self w) = true)
    by (unfold is_authenticated in Hauth; now apply andb_true_iff in Hauth).
  assert (Hc2 : is_connected (self (ready_to_send w (Executing command))) = true)
    by (destruct w as [E [h p pw to ra rd rdr wtr pid au] t tr]; exact Hconn).
  destruct (exchange_ok (ready_to_send w (Executing command))
              (create_command_packet (_packet_id (self w) + 1) command)
              out header body q Hc2 Hto Hans Hfrom)
    as (w2 & Hsend & HE & Hn & Htr & _ & Hpid & _).
  assert (Hwp : wp (_send_packet_and_wait_response
                      (create_command_packet (_packet_id (self w) + 1) command))
                   (fun r w' =>
                      r = Ok (ResponsePacket (packet_id q) (payload q))
                      /\ w' = w2)
                   (ready_to_send w (Executing command)))
    by (unfold wp; rewrite Hsend; split; reflexivity).
  enough (H : wp (execute_command command)
            (fun r w' =>
               r = Ok (payload q) /\ env w' = env w2 /\ now w' = now w2
               /\ writes (trace w') = writes (trace w2)
               /\ _packet_id (self w') = _packet_id (self w2)) w).
  { unfold wp in H. destruct (execute_command command w) as [r w'].
    cbn [fst snd] in H. destruct H as (-> & HE' & Hn' & Hwr' & Hp').
    exists w'. split; [reflexivity|].
    cbn [env self now trace ready_to_send] in *.
    split; [congruence|]. split; [congruence|].
    split.
    - rewrite Hwr', Htr, !writes_app. unfold exchange_events. cbn [writes].
      now rewrite !app_nil_r.
    - rewrite Hp', Hpid. reflexivity. }
  unfold execute_command, _get_next_packet_id.
  apply wp_bind, wp_get_self. cbv beta iota. rewrite Hauth. cbn [negb when].
  wp_steps. eapply wp_mono; [exact Hwp|].
  intros r w' [-> ->]. cbv beta iota.
  change (payload (ResponsePacket (packet_id q) (payload q))) with (payload q).
  destruct (negb _); cbn [when]; wp_steps; simpl_trace; repeat split;
    now rewrite ?app_nil_r.
Qed.

(** X13: [ping] on an authenticated client whose peer answers: one packet is
    sent, the command of the source with the next id; whatever the peer
    answered, id, kind and payload, is dropped, and the result is the time
    read after the three awaits of the exchange minus the time read before
    it, times 1000. *)
Theorem ping_measures_the_exchange w out header body q :
  is_authenticated (self w) = true ->
  to_bytes (create_command_packet (_packet_id (self w) + 1)
                                  (literal Literals.time_query_daytime)) = Ok out ->
  answers (env w) (now w) header body ->
  from_bytes (header ++ body) = Ok q ->
  fst (ping w)
  = Ok ((time_time (env w) (S (S (S (now w)))) - time_time (env w) (now w)) * 1000)%float
  /\ writes (trace (snd (ping w))) = writes (trace w) ++ [out]
  /\ _packet_id (self (snd (ping w))) = _packet_id (self w) + 1.
Proof.
  intros Hauth Hto Hans Hfrom.
  destruct (execute_command_ok w _ out header body q Hauth Hto Hans Hfrom)
    as (w1 & Hrun & HE & Hn & Hwr & Hp).
  change (wp ping
            (fun r w' =>
               r = Ok ((time_time (env w) (S (S (S (now w))))
                        - time_time (env w) (now w)) * 1000)%float
               /\ writes (trace w') = writes (trace w) ++ [out]
               /\ _packet_id (self w') = _packet_id (self w) + 1) w).
  unfold ping. apply wp_bind, wp_get_self. cbv beta iota.
  rewrite Hauth. cbn [negb when]. wp_steps.
  unfold wp at 1. rewrite Hrun. cbn [fst snd]. wp_steps.
  rewrite HE, Hn. simpl_trace. rewrite ?app_nil_r. repeat split; assumption.
Qed.

Lemma ping_measures_the_exchange_witness :
  fst (ping (mkWorld answers_with_other_id authenticated_client 0 []))
  = Ok 0%float.
Proof.
  destruct (ping_measures_the_exchange
              (mkWorld answers_with_other_id authenticated_client 0 [])
              [28; 0; 0; 0; 2; 0; 0; 0; 2; 0; 0; 0;
               116; 105; 109; 101; 32; 113; 117; 101; 114; 121; 32;
               100; 97; 121; 116; 105; 109; 101; 0; 0]
              [12; 0; 0; 0] [99; 0; 0; 0; 0; 0; 0; 0; 111; 107; 0; 0]
              (ResponsePacket 99 [111; 107]))
    as (H & _);
    [reflexivity | vm_compute; reflexivity | repeat split | reflexivity |].
  rewrite H. vm_compute. reflexivity.
Defined.

(** X14: what [ping] raises is what its own [connect] raised, as it is (the
    error of a refused password included), or the [ConnectionError] that
    wraps what [execute_command] raised, which is logged as an error.
    Nothing else leaves [ping]. *)
Theorem ping_raises w e :
  fst (ping w) = Raise e ->
  (is_authenticated (self w) = false /\ connect w = (Raise e, snd (ping w)))
  \/ exists cause,
       e = ConnectionError PingFailed (Some cause)
       /\ In (EvLog ERROR (PingError cause)) (trace (snd (ping w))).
Proof.
  unfold ping, bind, try_except, when, get_self, get_time, log, emit, raise, ret.
  destruct (is_authenticated (self w)) eqn:Hauth; cbn [negb].
  - destruct (execute_command _ w) as [[s|e2] w2]; cbn [fst snd];
      [discriminate|].
    intros [= <-]. right. exists e2. split; [reflexivity|].
    cbn [trace]. apply in_or_app. right. now left.
  - destruct (connect w) as [[[]|e1] w1]; cbn [fst snd].
    + destruct (execute_command _ w1) as [[s|e2] w2]; cbn [fst snd];
        [discriminate|].
      intros [= <-]. right. exists e2. split; [reflexivity|].
      cbn [trace]. apply in_or_app. right. now left.
    + intros [= <-]. left. split; reflexivity.
Qed.

Lemma ping_raises_witness :
  connect (start rejects_password)
  = (Raise (AuthenticationError WrongPassword), snd (ping (start rejects_password))).
Proof.
  destruct (ping_raises (start rejects_password) (AuthenticationError WrongPassword))
    as [[_ H]|(cause & Hc & _)];
    [vm_compute; reflexivity | exact H | discriminate Hc].
Defined.

End ClientMore.

Module ContextFacts.
Import Py RconProtocol RconClient Spec PyFacts CodecFacts ClientFacts SpecMore
  ClientMore ContextManager.
Local Open Scope client_scope.

(** X15: [async with client: block] when [connect] returns: the block runs in
    the state [connect] left, its result or its exception is the one of
    the whole statement, and the client is disconnected afterwards,
    whatever the block did, the writer it held at the end of the block
    closed once.  When [connect] raises, the statement raises the same
    error in the state [connect] left: neither the block nor
    [disconnect] runs. *)
Theorem async_with_disconnects {A} (block : M A) w :
  match connect w with
  | (Ok _, w1) =>
      let w2 := snd (block w1) in
      let w3 := snd (async_with block w) in
      fst (async_with block w) = fst (block w1)
      /\ Disconnected (self w3)
      /\ env w3 = env w2
      /\ writes (trace w3) = writes (trace w2)
      /\ closes (trace w3) = (closes (trace w2) + held (self w2))%nat
  | (Raise e, w1) => async_with block w = (Raise e, w1)
  end.
Proof.
  destruct (connect w) as [[[]|e] w1] eqn:Hconnect;
    unfold async_with, __aenter__, __aexit__, disconnect, bind, log, emit, ret, raise;
    rewrite Hconnect; [|reflexivity].
  cbv zeta.
  destruct (block w1) as [r w2]. cbn [fst snd].
  pose proof (_close_connection_closes w2) as Hc. unfold wp in Hc.
  destruct (_close_connection w2) as [rc w3]. cbn [fst snd] in Hc.
  destruct Hc as (-> & HE & Hs & Hwr & Hcl & _).
  destruct r as [a|e]; cbn [fst snd env self trace];
    (split; [reflexivity|]);
    (split; [rewrite Hs; apply Disconnected_closed|]);
    (split; [assumption|]);
    rewrite writes_app, closes_app; cbn [writes closes];
    rewrite app_nil_r; split; [assumption|lia|assumption|lia].
Qed.

End ContextFacts.

(* ================================================================== *)
(** * [config.py] *)
(* ================================================================== *)

Module ConfigFacts.
Import Py Config ConfigSpec.

Lemma str_eqb_eq a b : str_eqb a b = true <-> a = b.
Proof.
  revert b. induction a as [|x a IH]; intros [|y b]; cbn [str_eqb];
    try (split; [discriminate|congruence]); [tauto|].
  rewrite andb_true_iff, Z.eqb_eq, IH. split; [intros [-> ->]|intros [= -> ->]]; auto.
Qed.

Lemma str_eqb_refl a : str_eqb a a = true.
Proof. now apply str_eqb_eq. Qed.

Lemma str_eqb_neq a b : str_eqb a b = false <-> a <> b.
Proof.
  rewrite <- str_eqb_eq. destruct (str_eqb a b); split; congruence.
Qed.

Lemma dict_get_In {V} (d : dict V) k :
  dict_get d k <> None <-> In k (dict_keys d).
Proof.
  induction d as [|[k' v] d IH]; cbn [dict_get dict_keys map fst In].
  - tauto.
  - destruct (str_eqb k' k) eqn:E.
    + apply str_eqb_eq in E. split; [auto|discriminate].
    + apply str_eqb_neq in E. fold (dict_keys d). rewrite IH. tauto.
Qed.

Lemma dict_get_set {V} (d : dict V) k v k' :
  dict_get (dict_set d k v) k' = if str_eqb k k' then Some v else dict_get d k'.
Proof.
  induction d as [|[k0 v0] d IH]; cbn [dict_get dict_set].
  - reflexivity.
  - destruct (str_eqb k0 k) eqn:E; cbn [dict_get].
    + apply str_eqb_eq in E. subst k0. now destruct (str_eqb k k').
    + rewrite IH. destruct (str_eqb k0 k') eqn:E'; [|reflexivity].
      apply str_eqb_eq in E'. subst k0. now rewrite (proj2 (str_eqb_neq _ _))
        by (apply str_eqb_neq in E; congruence).
Qed.

Lemma dict_keys_set {V} (d : dict V) k v :
  dict_keys (dict_set d k v)
  = if dict_contains d k then dict_keys d else dict_keys d ++ [k].
Proof.
  unfold dict_contains.
  induction d as [|[k0 v0] d IH]; cbn [dict_get dict_set dict_keys map fst app].
  - reflexivity.
  - destruct (str_eqb k0 k) eqn:E; cbn [dict_keys map fst]; [reflexivity|].
    fold (dict_keys (dict_set d k v)). rewrite IH. fold (dict_keys d).
    now destruct (dict_get d k).
Qed.

Lemma dict_keys_del {V} (d : dict V) k :
  dict_keys (dict_del d k) = without k (dict_keys d).
Proof.
  induction d as [|[k0 v0] d IH]; cbn [dict_del dict_keys map fst without].
  - reflexivity.
  - destruct (str_eqb k0 k); cbn [map fst]; [reflexivity|].
    f_equal. exact IH.
Qed.

Lemma dict_get_del_other {V} (d : dict V) k k' :
  k' <> k -> dict_get (dict_del d k) k' = dict_get d k'.
Proof.
  intros Hne. induction d as [|[k0 v0] d IH]; cbn [dict_get dict_del].
  - reflexivity.
  - destruct (str_eqb k0 k) eqn:E; cbn [dict_get].
    + apply str_eqb_eq in E. subst k0.
      now rewrite (proj2 (str_eqb_neq k k')) by congruence.
    + now rewrite IH.
Qed.

Lemma dict_get_del_same {V} (d : dict V) k :
  distinct_keys d -> dict_get (dict_del d k) k = None.
Proof.
  unfold distinct_keys.
  induction d as [|[k0 v0] d IH]; cbn [dict_get dict_del dict_keys map fst].
  - reflexivity.
  - intros Hnd. inversion Hnd as [|? ? Hnotin Hnd']. subst.
    destruct (str_eqb k0 k) eqn:E; cbn [dict_get].
    + apply str_eqb_eq in E. subst k0.
      destruct (dict_get d k) eqn:G; [|reflexivity].
      exfalso. apply Hnotin. apply dict_get_In. congruence.
    + rewrite E. now apply IH.
Qed.

Lemma In_without k x l : In x (without k l) -> In x l.
Proof.
  induction l as [|y l IH]; cbn [without In]; [tauto|].
  destruct (str_eqb y k); cbn [In]; tauto.
Qed.

Lemma NoDup_without k l : NoDup l -> NoDup (without k l).
Proof.
  induction 1 as [|y l Hn Hnd IH]; cbn [without]; [constructor|].
  destruct (str_eqb y k); [assumption|].
  constructor; [|assumption]. intros Hin. apply Hn. eapply In_without, Hin.
Qed.

Lemma distinct_keys_set {V} (d : dict V) k v :
  distinct_keys d -> distinct_keys (dict_set d k v).
Proof.
  unfold distinct_keys. rewrite dict_keys_set. unfold dict_contains.
  destruct (dict_get d k) eqn:G; [auto|]. intros Hnd.
  apply NoDup_app; [assumption|repeat constructor; intros []|].
  intros x Hin [<-|[]]. apply dict_get_In in Hin. congruence.
Qed.

(** X16: the methods of [Config] keep the default server among the configured
    ones, and each name once in the dictionary: [add_server] leaves the
    default alone, and [remove_server] clears it exactly when the server
    removed is the default one.  So on such a [Config] a default name that
    is not the empty string always has its configuration; the empty name
    never has, the test on it being one of truth. *)
Theorem default_server_stays_configured c name config :
  default_is_configured c -> distinct_keys (servers c) ->
  let c1 := fst (add_server c name config) in
  let c2 := snd (fst (remove_server c name)) in
  (default_is_configured c1 /\ distinct_keys (servers c1)
   /\ default_server c1 = default_server c)
  /\ (default_is_configured c2 /\ distinct_keys (servers c2)
      /\ default_server c2
         = if dict_contains (servers c) name
           then match default_server c with
                | Some d => if str_eqb d name then None else Some d
                | None => None
                end
           else default_server c)
  /\ (forall d,
        default_server c = Some d ->
        get_default_server_config c
        = match d with [] => None | _ => get_server_config c d end
          /\ get_server_config c d <> None).
Proof.
  destruct c as [sv u lg df]. unfold default_is_configured, distinct_keys.
  cbn [servers default_server]. intros Hdef Hnd. cbv zeta.
  split; [|split].
  - unfold add_server. cbn [fst servers default_server].
    split; [|split; [now apply distinct_keys_set|reflexivity]].
    destruct df as [d|]; [|exact I].
    unfold dict_contains in *. rewrite dict_get_set.
    destruct (str_eqb name d); [reflexivity|assumption].
  - unfold remove_server. cbn [servers default_server].
    destruct (dict_contains sv name) eqn:Hin; cbn [fst snd servers default_server];
      [|now repeat split].
    split; [|split; [|reflexivity]].
    + destruct df as [d|]; [|exact I].
      destruct (str_eqb d name) eqn:E; [exact I|].
      apply str_eqb_neq in E. unfold dict_contains in *.
      now rewrite dict_get_del_other.
    + rewrite dict_keys_del. now apply NoDup_without.
  - intros d ->. unfold get_default_server_config, get_server_config, truthy.
    cbn [default_server servers]. unfold dict_contains in Hdef.
    split; [now destruct d|]. now destruct (dict_get sv d).
Qed.

Lemma default_server_stays_configured_witness :
  default_server (snd (fst (remove_server one_server [108]))) = None.
Proof.
  destruct (default_server_stays_configured one_server [108] local_server)
    as (_ & (_ & _ & H) & _).
  - reflexivity.
  - repeat constructor. intros [].
  - exact H.
Defined.

(** X17: [add_server] and [remove_server] on the dictionary of servers, as
    [get_server_config] and [list_servers] see them.  A server added is
    found under its name with the configuration given, keeps its place in
    the list when the name was there and goes last when it was not; the
    other names keep their configurations.  [remove_server] answers
    whether the name was configured; when it was, the name is gone from
    the lookup and from the list and the other names keep their
    configurations and their order; when it was not, nothing changes and
    nothing is logged. *)
Theorem servers_are_kept_by_name c name config other :
  distinct_keys (servers c) -> other <> name ->
  let c1 := fst (add_server c name config) in
  let r := remove_server c name in
  let c2 := snd (fst r) in
  get_server_config c1 name = Some config
  /\ get_server_config c1 other = get_server_config c other
  /\ list_servers c1
     = (if dict_contains (servers c) name
        then list_servers c else list_servers c ++ [name])
  /\ fst (fst r) = dict_contains (servers c) name
  /\ (fst (fst r) = true ->
      get_server_config c2 name = None
      /\ ~ In name (list_servers c2)
      /\ list_servers c2 = without name (list_servers c))
  /\ (fst (fst r) = false -> c2 = c /\ snd r = [])
  /\ get_server_config c2 other = get_server_config c other
  /\ ui c1 = ui c /\ logging c1 = logging c
  /\ ui c2 = ui c /\ logging c2 = logging c.
Proof.
  destruct c as [sv u lg df]. unfold distinct_keys. cbn [servers].
  intros Hnd Hne. cbv zeta.
  unfold add_server, remove_server, get_server_config, list_servers.
  cbn [fst snd servers ui logging].
  split; [now rewrite dict_get_set, str_eqb_refl|].
  split; [rewrite dict_get_set;
          now rewrite (proj2 (str_eqb_neq name other)) by congruence|].
  split; [apply dict_keys_set|].
  destruct (dict_contains sv name) eqn:Hin; cbn [fst snd servers ui logging].
  - split; [reflexivity|]. split.
    + intros _. split; [now apply dict_get_del_same|]. split.
      * intros Hin'. apply dict_get_In in Hin'.
        now rewrite dict_get_del_same in Hin'.
      * apply dict_keys_del.
    + split; [discriminate|]. split; [now apply dict_get_del_other|].
      repeat split.
  - split; [reflexivity|]. split; [discriminate|].
    split; [intros _; split; reflexivity|]. repeat split.
Qed.

Lemma servers_are_kept_by_name_witness :
  list_servers (fst (add_server one_server [109] local_server)) = [[108]; [109]].
Proof.
  destruct (servers_are_kept_by_name one_server [109] local_server [108])
    as (_ & _ & H & _).
  - repeat constructor. intros [].
  - discriminate.
  - exact H.
Defined.

End ConfigFacts.

(* ================================================================== *)
(** * [commands.py] *)
(* ================================================================== *)

Module CommandsFacts.
Import Py Commands CommandsSpec.
Local Open Scope commands_scope.

(** ** [split], [strip] and [join] *)

Lemma space_is_space : isspace 32 = true.
Proof. reflexivity. Qed.

Lemma split_from_tokens s :
  forall word, Forall (fun c => isspace c = false) word ->
               Forall is_token (split_from word s).
Proof.
  assert (Htok : forall c word,
             Forall (fun c => isspace c = false) (c :: word) ->
             is_token (rev (c :: word))).
  { intros c word H. split.
    - cbn [rev]. intros E. now apply app_eq_nil in E as [_ E].
    - now apply Forall_rev. }
  induction s as [|c s IH]; intros word Hw; cbn [split_from].
  - destruct word; [constructor|]. constructor; [now apply Htok|constructor].
  - destruct (isspace c) eqn:Ec.
    + destruct word; [now apply IH|].
      constructor; [now apply Htok|]. now apply IH.
    + apply IH. now constructor.
Qed.

Lemma split_from_nil s :
  forall word, split_from word s = [] <-> word = [] /\ blank s.
Proof.
  unfold blank. induction s as [|c s IH]; intros word; cbn [split_from].
  - destruct word; split; try easy; now intros [? _].
  - destruct (isspace c) eqn:Ec.
    + destruct word.
      * rewrite IH. split; intros [? H]; split; auto.
        now inversion H.
      * split; [discriminate|now intros [? _]].
    + rewrite IH. split; [now intros [? _]|].
      intros [_ H]. inversion H. congruence.
Qed.

Lemma split_from_space_after s c :
  isspace c = true ->
  forall word, split_from word (s ++ [c]) = split_from word s.
Proof.
  intros Hc. induction s as [|x s IH]; intros word; cbn [app split_from].
  - rewrite Hc. now destruct word.
  - destruct (isspace x); [|apply IH]. destruct word; now rewrite IH.
Qed.

Lemma split_from_blank_after tail :
  blank tail -> forall s word, split_from word (s ++ tail) = split_from word s.
Proof.
  unfold blank. induction 1 as [|c tail Hc _ IH]; intros s word.
  - now rewrite app_nil_r.
  - change (c :: tail) with ([c] ++ tail). rewrite app_assoc, IH.
    now apply split_from_space_after.
Qed.

Lemma split_blank_before pre s :
  blank pre -> split (pre ++ s) = split s.
Proof.
  unfold blank, split. induction 1 as [|c pre Hc _ IH]; cbn [app split_from];
    [reflexivity|]. now rewrite Hc.
Qed.

Lemma lstrip_spec s : exists pre, s = pre ++ lstrip s /\ blank pre.
Proof.
  unfold blank. induction s as [|c s (pre & Hs & Hpre)]; cbn [lstrip].
  - exists []. split; [reflexivity|constructor].
  - destruct (isspace c) eqn:Ec.
    + exists (c :: pre). split; [cbn [app]; congruence|now constructor].
    + exists []. split; [reflexivity|constructor].
Qed.

Lemma split_strip s : split (strip s) = split s.
Proof.
  unfold strip.
  destruct (lstrip_spec s) as (pre & Hs & Hpre).
  destruct (lstrip_spec (rev (lstrip s))) as (pre' & Hs' & Hpre').
  rewrite Hs at 2. rewrite split_blank_before by assumption.
  apply (f_equal (@rev Z)) in Hs'. rewrite rev_involutive, rev_app_distr in Hs'.
  rewrite Hs' at 2. unfold split.
  rewrite split_from_blank_after; [reflexivity|].
  unfold blank in *. now apply Forall_rev.
Qed.

Lemma lstrip_blank s : blank s -> lstrip s = [].
Proof.
  unfold blank. induction 1 as [|c s Hc _ IH]; cbn [lstrip]; [reflexivity|].
  now rewrite Hc.
Qed.

Lemma strip_nil_iff s : strip s = [] <-> split s = [].
Proof.
  split.
  - intros E. now rewrite <- split_strip, E.
  - intros E. apply (split_from_nil s []) in E as [_ Hb].
    unfold strip. now rewrite (lstrip_blank s Hb).
Qed.

Lemma split_from_word w :
  Forall (fun c => isspace c = false) w ->
  forall word rest, split_from word (w ++ rest) = split_from (rev w ++ word) rest.
Proof.
  induction 1 as [|c w Hc _ IH]; intros word rest; cbn [app split_from rev].
  - reflexivity.
  - rewrite Hc, IH, <- app_assoc. reflexivity.
Qed.

Lemma rev_word_token (p word : str) :
  p <> [] ->
  match rev p ++ word with [] => [] | _ => [rev (rev p ++ word)] end
  = [rev word ++ p].
Proof.
  intros Hne. destruct (rev p ++ word) eqn:E.
  - apply app_eq_nil in E as [E _].
    apply (f_equal (@rev Z)) in E. rewrite rev_involutive in E. now subst.
  - now rewrite <- E, rev_app_distr, rev_involutive.
Qed.

Lemma split_join ws :
  Forall is_token ws -> split (join (literal Literals.space) ws) = ws.
Proof.
  change (literal Literals.space) with [32]. unfold split.
  induction 1 as [|p ws [Hne Hp] Hws IH]; cbn [join]; [reflexivity|].
  destruct ws as [|q ws].
  - pose proof (split_from_word p Hp [] []) as H. rewrite app_nil_r in H.
    rewrite H. cbn [split_from]. now rewrite rev_word_token.
  - rewrite split_from_word by assumption. cbn [app split_from].
    rewrite space_is_space, IH.
    pose proof (rev_word_token p [] Hne) as H. cbn [rev app] in H.
    destruct (rev p ++ []); [discriminate|]. injection H as H. cbn [rev]. now rewrite H.
Qed.

(** ** [parse_command] *)

Lemma parse_command_by_words self line :
  CommandProcessor.parse_command self line
  = Some (match split line with
          | [] => (None, [])
          | command_name :: args =>
              (Some (match CommandProcessor.get_command self command_name with
                     | Some command => command
                     | None => RawCommand command_name
                     end), args)
          end).
Proof.
  unfold CommandProcessor.parse_command.
  destruct line as [|c line]; [reflexivity|]. cbn [nonempty negb orb].
  rewrite split_strip.
  destruct (strip (c :: line)) eqn:Es.
  - apply strip_nil_iff in Es. now rewrite Es.
  - cbn [nonempty negb].
    destruct (split (c :: line)) as [|n args] eqn:Ep.
    + apply strip_nil_iff in Ep. congruence.
    + replace (if 1 <? len (n :: args) then skipn 1 (n :: args) else [])
        with args.
      { now destruct (CommandProcessor.get_command self n). }
      destruct args as [|a args]; [reflexivity|].
      unfold len. cbn [length skipn].
      now rewrite (proj2 (Z.ltb_lt 1 _)) by lia.
Qed.

Lemma no_word_iff_blank line : split line = [] <-> blank line.
Proof. unfold split. rewrite split_from_nil. tauto. Qed.

(** X18: [parse_command] never fails on [parts[0]], and its result is read off
    the words of the line: no command for a line without a word, else the
    command registered under the first word, or a raw command of that name
    when none is, and the other words as arguments.  Each word is free of
    whitespace and not empty, and a line is without a word exactly when it
    is blank, so the calls of [strip] change nothing. *)
Theorem parse_command_reads_the_words self line :
  CommandProcessor.parse_command self line
  = Some (match split line with
          | [] => (None, [])
          | command_name :: args =>
              (Some (match CommandProcessor.get_command self command_name with
                     | Some command => command
                     | None => RawCommand command_name
                     end), args)
          end)
  /\ Forall is_token (split line)
  /\ (split line = [] <-> blank line).
Proof.
  split; [apply parse_command_by_words|].
  split; [|apply no_word_iff_blank].
  unfold split. apply split_from_tokens. constructor.
Qed.

(** ** The commands run *)

Ltac run_commands :=
  cbv [CommandProcessor.execute_command execute validate_args
       RawCommand_execute PingCommand_execute ListCommand_execute
       StatusCommand_execute HelpCommand_execute
       cbind ctry client_call time_time creturn craise clog
       RconClient.get_time negb];
  cbn [rcon journal fst snd].

Lemma execute_journal c args config s :
  exists res s',
    execute c args config s = (Returns res, s')
    /\ (success res = true <-> error res = None)
    /\ (forall e, error res <> Some (ExecutionError e))
    /\ (forall a, error res <> Some (InvalidArguments a))
    /\ error res <> Some EmptyCommand
    /\ (forall l e, In (l, RunFailed e) (journal s') -> In (l, RunFailed e) (journal s)).
Proof.
  assert (Hj : forall l e (j : list (RconClient.log_level * journal_msg)) x y,
             In (l, RunFailed e) (j ++ [(x, RunningRaw y)]) -> In (l, RunFailed e) j).
  { intros l e j x y H. apply in_app_or in H as [H|[H|[]]]; [assumption|discriminate]. }
  assert (Hj2 : forall l e (j : list (RconClient.log_level * journal_msg)) x y,
             In (l, RunFailed e) (j ++ [(x, RawFailed y)]) -> In (l, RunFailed e) j).
  { intros l e j x y H. apply in_app_or in H as [H|[H|[]]]; [assumption|discriminate]. }
  destruct c; run_commands.
  - destruct (RconClient.ping _) as [[a|e] w];
      eexists _, _; (split; [reflexivity|]); cbn [success error journal];
      repeat split; congruence || auto.
  - destruct (RconClient.execute_command _ _) as [[a|e] w];
      eexists _, _; (split; [reflexivity|]); cbn [success error journal];
      repeat split; congruence || auto.
  - destruct (RconClient.ping _) as [[a|e] w]; cbv beta iota;
      destruct (RconClient.execute_command _ _) as [[a1|e1] w1]; cbv beta iota;
      destruct (RconClient.execute_command _ _) as [[a2|e2] w2];
      eexists _, _; (split; [reflexivity|]); cbn [success error journal];
      repeat split; congruence || auto.
  - eexists _, _; (split; [reflexivity|]); cbn [success error journal];
      repeat split; congruence || auto.
  - destruct (RconClient.execute_command _ _) as [[a|e] w];
      eexists _, _; (split; [reflexivity|]); cbn [success error journal];
      repeat split; try congruence; eauto.
Qed.

Lemma parse_command_words self line n args :
  split line = n :: args ->
  CommandProcessor.parse_command self line
  = Some (Some (match CommandProcessor.get_command self n with
                | Some command => command
                | None => RawCommand n
                end), args).
Proof.
  intros Hs. pose proof (parse_command_by_words self line) as H.
  now rewrite H, Hs.
Qed.

(** X19: a line whose first word is no registered command goes to the server as
    its words joined by single spaces, whatever whitespace separated or
    surrounded them: lines with the same words make the same call of the
    client.  The result reports the success of that call, with the
    response as output or the error of the client as text, and the time
    the clock advanced; the processor logs the command, the text sent, the
    failure if any, and the outcome. *)
Theorem unknown_commands_are_sent_normalised self line config s n args :
  split line = n :: args ->
  CommandProcessor.get_command self n = None ->
  let full := join (literal Literals.space) (split line) in
  let call := RconClient.execute_command full (rcon s) in
  let run := CommandProcessor.execute_command self line config s in
  let t := (RconClient.time_time (RconClient.env (snd call)) (RconClient.now (snd call))
            - clock s)%float in
  split full = split line
  /\ rcon (snd run) = snd call
  /\ fst run
     = Returns (match fst call with
                | Ok response => mkCommandResult true (Text response) t None
                | Raise e => mkCommandResult false (Text []) t (Some (StrOf (Rcon e)))
                end)
  /\ journal (snd run)
     = journal s
       ++ [(RconClient.DEBUG, Running n args); (RconClient.DEBUG, RunningRaw full)]
       ++ match fst call with
          | Ok _ => []
          | Raise e => [(RconClient.ERROR, RawFailed (Rcon e))]
          end
       ++ [(RconClient.DEBUG, Finished (is_Ok (fst call)))].
Proof.
  intros Hs Hget. cbv zeta.
  split; [apply split_join, split_from_tokens; constructor|].
  assert (Hfull : join (literal Literals.space) (split line)
                  = if nonempty args
                    then n ++ literal Literals.space
                         ++ join (literal Literals.space) args
                    else n).
  { rewrite Hs. destruct args; [reflexivity|]. cbn [join nonempty]. reflexivity. }
  unfold CommandProcessor.execute_command.
  rewrite (parse_command_words self line n args Hs), Hget.
  rewrite Hfull. unfold clock. cbn [name].
  run_commands.
  destruct (RconClient.execute_command _ (rcon s)) as [[response|e] w];
    cbn [fst snd success is_Ok rcon journal name]; rewrite <- ?app_assoc;
    cbn [app]; repeat split.
Qed.

Lemma unknown_commands_are_sent_normalised_witness :
  rcon (snd (CommandProcessor.execute_command processor
               [32; 115; 97; 121; 9; 9; 104; 105; 32] None idle_session))
  = snd (RconClient.execute_command [115; 97; 121; 32; 104; 105]
           (rcon idle_session)).
Proof.
  destruct (unknown_commands_are_sent_normalised processor
              [32; 115; 97; 121; 9; 9; 104; 105; 32] None idle_session
              [115; 97; 121] [[104; 105]])
    as (_ & H & _); [reflexivity | reflexivity | exact H].
Defined.

Lemma processor_commands :
  CommandProcessor.commands processor
  = [(literal Literals.ping_name, PingCommand);
     (literal Literals.list_name, ListCommand);
     (literal Literals.status_name, StatusCommand);
     (literal Literals.help_name, HelpCommand);
     (literal Literals.h_alias, HelpCommand);
     (literal Literals.question_mark_alias, HelpCommand)].
Proof. reflexivity. Qed.

(** X20: the processor keeps six names for itself: [ping], [list], [status],
    [help], [h] and [?].  A line that starts with one of them is never
    sent as it is.  After [list] the arguments are dropped: the server
    gets the bare command.  [ping] calls the client's [ping].  [help] and
    its aliases do not touch the client and return the text of the
    processor.  Every other first word is looked up in vain. *)
Theorem builtin_names_are_not_sent line config s n args :
  split line = n :: args ->
  let run := CommandProcessor.execute_command processor line config s in
  (n = literal Literals.list_name ->
   rcon (snd run)
   = snd (RconClient.execute_command (literal Literals.list_name) (rcon s)))
  /\ (n = literal Literals.ping_name ->
      rcon (snd run) = snd (RconClient.ping (rcon s)))
  /\ (n = literal Literals.help_name \/ n = literal Literals.h_alias
      \/ n = literal Literals.question_mark_alias ->
      rcon (snd run) = rcon s
      /\ fst run = Returns (mkCommandResult true HelpText (clock s - clock s) None))
  /\ (CommandProcessor.get_command processor n = None <-> ~ In n builtin_names).
Proof.
  intros Hs. cbv zeta. unfold CommandProcessor.execute_command.
  rewrite (parse_command_words processor line n args Hs).
  split; [|split; [|split]].
  - intros ->. change (CommandProcessor.get_command processor (literal Literals.list_name))
      with (Some ListCommand).
    run_commands. now destruct (RconClient.execute_command _ (rcon s)) as [[a|e] w].
  - intros ->. change (CommandProcessor.get_command processor (literal Literals.ping_name))
      with (Some PingCommand).
    run_commands. now destruct (RconClient.ping (rcon s)) as [[a|e] w].
  - intros [->|[->| ->]];
      match goal with
      | |- context [CommandProcessor.get_command processor ?k] =>
          change (CommandProcessor.get_command processor k) with (Some HelpCommand)
      end;
      run_commands; unfold clock; split; reflexivity.
  - unfold CommandProcessor.get_command. rewrite processor_commands.
    unfold builtin_names. cbn [map In Config.dict_get].
    repeat match goal with
    | |- context [Config.str_eqb ?a n] =>
        let E := fresh "E" in
        destruct (Config.str_eqb a n) eqn:E;
        [apply ConfigFacts.str_eqb_eq in E|apply ConfigFacts.str_eqb_neq in E]
    end; split; try discriminate; try tauto.
Qed.

Lemma builtin_names_are_not_sent_witness :
  rcon (snd (CommandProcessor.execute_command processor
               (literal Literals.list_name ++ [32; 117]) None idle_session))
  = snd (RconClient.execute_command (literal Literals.list_name) (rcon idle_session)).
Proof.
  destruct (builtin_names_are_not_sent
              (literal Literals.list_name ++ [32; 117]) None idle_session
              (literal Literals.list_name) [[117]])
    as (H & _); [reflexivity | exact (H eq_refl)].
Defined.

(** X21: [status] always reports success.  The failures of its three calls of
    the client are swallowed one by one: a failed [ping] leaves the line
    of a broken connection in the report, a failed query leaves nothing,
    and the handler of the command itself never runs.  The report holds
    the lines of the server when a configuration is given, and at most
    three lines more. *)
Theorem status_always_succeeds args config s :
  let run := StatusCommand_execute args config s in
  exists lines t,
    fst run = Returns (mkCommandResult true (StatusReport lines) t None)
    /\ journal (snd run) = journal s
    /\ (is_Ok (fst (RconClient.ping (rcon s))) = false -> In ConnectionBroken lines)
    /\ (is_Ok (fst (RconClient.ping (rcon s))) = true -> ~ In ConnectionBroken lines)
    /\ (config = None -> 1 <= len lines <= 3)
    /\ (forall e, fst run <> Raises e).
Proof.
  cbv zeta. run_commands.
  assert (Hlen : forall (a b : list status_line), len (a ++ b) = len a + len b)
    by (intros; apply PyFacts.len_app).
  destruct (RconClient.ping (rcon s)) as [[lat|e] w];
    cbv beta iota; cbn [rcon journal];
    destruct (RconClient.execute_command _ w) as [[a1|e1] w1];
    cbv beta iota; cbn [rcon journal];
    destruct (RconClient.execute_command _ w1) as [[a2|e2] w2];
    cbn [fst snd is_Ok rcon journal]; eexists _, _;
    (split; [reflexivity|]); (split; [reflexivity|]);
    (split; [first [discriminate
                   |intros _; rewrite !in_app_iff; cbn [In]; tauto]|]);
    (split; [first [discriminate
                   |intros _; destruct config as [c|];
                    [destruct (Config.truthy (Config.description c))|];
                    rewrite ?in_app_iff; cbn [In]; intuition discriminate]|]);
    (split; [intros ->; cbn [app]; unfold len; cbn [length]; lia|]);
    discriminate.
Qed.

(** X22: [CommandProcessor.execute_command] returns a result for every line,
    every processor and every behaviour of the client: nothing is raised,
    [parts[0]] included.  The result is a success exactly when it carries
    no error; the error of an empty command is reported exactly for the
    blank lines, without a line in the log; and the errors of invalid
    arguments and of a failed execution are never reported, nor is the
    failure of an execution logged: no command rejects its arguments and
    every command handles its own errors. *)
Theorem processor_never_raises self line config s :
  let run := CommandProcessor.execute_command self line config s in
  exists res,
    fst run = Returns res
    /\ (success res = true <-> error res = None)
    /\ (error res = Some EmptyCommand <-> blank line)
    /\ (blank line -> snd run = s)
    /\ (forall e, error res <> Some (ExecutionError e))
    /\ (forall a, error res <> Some (InvalidArguments a))
    /\ (forall l e, In (l, RunFailed e) (journal (snd run)) ->
                    In (l, RunFailed e) (journal s)).
Proof.
  cbv zeta. unfold CommandProcessor.execute_command.
  pose proof (parse_command_by_words self line) as Hp.
  pose proof (no_word_iff_blank line) as Hblank.
  rewrite Hp. destruct (split line) as [|n args] eqn:Hs.
  - run_commands. eexists. split; [reflexivity|]. cbn [success error].
    split; [split; discriminate|]. split; [tauto|]. split; [reflexivity|].
    split; [discriminate|]. split; [discriminate|]. auto.
  - assert (Hnb : ~ blank line) by (rewrite <- Hblank; discriminate).
    set (c := match CommandProcessor.get_command self n with
              | Some command => command
              | None => RawCommand n
              end).
    destruct (execute_journal c args config
                (mkSession (rcon s)
                           (journal s ++ [(RconClient.DEBUG, Running (name c) args)])))
      as (res & s' & Hrun & Hok & He & Ha & Hempty & Hj).
    cbv [cbind ctry creturn craise clog validate_args negb].
    cbn [rcon journal] in *. rewrite Hrun. cbn [fst snd journal].
    exists res. split; [reflexivity|]. split; [assumption|].
    split; [split; [congruence|tauto]|]. split; [tauto|].
    split; [assumption|]. split; [assumption|].
    intros l e Hin. rewrite in_app_iff in Hin. cbn [In] in Hin.
    destruct Hin as [Hin|[Hin|[]]]; [|discriminate].
    apply Hj in Hin. rewrite in_app_iff in Hin. cbn [In] in Hin.
    destruct Hin as [Hin|[Hin|[]]]; [assumption|discriminate].
Qed.

End CommandsFacts.
